(** * badger-board: rendering pipeline and serial transport

    A shallow embedding of the two programs of the repository:

    - [badge_co2.py], the transmitter that renders sensor readings into a
      1-bit canvas, packs it and writes an [IMG:] frame on the serial link;
    - [badge_main.py], the receiver that runs on the Badger2040, reads
      frames, decodes them and paints the e-paper panel.

    Python integers are [Z], list indices and the pixel coordinates of the
    loops are [nat], [bytes] objects are [list Z], [str] objects are
    [string] and dictionaries are [gmap].  Exceptions are values of the
    [result] monad, so that "no exception escapes" is a statement about a
    function returning [Ok].  The libraries the programs call (base64,
    [float] and string formatting, Pillow, the badger2040 driver) are
    modelled as far as the programs use them; what depends on files or on
    font rasterisation is a parameter.

    The definitions come first, module by module in the order of the data
    flow; the properties follow. *)

From Stdlib Require Import ZArith QArith Qabs List String Ascii Lia Bool Btauto.
From Stdlib Require Import Floats.SpecFloat DecimalString DecimalPos.
From stdpp Require Import base list gmap strings.
From coqutil Require Import Z.bitblast.

Local Open Scope string_scope.
Local Open Scope list_scope.
Local Open Scope Z_scope.

(** ** Python runtime: exceptions, loops, indexing *)

Module Py.

Inductive exn : Type :=
  | ValueError (msg : string)
  | TypeError (msg : string)
  | OverflowError (msg : string)
  | IndexError (msg : string).

(** [str(e)] *)
Definition exn_str (e : exn) : string :=
  match e with
  | ValueError msg | TypeError msg | OverflowError msg | IndexError msg => msg
  end.

Inductive result (A : Type) : Type :=
  | Ok (a : A)
  | Raise (e : exn).
Arguments Ok {A} a.
Arguments Raise {A} e.

#[global] Instance result_ret : MRet result := fun _ a => Ok a.
#[global] Instance result_bind : MBind result := fun _ _ f m =>
  match m with
  | Ok a => f a
  | Raise e => Raise e
  end.

(** [try: body except (e1, ...): handler] *)
Definition try_except {A} (body : result A) (caught : exn -> bool)
    (handler : exn -> result A) : result A :=
  match body with
  | Ok a => Ok a
  | Raise e => if caught e then handler e else Raise e
  end.

(** [for x in xs: body], threading the mutated variables as a state. *)
Fixpoint for_ {A S : Type} (xs : list A) (body : A -> S -> result S) (s : S)
    : result S :=
  match xs with
  | [] => Ok s
  | x :: xs' => s' ← body x s; for_ xs' body s'
  end.

(** [range(n)] and [range(start, stop, step)] for a positive step. *)
Definition range (n : nat) : list nat := seq 0 n.

Definition range3 (start stop step : nat) : list nat :=
  (fun i => (start + i * step)%nat) <$> seq 0 ((stop - start + (step - 1)) / step)%nat.

(** [l[i]] for a non-negative index. *)
Definition getitem {A} (l : list A) (i : nat) : result A :=
  match l !! i with
  | Some a => Ok a
  | None => Raise (IndexError "index out of range")
  end.

(** *** Strings *)

(** Whitespace as [str.strip] of MicroPython sees it. *)
Definition isspace (c : ascii) : bool :=
  let n := nat_of_ascii c in
  ((n =? 32) || ((9 <=? n) && (n <=? 13)))%nat.

Fixpoint str_lstrip (s : string) : string :=
  match s with
  | EmptyString => EmptyString
  | String c s' => if isspace c then str_lstrip s' else s
  end.

Fixpoint str_rstrip (s : string) : string :=
  match s with
  | EmptyString => EmptyString
  | String c s' =>
      match str_rstrip s' with
      | EmptyString => if isspace c then EmptyString else String c EmptyString
      | r => String c r
      end
  end.

Definition str_strip (s : string) : string := str_rstrip (str_lstrip s).

Definition startswith (s p : string) : bool := String.prefix p s.

(** [s[n:]] *)
Fixpoint str_from (n : nat) (s : string) : string :=
  match n, s with
  | O, _ => s
  | S n', String _ s' => str_from n' s'
  | S _, EmptyString => EmptyString
  end.

(** [s.split(sep)] for a one-character separator. *)
Fixpoint str_split (sep : ascii) (s : string) : list string :=
  match s with
  | EmptyString => [EmptyString]
  | String c s' =>
      if Ascii.eqb c sep then EmptyString :: str_split sep s'
      else match str_split sep s' with
           | [] => [String c EmptyString]
           | w :: ws => String c w :: ws
           end
  end.

(** Every character of [s] satisfies [p]. *)
Fixpoint str_forall (p : ascii -> bool) (s : string) : bool :=
  match s with
  | EmptyString => true
  | String c s' => p c && str_forall p s'
  end.

End Py.
Import Py.

(** ** Base64, as the two ends of the link use it *)

Module Base64.

Definition alphabet : string :=
  "ABCDEFGHIJKLMNOPQRSTUVWXYZabcdefghijklmnopqrstuvwxyz0123456789+/".

Definition pad : ascii := "="%char.

Definition b64_char (n : Z) : ascii :=
  match String.get (Z.to_nat n) alphabet with
  | Some c => c
  | None => pad
  end.

(** The four sextets of three bytes [a], [b], [c]. *)
Definition s0 (a : Z) : Z := Z.shiftr a 2.
Definition s1 (a b : Z) : Z := Z.lor (Z.shiftl (Z.land a 3) 4) (Z.shiftr b 4).
Definition s2 (b c : Z) : Z := Z.lor (Z.shiftl (Z.land b 15) 2) (Z.shiftr c 6).
Definition s3 (c : Z) : Z := Z.land c 63.

(** [base64.b64encode] of CPython (RFC 4648, standard alphabet, padded). *)
Fixpoint b64encode (bs : list Z) : string :=
  match bs with
  | [] => EmptyString
  | [a] =>
      String (b64_char (s0 a))
        (String (b64_char (Z.shiftl (Z.land a 3) 4))
           (String pad (String pad EmptyString)))
  | [a; b] =>
      String (b64_char (s0 a))
        (String (b64_char (s1 a b))
           (String (b64_char (Z.shiftl (Z.land b 15) 2))
              (String pad EmptyString)))
  | a :: b :: c :: rest =>
      String (b64_char (s0 a))
        (String (b64_char (s1 a b))
           (String (b64_char (s2 b c))
              (String (b64_char (s3 c)) (b64encode rest))))
  end.

(** [binascii.a2b_base64] of MicroPython: a streaming decoder that skips
    characters outside the alphabet and raises [ValueError] when bits are
    left over.  [shift] is a C [uint]. *)

Definition sextet (ch : ascii) : option Z :=
  let n := Z.of_nat (nat_of_ascii ch) in
  if (65 <=? n) && (n <=? 90) then Some (n - 65)
  else if (97 <=? n) && (n <=? 122) then Some (n - 97 + 26)
  else if (48 <=? n) && (n <=? 57) then Some (n - 48 + 52)
  else if n =? 43 then Some 62
  else if n =? 47 then Some 63
  else None.

Record decoder : Type := mkDecoder {
  shift : Z;
  nbits : Z;
  hadpad : bool;
  out : list Z
}.

Definition uint (z : Z) : Z := Z.land z (Z.ones 32).

(** [shift = (shift << 6) | sextet] *)
Definition push (sh sx : Z) : Z := uint (Z.lor (Z.shiftl sh 6) sx).

Fixpoint a2b_loop (data : string) (st : decoder) : decoder :=
  match data with
  | EmptyString => st
  | String ch rest =>
      if Ascii.eqb ch pad
         && ((nbits st =? 2) || ((nbits st =? 4) && hadpad st))
      then mkDecoder (shift st) 0 (hadpad st) (out st)
      else
        let hadpad := if Ascii.eqb ch pad then true else hadpad st in
        match sextet ch with
        | None => a2b_loop rest (mkDecoder (shift st) (nbits st) hadpad (out st))
        | Some sx =>
            let shift := push (shift st) sx in
            let nbits := nbits st + 6 in
            if nbits >=? 8 then
              let nbits := nbits - 8 in
              a2b_loop rest
                (mkDecoder shift nbits false
                   (out st ++ [Z.land (Z.shiftr shift nbits) 255]))
            else a2b_loop rest (mkDecoder shift nbits false (out st))
        end
  end.

Definition a2b_base64 (data : string) : result (list Z) :=
  let st := a2b_loop data (mkDecoder 0 0 false []) in
  if nbits st =? 0 then Ok (out st)
  else Raise (ValueError "incorrect padding").

End Base64.

(** ** Python floats and their conversions

    A [float] is an IEEE-754 binary64 number, here a [spec_float] of
    precision 53 and maximal exponent 1024.  Thresholds of the
    configuration are Python numbers, taken as rationals; a comparison of a
    float with one is exact, as it is in Python. *)

Module PyFloat.

Definition prec : Z := 53.
Definition emax : Z := 1024.

(** The value of the decimal numeral [m * 10^e], rounded to nearest even. *)
Definition of_decimal (sign : bool) (m : Z) (e : Z) : spec_float :=
  match m with
  | Zpos p =>
      if 0 <=? e then binary_normalize prec emax (cond_Zopp sign (m * 10 ^ e)) 0 sign
      else SFdiv prec emax (S754_finite sign p 0)
                           (S754_finite false (Z.to_pos (10 ^ (- e))) 0)
  | _ => S754_zero sign
  end.

(** *** [float(s)] for a string *)

Definition is_digit (c : ascii) : bool :=
  let n := nat_of_ascii c in ((48 <=? n) && (n <=? 57))%nat.

Definition digit_of (c : ascii) : Z := Z.of_nat (nat_of_ascii c) - 48.

Definition lower (c : ascii) : ascii :=
  let n := nat_of_ascii c in
  if ((65 <=? n) && (n <=? 90))%nat then ascii_of_nat (n + 32) else c.

Fixpoint str_lower (s : string) : string :=
  match s with
  | EmptyString => EmptyString
  | String c s' => String (lower c) (str_lower s')
  end.

(** Whitespace that [float] strips from both ends. *)
Definition float_space (c : ascii) : bool :=
  let n := nat_of_ascii c in
  ((n =? 32) || ((9 <=? n) && (n <=? 13)) || ((28 <=? n) && (n <=? 31)))%nat.

Fixpoint lstrip_space (s : string) : string :=
  match s with
  | EmptyString => EmptyString
  | String c s' => if float_space c then lstrip_space s' else s
  end.

Fixpoint rstrip_space (s : string) : string :=
  match s with
  | EmptyString => EmptyString
  | String c s' =>
      match rstrip_space s' with
      | EmptyString => if float_space c then EmptyString else String c EmptyString
      | r => String c r
      end
  end.

(** A run of digits, a single underscore allowed between two digits.
    Returns the digits read (most significant first) and the rest. *)
Fixpoint scan_digits (s : string) (acc : list Z) : list Z * string :=
  match s with
  | EmptyString => (acc, EmptyString)
  | String c s' =>
      if is_digit c then scan_digits s' (acc ++ [digit_of c])
      else if Ascii.eqb c "_"
        then match acc, s' with
             | _ :: _, String c' _ =>
                 if is_digit c' then scan_digits s' acc else (acc, s)
             | _, _ => (acc, s)
             end
        else (acc, s)
  end.

Definition digits_value (ds : list Z) : Z :=
  foldl (fun acc d => 10 * acc + d) 0 ds.

(** The optional exponent part: [e] or [E], an optional sign, digits. *)
Definition scan_exponent (s : string) : option (Z * string) :=
  match s with
  | String c s' =>
      if Ascii.eqb (lower c) "e" then
        let '(neg, s'') :=
          match s' with
          | String "-" t => (true, t)
          | String "+" t => (false, t)
          | _ => (false, s')
          end in
        match scan_digits s'' [] with
        | ([], _) => None
        | (ds, rest) => Some (cond_Zopp neg (digits_value ds), rest)
        end
      else None
  | EmptyString => None
  end.

Definition bad_literal : exn := ValueError "could not convert string to float".

Definition float_of_str (s : string) : result spec_float :=
  let s := rstrip_space (lstrip_space s) in
  let '(sign, body) :=
    match s with
    | String "-" t => (true, t)
    | String "+" t => (false, t)
    | _ => (false, s)
    end in
  let word := str_lower body in
  if String.eqb word "inf" || String.eqb word "infinity" then Ok (S754_infinity sign)
  else if String.eqb word "nan" then Ok S754_nan
  else
    let '(int_ds, rest) := scan_digits body [] in
    let '(frac_ds, rest) :=
      match rest with
      | String "." t => scan_digits t []
      | _ => ([], rest)
      end in
    match int_ds ++ frac_ds with
    | [] => Raise bad_literal
    | ds =>
        let '(e, rest) :=
          match scan_exponent rest with
          | Some (e, rest') => (e, rest')
          | None => (0, rest)
          end in
        match rest with
        | EmptyString =>
            Ok (of_decimal sign (digits_value ds) (e - Z.of_nat (length frac_ds)))
        | _ => Raise bad_literal
        end
    end.

(** *** Comparison with a number *)

(** The exact value of a finite float. *)
Definition finite_value (sign : bool) (m : positive) (e : Z) : Q :=
  match e with
  | Zneg k => Qmake (cond_Zopp sign (Zpos m)) (2 ^ k)
  | _ => inject_Z (cond_Zopp sign (Zpos m * 2 ^ e))
  end.

(** [val >= t] *)
Definition float_ge (val : spec_float) (t : Q) : bool :=
  match val with
  | S754_nan => false
  | S754_infinity sign => negb sign
  | S754_zero _ => Qle_bool t 0
  | S754_finite sign m e => Qle_bool t (finite_value sign m e)
  end.

(** [val < t] *)
Definition float_lt (val : spec_float) (t : Q) : bool :=
  match val with
  | S754_nan => false
  | S754_infinity sign => sign
  | S754_zero _ => negb (Qle_bool t 0)
  | S754_finite sign m e => negb (Qle_bool t (finite_value sign m e))
  end.

(** The finite floats and their exact values. *)
Definition is_finite (val : spec_float) : bool :=
  match val with
  | S754_zero _ | S754_finite _ _ _ => true
  | _ => false
  end.

Definition value_of (val : spec_float) : Q :=
  match val with
  | S754_finite sign m e => finite_value sign m e
  | _ => 0
  end.

Definition sign_of (val : spec_float) : bool :=
  match val with
  | S754_zero sign | S754_infinity sign | S754_finite sign _ _ => sign
  | S754_nan => false
  end.

(** [t] is [x] with its fraction dropped: rounded toward zero. *)
Definition truncates (x : Q) (t : Z) : Prop :=
  (0 <= x -> inject_Z t <= x /\ x < inject_Z (t + 1))%Q
  /\ (x <= 0 -> inject_Z (t - 1) < x /\ x <= inject_Z t)%Q.

(** [r] is an integer nearest to [x], the even one of two. *)
Definition nearest_even (x : Q) (r : Z) : Prop :=
  (Qabs (x - inject_Z r) <= 1 # 2)%Q
  /\ (Qabs (x - inject_Z r) == 1 # 2 -> Z.even r = true)%Q.

(** *** [int(val)] *)
Definition int_of_float (val : spec_float) : result Z :=
  match val with
  | S754_nan => Raise (ValueError "cannot convert float NaN to integer")
  | S754_infinity _ => Raise (OverflowError "cannot convert float infinity to integer")
  | S754_zero _ => Ok 0
  | S754_finite sign m e => Ok (cond_Zopp sign (Z.shiftl (Zpos m) e))
  end.

(** [str(i)] for an integer. *)
Definition str_of_int (i : Z) : string := NilZero.string_of_int (Z.to_int i).

(** *** [f"{val:.Nf}"] *)

(** [num / den] rounded to the nearest integer, ties to even. *)
Definition round_half_even (num den : Z) : Z :=
  let q := num / den in
  let r := num mod den in
  match 2 * r ?= den with
  | Lt => q
  | Gt => q + 1
  | Eq => if Z.even q then q else q + 1
  end.

(** The absolute value of a finite float times [10^ndigits], rounded. *)
Definition scaled_magnitude (ndigits : nat) (m : positive) (e : Z) : Z :=
  match e with
  | Zneg k => round_half_even (Zpos m * 10 ^ Z.of_nat ndigits) (Zpos (2 ^ k))
  | _ => Zpos m * 2 ^ e * 10 ^ Z.of_nat ndigits
  end.

Fixpoint zeros (n : nat) : string :=
  match n with
  | O => EmptyString
  | S n' => String "0" (zeros n')
  end.

(** The digits of [n], with a point before the last [ndigits] of them. *)
Definition fixed_digits (ndigits : nat) (n : Z) : string :=
  match ndigits with
  | O => str_of_int n
  | _ =>
      let ds := str_of_int n in
      let ds := zeros (S ndigits - String.length ds) +:+ ds in
      let k := (String.length ds - ndigits)%nat in
      substring 0 k ds +:+ "." +:+ substring k ndigits ds
  end.

Definition format_fixed (ndigits : nat) (val : spec_float) : string :=
  match val with
  | S754_nan => "nan"
  | S754_infinity sign => if sign then "-inf" else "inf"
  | S754_zero sign => (if sign then "-" else EmptyString) +:+ fixed_digits ndigits 0
  | S754_finite sign m e =>
      (if sign then "-" else EmptyString)
      +:+ fixed_digits ndigits (scaled_magnitude ndigits m e)
  end.

End PyFloat.

(** ** The receiver, [badge_main.py] *)

Module BadgeMain.

(** *** The [badger2040] display object

    The driver keeps a pen, an update speed, a font and a frame buffer of
    one pen value per pixel, row-major; [update] copies the frame buffer to
    the physical panel with the current speed.  [refreshes] records the
    speed of every refresh cycle, oldest first. *)

Inductive update_speed : Type := UPDATE_NORMAL | UPDATE_FAST.

Record Badger2040 : Type := mkBadger {
  pen : Z;
  speed : update_speed;
  font : string;
  framebuffer : list Z;
  panel : list Z;
  refreshes : list update_speed
}.

Section Panel.

Variables WIDTH HEIGHT : nat.
Variable FULL_REFRESH_INTERVAL : Z.

(** Glyph rasteriser of the driver's bitmap fonts: the pixels that
    [display.text(msg, x, y, scale=s)] sets for a font. *)
Variable glyphs : string -> string -> nat -> nat -> nat -> list (nat * nat).

Definition set_pen (p : Z) (d : Badger2040) : Badger2040 :=
  mkBadger p (speed d) (font d) (framebuffer d) (panel d) (refreshes d).

Definition set_update_speed (s : update_speed) (d : Badger2040) : Badger2040 :=
  mkBadger (pen d) s (font d) (framebuffer d) (panel d) (refreshes d).

Definition set_font (f : string) (d : Badger2040) : Badger2040 :=
  mkBadger (pen d) (speed d) f (framebuffer d) (panel d) (refreshes d).

Definition clear (d : Badger2040) : Badger2040 :=
  mkBadger (pen d) (speed d) (font d) (replicate (WIDTH * HEIGHT) (pen d))
           (panel d) (refreshes d).

(** [display.pixel(x, y)]: clipped to the panel. *)
Definition pixel (x y : nat) (d : Badger2040) : Badger2040 :=
  if (x <? WIDTH)%nat && (y <? HEIGHT)%nat then
    mkBadger (pen d) (speed d) (font d)
             (<[(y * WIDTH + x)%nat := pen d]> (framebuffer d))
             (panel d) (refreshes d)
  else d.

Definition text (msg : string) (x y scale : nat) (d : Badger2040) : Badger2040 :=
  foldl (fun d '(px, py) => pixel px py d) d (glyphs (font d) msg x y scale).

Definition update (d : Badger2040) : Badger2040 :=
  mkBadger (pen d) (speed d) (font d) (framebuffer d) (framebuffer d)
           (refreshes d ++ [speed d]).

(** *** Module state: [display], [update_count], [buffer] and the console *)

Record machine : Type := mkMachine {
  display : Badger2040;
  update_count : Z;
  buffer : string;
  stdout : list string
}.

Definition with_display (f : Badger2040 -> Badger2040) (m : machine) : machine :=
  mkMachine (f (display m)) (update_count m) (buffer m) (stdout m).

Definition print (s : string) (m : machine) : machine :=
  mkMachine (display m) (update_count m) (buffer m) (stdout m ++ [s]).

Definition show_waiting_screen (m : machine) : machine :=
  with_display (fun d =>
    update (text "Waiting for data..." 10 55 2
      (set_font "bitmap8" (set_pen 0 (clear (set_pen 15 d)))))) m.

(** *** [display_image] *)

(** The [for bit in range(8)] loop of one byte. *)
Definition paint_byte (byte : Z) (x y : nat) : Badger2040 -> result Badger2040 :=
  for_ (range 8) (fun bit d =>
    let px := (x + bit)%nat in
    if (px <? WIDTH)%nat then
      if Z.land byte (Z.shiftl 1 (7 - Z.of_nat bit)) =? 0 then
        Ok (pixel px y (set_pen 0 d))
      else Ok d
    else Ok d).

(** The two outer loops; the loop state is the display and [byte_idx]. *)
Definition paint_rows (img_bytes : list Z)
    : Badger2040 * nat -> result (Badger2040 * nat) :=
  for_ (range HEIGHT) (fun y =>
    for_ (range3 0 WIDTH 8) (fun x '(d, byte_idx) =>
      if (byte_idx <? length img_bytes)%nat then
        byte ← getitem img_bytes byte_idx;
        d' ← paint_byte byte x y d;
        Ok (d', S byte_idx)
      else Ok (d, byte_idx))).

Definition display_image (img_bytes : list Z) (m : machine) : result machine :=
  let d := set_pen 0 (clear (set_pen 15 (display m))) in
  '(d, _) ← paint_rows img_bytes (d, 0%nat);
  let update_count := update_count m + 1 in
  if update_count >=? FULL_REFRESH_INTERVAL then
    let d := set_update_speed UPDATE_NORMAL d in
    let d := update d in
    let d := set_update_speed UPDATE_FAST d in
    Ok (mkMachine d 0 (buffer m) (stdout m))
  else
    Ok (mkMachine (update d) update_count (buffer m) (stdout m)).

(** *** The read loop

    [while True] polls [sys.stdin]; an iteration that finds no input does
    nothing, so the loop is the fold of [on_char] over the characters that
    arrive.  The handler of [except Exception] runs from the state before
    the [try]: the only statement that mutates state inside it is
    [display_image], which never raises ([display_image_eq] below). *)

Definition set_buffer (b : string) (m : machine) : machine :=
  mkMachine (display m) (update_count m) b (stdout m).

Definition newline : ascii := "010"%char.

Definition on_char (char : ascii) (m : machine) : result machine :=
  if Ascii.eqb char newline then
    let line := str_strip (buffer m) in
    let m := set_buffer EmptyString m in
    if startswith line "IMG:" then
      try_except
        (let encoded_data := str_from 4 line in
         img_bytes ← Base64.a2b_base64 encoded_data;
         m' ← display_image img_bytes m;
         Ok (print "Image displayed" m'))
        (fun _ => true)
        (fun e => Ok (print ("Error: " +:+ exn_str e) m))
    else if startswith line "CO2:" then
      co2_level ← getitem (str_split ":"%char line) 1;
      Ok (with_display (fun d =>
            update
              (text "ppm" 30 90 2
                 (text co2_level 30 50 4
                    (text "Room CO2 Level" 10 10 2
                       (set_font "bitmap8" (set_pen 0 (clear (set_pen 15 d)))))))) m)
    else Ok m
  else Ok (set_buffer (buffer m +:+ String char EmptyString) m).

Definition receive (input : string) (m : machine) : result machine :=
  for_ (list_ascii_of_string input) on_char m.

(** The module's start-up code. *)
Definition boot (d : Badger2040) : machine :=
  print "Badge ready - listening for images..."
    (show_waiting_screen
       (mkMachine (set_update_speed UPDATE_FAST d) 0 EmptyString [])).

(** *** What the panel should show

    [painted img_bytes px y] holds when the bit of pixel [(px, y)] is
    present in [img_bytes] and clear. *)
Definition row_bytes : nat := length (range3 0 WIDTH 8).

Definition painted (img_bytes : list Z) (px y : nat) : bool :=
  match img_bytes !! (y * row_bytes + px / 8)%nat with
  | Some byte => negb (Z.testbit byte (7 - Z.of_nat (px mod 8)))
  | None => false
  end.

(** The frame buffer that painting [img_bytes] leaves: pen 0 where the bit
    is present and clear, the background pen 15 elsewhere. *)
Definition rendering (img_bytes : list Z) : list Z :=
  (fun i => if painted img_bytes (i mod WIDTH) (i / WIDTH) then 0 else 15)
    <$> seq 0 (WIDTH * HEIGHT).

(** The display after a refresh cycle at speed [s] that shows [fb]. *)
Definition refreshed (d : Badger2040) (s : update_speed) (fb : list Z) : Badger2040 :=
  mkBadger 0 (speed d) (font d) fb fb (refreshes d ++ [s]).

(** The state [display_image] leaves. *)
Definition after_paint (img_bytes : list Z) (m : machine) : machine :=
  if update_count m + 1 >=? FULL_REFRESH_INTERVAL then
    mkMachine
      (set_update_speed UPDATE_FAST
         (refreshed (display m) UPDATE_NORMAL (rendering img_bytes)))
      0 (buffer m) (stdout m)
  else
    mkMachine (refreshed (display m) (speed (display m)) (rendering img_bytes))
      (update_count m + 1) (buffer m) (stdout m).

(** Invariants of the paint loops.  The display the loops work on has pen
    0 and everything but the frame buffer as in [d0]. *)
Definition painting (d0 : Badger2040) (fb : list Z) : Badger2040 :=
  mkBadger 0 (speed d0) (font d0) fb (panel d0) (refreshes d0).

(** Pixel [(px, y')] comes before column [c] of row [y] in paint order. *)
Definition before (y c px y' : nat) : bool :=
  (y' <? y)%nat || ((y' =? y)%nat && (px <? c)%nat).

(** The frame buffer shows [img_bytes] up to column [c] of row [y], and
    background from there on. *)
Definition shows (img_bytes : list Z) (fb : list Z) (y c : nat) : Prop :=
  length fb = (WIDTH * HEIGHT)%nat /\
  forall px y', (px < WIDTH)%nat -> (y' < HEIGHT)%nat ->
    fb !! (y' * WIDTH + px)%nat
    = Some (if before y c px y' && painted img_bytes px y' then 0 else 15).

(** Successive image frames, each painted in turn. *)
Definition paint_all (frames : list (list Z)) (m : machine) : result machine :=
  for_ frames display_image m.

(** The pen a canvas pixel ends up as on the panel: black for 0, the
    background otherwise. *)
Definition pen_of_pixel (p : Z) : Z := if p =? 0 then 0 else 15.

End Panel.

Definition WIDTH : nat := 296.
Definition HEIGHT : nat := 128.
Definition FULL_REFRESH_INTERVAL : Z := 60.

(** A receiver that has painted one all-white image and waits for a line. *)
Definition showing_white : machine :=
  mkMachine
    (mkBadger 0 UPDATE_FAST "bitmap8"
       (replicate (WIDTH * HEIGHT) 15) (replicate (WIDTH * HEIGHT) 15)
       [UPDATE_FAST; UPDATE_FAST])
    1 EmptyString
    ["Badge ready - listening for images..."; "Image displayed"].

End BadgeMain.

(** ** Pillow: 1-bit images and the drawing calls the renderer uses

    A mode ["1"] image stores one byte per pixel, row-major: 0 is black,
    any other value is white.  Drawing is clipped to the image. *)

Module PIL.

Record Image : Type := mkImage {
  im_width : Z;
  im_height : Z;
  im_data : list Z
}.

(** The stored value of an integer ink given as a colour, [fill] or
    [outline]: the integer clipped to a byte. *)
Definition ink (color : Z) : Z := Z.max 0 (Z.min 255 color).

(** [Image.new("1", (w, h), color)] *)
Definition new (w h color : Z) : Image :=
  mkImage w h (replicate (Z.to_nat (w * h)) (ink color)).

(** [img.convert("1")] of an image of that mode. *)
Definition convert_1 (im : Image) : Image := im.

Definition getpixel (im : Image) (x y : Z) : option Z :=
  if (0 <=? x) && (x <? im_width im) && (0 <=? y) && (y <? im_height im)
  then im_data im !! Z.to_nat (y * im_width im + x)
  else None.

(** Set to [f x y old] every pixel [(x, y)] of the image. *)
Definition map_pixels (f : Z -> Z -> Z -> Z) (im : Image) : Image :=
  mkImage (im_width im) (im_height im)
    (imap (fun i old =>
             f (Z.of_nat i mod im_width im) (Z.of_nat i / im_width im) old)
          (im_data im)).

Definition in_box (x0 y0 x1 y1 x y : Z) : bool :=
  (x0 <=? x) && (x <=? x1) && (y0 <=? y) && (y <=? y1).

(** [draw.rectangle([x0, y0, x1, y1], fill=color)]: both corners are part
    of the rectangle. *)
Definition rectangle_fill (x0 y0 x1 y1 color : Z) : Image -> Image :=
  map_pixels (fun x y old => if in_box x0 y0 x1 y1 x y then ink color else old).

(** [draw.rectangle([x0, y0, x1, y1], outline=color, width=k)]: [k] nested
    one-pixel frames, from the box inwards. *)
Definition rectangle_outline (x0 y0 x1 y1 color k : Z) : Image -> Image :=
  map_pixels (fun x y old =>
    if in_box x0 y0 x1 y1 x y
       && ((x <? x0 + k) || (x1 - k <? x) || (y <? y0 + k) || (y1 - k <? y))
    then ink color else old).

(** [img.paste(icon, (x0, y0))] *)
Definition paste (icon : Image) (x0 y0 : Z) : Image -> Image :=
  map_pixels (fun x y old =>
    match getpixel icon (x - x0) (y - y0) with
    | Some v => v
    | None => old
    end).

(** A loaded font, as the coverage of the glyphs of a string relative to
    its anchor. *)
Definition Font : Type := string -> Z -> Z -> bool.

(** [draw.text((x0, y0), s, font=font, fill=color)] *)
Definition text (font : Font) (x0 y0 : Z) (s : string) (color : Z) : Image -> Image :=
  map_pixels (fun x y old => if font s (x - x0) (y - y0) then ink color else old).

End PIL.

(** ** The transmitter, [badge_co2.py] *)

Module BadgeCo2.

Import PyFloat.

Record display_config : Type := mkDisplayConfig {
  width : nat;
  height : nat;
  cols : nat;
  rows : nat;
  icon_size : Z
}.

(** One entry of [GRID_CONFIG]; an absent key is [None]. *)
Record cell_config : Type := mkCell {
  row : Z;
  col : Z;
  sensor : option string;
  icon : option string;
  format : option string;
  suffix : option string;
  thresholds : option (list Q);
  icon_y_offset : option Z
}.

Definition ICONS_DIR : string := "./icons/PNG/for-light-mode/24px/solid".
Definition ICONS_DIR_DARK : string := "./icons/PNG/for-dark-mode/24px/solid".

(** *** [get_warning_level] *)

Definition caught_value_type (e : exn) : bool :=
  match e with
  | ValueError _ | TypeError _ => true
  | _ => false
  end.

Definition get_warning_level (value : string) (thresholds : option (list Q))
    : result Z :=
  match thresholds with
  | None | Some [] => Ok 0
  | Some thresholds =>
      returned ← try_except
        (val ← float_of_str value;
         danger ← getitem thresholds 1;
         if float_ge val danger then Ok (Some 2)
         else
           warning ← getitem thresholds 0;
           if float_ge val warning then Ok (Some 1) else Ok None)
        caught_value_type
        (fun _ => Ok None);
      match returned with
      | Some level => Ok level
      | None => Ok 0
      end
  end.

Section Renderer.

Variable DISPLAY_CONFIG : display_config.

(** [repr] of a float, which only a format kind other than [raw], [int],
    [0f] and [1f] reaches. *)
Variable float_repr : spec_float -> string.

(** The icon files: the 1-bit image that [load_icon] computes from the file
    of a directory at a size and polarity, or a failure to load. *)
Variable icon_file : string -> string -> Z -> bool -> option PIL.Image.

(** *** [format_value] *)

Definition format_value (value fmt suffix : string) : result string :=
  if String.eqb fmt "raw" then Ok (value +:+ suffix)
  else
    try_except
      (val ← float_of_str value;
       if String.eqb fmt "int" then
         i ← int_of_float val; Ok (str_of_int i +:+ suffix)
       else if String.eqb fmt "0f" then Ok (format_fixed 0 val +:+ suffix)
       else if String.eqb fmt "1f" then Ok (format_fixed 1 val +:+ suffix)
       else Ok (float_repr val +:+ suffix))
      caught_value_type
      (fun _ => Ok (value +:+ suffix)).

(** *** [load_icon], with the [_icon_cache] dictionary threaded *)

Definition load_icon (icon_name : string) (size : Z) (invert : bool)
    (cache : gmap (string * Z * bool) PIL.Image)
    : option PIL.Image * gmap (string * Z * bool) PIL.Image :=
  let cache_key := (icon_name, size, invert) in
  match cache !! cache_key with
  | Some result => (Some result, cache)
  | None =>
      let icons_dir := if invert then ICONS_DIR_DARK else ICONS_DIR in
      match icon_file icons_dir icon_name size invert with
      | Some result => (Some result, <[cache_key := result]> cache)
      | None => (None, cache)
      end
  end.

(** *** [draw_cell]

    [draw] and [img] are the same image, so one image is threaded. *)

Definition or_default {A} (o : option A) (d : A) : A :=
  match o with Some a => a | None => d end.

Definition draw_cell (cell : cell_config) (sensor_data : gmap string string)
    (cell_width cell_height : Z) (text_font : PIL.Font) (debug_borders : bool)
    (st : PIL.Image * gmap (string * Z * bool) PIL.Image)
    : result (PIL.Image * gmap (string * Z * bool) PIL.Image) :=
  let '(img, cache) := st in
  let x := col cell * cell_width in
  let y := row cell * cell_height in
  let w := cell_width in
  let h := cell_height in
  let img :=
    if debug_borders
    then PIL.rectangle_outline x y (x + w - 1) (y + h - 1) 0 1 img
    else img in
  match sensor cell with
  | None | Some EmptyString => Ok (img, cache)
  | Some sensor_key =>
      let value := or_default (sensor_data !! sensor_key) "---" in
      warning_level ← get_warning_level value (thresholds cell);
      let invert := warning_level =? 2 in
      let fg_color := if invert then 1 else 0 in
      let img :=
        if invert then PIL.rectangle_fill x y (x + w) (y + h) 0 img else img in
      let img :=
        if warning_level =? 1
        then PIL.rectangle_outline x y (x + w - 1) (y + h - 1) 0 2 img
        else img in
      let suffix := or_default (suffix cell) EmptyString in
      formatted_value ← format_value value (or_default (format cell) "1f") suffix;
      let icon_name := or_default (icon cell) EmptyString in
      let icon_size := icon_size DISPLAY_CONFIG in
      let icon_y_offset := or_default (icon_y_offset cell) 0 in
      let '(img, cache) :=
        if String.eqb icon_name EmptyString then (img, cache)
        else
          match load_icon icon_name icon_size invert cache with
          | (Some icon, cache) =>
              let icon_x := x + 4 in
              let icon_y := y + (h - icon_size) / 2 + icon_y_offset in
              (PIL.paste icon icon_x icon_y img, cache)
          | (None, cache) => (img, cache)
          end in
      let text_x := x + icon_size + 12 in
      let text_y := y in
      Ok (PIL.text text_font text_x text_y formatted_value fg_color img, cache)
  end.

(** *** [generate_display_image] *)

Definition generate_display_image (GRID_CONFIG : list cell_config)
    (DEBUG_BORDERS : bool) (text_font : PIL.Font)
    (sensor_data : gmap string string)
    (cache : gmap (string * Z * bool) PIL.Image)
    : result (PIL.Image * gmap (string * Z * bool) PIL.Image) :=
  let width := Z.of_nat (width DISPLAY_CONFIG) in
  let height := Z.of_nat (height DISPLAY_CONFIG) in
  let cols := Z.of_nat (cols DISPLAY_CONFIG) in
  let rows := Z.of_nat (rows DISPLAY_CONFIG) in
  let img := PIL.new width height 1 in
  let cell_width := width / cols in
  let cell_height := height / rows in
  for_ GRID_CONFIG
    (fun cell => draw_cell cell sensor_data cell_width cell_height text_font
                   DEBUG_BORDERS)
    (img, cache).

(** *** [image_to_badge_bytes]

    The canvas is a mode ["1"] image already, so [convert("1")] copies it;
    [pixels] is its flattened data.  [pack_byte] is the loop over [bit]
    that builds one byte. *)

Definition pack_byte (pixels : list Z) (width x y : nat) : result Z :=
  for_ (range 8) (fun bit byte =>
    let px := (x + bit)%nat in
    if (px <? width)%nat then
      p ← getitem pixels (y * width + px)%nat;
      if p =? 0 then Ok byte
      else Ok (Z.lor byte (Z.shiftl 1 (7 - Z.of_nat bit)))
    else Ok byte) 0.

Definition image_to_badge_bytes (img : PIL.Image) : result (list Z) :=
  let img := PIL.convert_1 img in
  let pixels := PIL.im_data img in
  let width := width DISPLAY_CONFIG in
  let height := height DISPLAY_CONFIG in
  for_ (range height) (fun y =>
    for_ (range3 0 width 8) (fun x byte_data =>
      byte ← pack_byte pixels width x y;
      Ok (byte_data ++ [byte]))) [].

(** *** [send_image_to_badge]; the port is what has been written to it *)

Record Serial : Type := mkSerial { written : string }.

Definition write (data : string) (ser : Serial) : Serial :=
  mkSerial (written ser +:+ data).

Definition flush (ser : Serial) : Serial := ser.

Definition send_image_to_badge (ser : Serial) (img : PIL.Image) : result Serial :=
  img_bytes ← image_to_badge_bytes img;
  let encoded := Base64.b64encode img_bytes in
  let ser := write "IMG:" ser in
  let ser := write encoded ser in
  let ser := write (String BadgeMain.newline EmptyString) ser in
  Ok (flush ser).

(** *** The wire format of a canvas

    [byte] packs columns [8 * g .. 8 * g + 7] of row [y]: it is a byte, and
    bit [7 - b] is set exactly when column [8 * g + b] is inside the canvas
    and its pixel is not 0. *)
Definition packs (pixels : list Z) (w y g : nat) (byte : Z) : Prop :=
  0 <= byte < 256 /\
  forall b, (b < 8)%nat ->
    Z.testbit byte (7 - Z.of_nat b)
    = (8 * g + b <? w)%nat
      && match pixels !! (y * w + (8 * g + b))%nat with
         | Some p => negb (p =? 0)
         | None => false
         end.

(** Every byte of [byte_data], [n] of them, packs its group; a row takes
    [(width + 7) / 8] bytes. *)
Definition row_groups : nat := ((width DISPLAY_CONFIG + 7) / 8)%nat.

Definition packed_upto (pixels byte_data : list Z) (n : nat) : Prop :=
  length byte_data = n /\
  forall y g byte, (g < row_groups)%nat ->
    byte_data !! (y * row_groups + g)%nat = Some byte ->
    packs pixels (width DISPLAY_CONFIG) y g byte.

(** A canvas of the configured size. *)
Definition canvas (img : PIL.Image) : Prop :=
  PIL.im_width img = Z.of_nat (width DISPLAY_CONFIG)
  /\ PIL.im_height img = Z.of_nat (height DISPLAY_CONFIG)
  /\ length (PIL.im_data img)
     = (width DISPLAY_CONFIG * height DISPLAY_CONFIG)%nat.

(** The image frame of the wire protocol: the tag, the base64 text of the
    packed bitmap, one newline. *)
Definition image_frame (img_bytes : list Z) : string :=
  "IMG:" +:+ Base64.b64encode img_bytes +:+ String BadgeMain.newline EmptyString.

End Renderer.

(** The configuration of the repository. *)
Definition badger_config : display_config := mkDisplayConfig 296 128 2 4 24.

Definition GRID_CONFIG : list cell_config :=
  [ mkCell 0 0 (Some "co2") (Some "seedlings.png") (Some "int") None
           (Some [1000 # 1; 2000 # 1]) None;
    mkCell 0 1 (Some "co") (Some "fire.png") (Some "1f") None
           (Some [10 # 1; 35 # 1]) None;
    mkCell 1 0 (Some "pm25") (Some "sparkles.png") (Some "1f") None
           (Some [12 # 1; 35 # 1]) None;
    mkCell 1 1 (Some "humidity") (Some "cloud-download.png") (Some "0f")
           (Some "%") None None;
    mkCell 2 0 (Some "outside_temp") (Some "sun.png") (Some "1f")
           (Some "°C") None None;
    mkCell 2 1 (Some "temperature") (Some "home.png") (Some "1f")
           (Some "°C") None None;
    mkCell 3 0 (Some "time") (Some "clock.png") (Some "raw") None None None;
    mkCell 3 1 (Some "date") (Some "calender.png") (Some "raw") None None None ].

(** A font whose glyphs are blank, and icon directories without files. *)
Definition blank_font : PIL.Font := fun _ _ _ => false.

Definition no_icons : string -> string -> Z -> bool -> option PIL.Image :=
  fun _ _ _ _ => None.

(** The first cell of the grid drawn on a fresh canvas for a CO2 reading of
    2500, which is in the DANGER tier. *)
Definition danger_cell_run (float_repr : spec_float -> string)
    : result (PIL.Image * gmap (string * Z * bool) PIL.Image) :=
  draw_cell badger_config float_repr no_icons
    (mkCell 0 0 (Some "co2") (Some "seedlings.png") (Some "int") None
            (Some [1000 # 1; 2000 # 1]) None)
    {[ "co2" := "2500" ]} 148 32 blank_font false
    (PIL.new 296 128 1, ∅).

(** Pixel [(x, y)] of the image a run of [draw_cell] returns. *)
Definition drawn_pixel (run : result (PIL.Image * gmap (string * Z * bool) PIL.Image))
    (x y : Z) : option Z :=
  match run with
  | Ok (img, _) => PIL.getpixel img x y
  | Raise _ => None
  end.

End BadgeCo2.

(** ** The two programs on one link

    The text of several frames, the receiver painting a list of frames, the
    legacy screen, the two statements of the transmitter's loop that render
    and send, and the cells of a grid that make the renderer fail. *)

Module Link.

Import BadgeMain BadgeCo2.

(** The frames of several byte sequences, one after the other. *)
Fixpoint frames_text (frames : list (list Z)) : string :=
  match frames with
  | [] => EmptyString
  | img_bytes :: rest => image_frame img_bytes +:+ frames_text rest
  end.

(** An [IndexError], whatever its message. *)
Definition is_index_error (e : exn) : Prop := exists msg, e = IndexError msg.

(** Two images of the same dimensions and number of stored pixels. *)
Definition same_size (a b : PIL.Image) : Prop :=
  PIL.im_width a = PIL.im_width b
  /\ PIL.im_height a = PIL.im_height b
  /\ length (PIL.im_data a) = length (PIL.im_data b).

(** The mode ["1"] pixel that shows as a pen of the panel: black for pen 0,
    white for the background. *)
Definition pixel_of_pen (p : Z) : Z := if p =? 0 then 0 else 255.

Section Receiver.

Variables WIDTH HEIGHT : nat.
Variable FULL_REFRESH_INTERVAL : Z.
Variable glyphs : string -> string -> nat -> nat -> nat -> list (nat * nat).

(** What the [IMG:] branch does with decoded bytes, frame after frame. *)
Definition paint_logged (frames : list (list Z)) (m : machine) : result machine :=
  for_ frames
    (fun img_bytes m =>
       m' ← display_image WIDTH HEIGHT FULL_REFRESH_INTERVAL img_bytes m;
       Ok (print "Image displayed" m'))
    m.

(** The drawing calls of the [CO2:] branch. *)
Definition co2_screen (co2_level : string) (d : Badger2040) : Badger2040 :=
  update
    (text WIDTH HEIGHT glyphs "ppm" 30 90 2
       (text WIDTH HEIGHT glyphs co2_level 30 50 4
          (text WIDTH HEIGHT glyphs "Room CO2 Level" 10 10 2
             (set_font "bitmap8"
                (set_pen 0 (clear WIDTH HEIGHT (set_pen 15 d))))))).

End Receiver.

Section Transmitter.

Variable DISPLAY_CONFIG : display_config.
Variable float_repr : spec_float -> string.
Variable icon_file : string -> string -> Z -> bool -> option PIL.Image.



(** Canvases sent one after the other. *)
Definition send_all (imgs : list PIL.Image) (ser : Serial) : result Serial :=
  for_ imgs (fun img ser => send_image_to_badge DISPLAY_CONFIG ser img) ser.

(** What the packer returns for a canvas: its packed bytes. *)
Definition frame_of (img : PIL.Image) (img_bytes : list Z) : Prop :=
  packed_upto DISPLAY_CONFIG (PIL.im_data img) img_bytes
    (height DISPLAY_CONFIG * row_groups DISPLAY_CONFIG)
  /\ Forall (fun b => 0 <= b < 256) img_bytes.

End Transmitter.

End Link.

(** * Properties *)

(** ** Loops *)

Section Loops.

Context {A S : Type}.

(** Hoare rule of [for]: an invariant indexed by the number of iterations
    done, established by every iteration, holds when the loop ends, and the
    loop raises nothing. *)
Lemma for_invariant (P : nat -> S -> Prop) (xs : list A)
    (body : A -> S -> result S) (s0 : S) :
  P 0%nat s0 ->
  (forall i x s, xs !! i = Some x -> P i s ->
     exists s', body x s = Ok s' /\ P (Datatypes.S i) s') ->
  exists s', for_ xs body s0 = Ok s' /\ P (length xs) s'.
Proof.
  revert P s0. induction xs as [|x xs IH]; intros P s0 H0 Hstep.
  - exists s0. split; [reflexivity | exact H0].
  - destruct (Hstep 0%nat x s0 eq_refl H0) as (s1 & Hbody & H1).
    destruct (IH (fun i => P (Datatypes.S i)) s1 H1) as (s' & Hrun & Hend).
    + intros i y s Hy Hi. apply (Hstep (Datatypes.S i) y s Hy Hi).
    + exists s'. split; [|exact Hend].
      simpl. rewrite Hbody. exact Hrun.
Qed.

End Loops.

(** Apply the loop rule with invariant [P] to the loop of the goal. *)
Ltac loop_invariant P :=
  match goal with
  | |- context [for_ ?xs ?body ?s0] =>
      let Hloop := fresh "Hloop" in
      pose proof (for_invariant P xs body s0) as Hloop
  end.

Lemma range_lookup (n i x : nat) :
  range n !! i = Some x <-> x = i /\ (i < n)%nat.
Proof. unfold range. rewrite lookup_seq. simpl. tauto. Qed.

Lemma range_length (n : nat) : length (range n) = n.
Proof. apply length_seq. Qed.

Lemma range3_length (stop : nat) : length (range3 0 stop 8) = ((stop + 7) / 8)%nat.
Proof.
  unfold range3. rewrite length_fmap, length_seq.
  f_equal. lia.
Qed.

Lemma range3_lookup (stop i x : nat) :
  range3 0 stop 8 !! i = Some x <-> x = (8 * i)%nat /\ (i < (stop + 7) / 8)%nat.
Proof.
  unfold range3. rewrite list_lookup_fmap, fmap_Some.
  replace (stop - 0 + (8 - 1))%nat with (stop + 7)%nat by lia.
  split.
  - intros (j & Hj & ->). apply lookup_seq in Hj. lia.
  - intros [-> Hi]. exists i. split; [|lia].
    apply lookup_seq. lia.
Qed.

(** ** The paint loops of the receiver *)

(** A clear bit, as the receiver tests it. *)
Lemma land_bit_zero (byte : Z) (k : Z) :
  0 <= k -> (Z.land byte (Z.shiftl 1 k) =? 0) = negb (Z.testbit byte k).
Proof.
  intros Hk. rewrite Z.shiftl_1_l.
  destruct (Z.testbit byte k) eqn:Hb; simpl.
  - apply Z.eqb_neq. intros H0.
    assert (Hf : Z.testbit (Z.land byte (2 ^ k)) k = false)
      by (rewrite H0; apply Z.bits_0).
    rewrite Z.land_spec, Hb, Z.pow2_bits_true in Hf by lia. discriminate.
  - apply Z.eqb_eq. apply Z.bits_inj'. intros n Hn.
    rewrite Z.land_spec, Z.bits_0, Z.pow2_bits_eqb by lia.
    destruct (Z.eqb_spec k n) as [->|]; [rewrite Hb; reflexivity|apply andb_false_r].
Qed.

(** Row-major pixel indices are injective below the width. *)
Lemma pixel_index_inj (W x y x' y' : nat) :
  (x < W)%nat -> (x' < W)%nat ->
  (y * W + x = y' * W + x')%nat -> x = x' /\ y = y'.
Proof.
  intros Hx Hx' H.
  destruct (Nat.lt_trichotomy y y') as [Hlt|[->|Hgt]].
  - pose proof (Nat.mul_le_mono_r (S y) y' W Hlt). lia.
  - lia.
  - pose proof (Nat.mul_le_mono_r (S y') y W Hgt). lia.
Qed.

Lemma pixel_index_lt (W H x y : nat) :
  (x < W)%nat -> (y < H)%nat -> (y * W + x < W * H)%nat.
Proof.
  intros Hx Hy. pose proof (Nat.mul_le_mono_r (S y) H W Hy). lia.
Qed.

Section PaintLoops.

Import BadgeMain.

Variables WIDTH HEIGHT : nat.

Abbreviation row_bytes := (row_bytes WIDTH).
Abbreviation painted := (painted WIDTH).

Abbreviation shows := (shows WIDTH HEIGHT).

Lemma shows_ext bs fb y c y2 c2 :
  shows bs fb y c ->
  (forall px y', (px < WIDTH)%nat -> (y' < HEIGHT)%nat ->
     before y c px y' = before y2 c2 px y') ->
  shows bs fb y2 c2.
Proof.
  intros [Hlen Hfb] Heq. split; [exact Hlen|].
  intros px y' Hpx Hy'. rewrite <- Heq by assumption. apply Hfb; assumption.
Qed.

(** One more column that is not painted. *)
Lemma shows_skip bs fb y c :
  shows bs fb y c ->
  ((c < WIDTH)%nat -> (y < HEIGHT)%nat -> painted bs c y = false) ->
  shows bs fb y (S c).
Proof.
  intros [Hlen Hfb] Hc. split; [exact Hlen|].
  intros px y' Hpx Hy'. rewrite Hfb by assumption. f_equal.
  unfold before.
  destruct (Nat.eqb_spec y' y) as [->|Hne];
    [|rewrite !andb_false_l; reflexivity].
  destruct (Nat.eq_dec px c) as [->|Hpc].
  - rewrite (Hc Hpx Hy'), !andb_false_r. reflexivity.
  - replace (px <? S c)%nat with (px <? c)%nat; [reflexivity|].
    destruct (Nat.ltb_spec px c), (Nat.ltb_spec px (S c)); (reflexivity || lia).
Qed.

(** One more column that is painted. *)
Lemma shows_paint bs fb y c :
  shows bs fb y c -> (c < WIDTH)%nat -> (y < HEIGHT)%nat ->
  painted bs c y = true ->
  shows bs (<[(y * WIDTH + c)%nat := 0]> fb) y (S c).
Proof.
  intros [Hlen Hfb] Hcw Hyh Hc. split; [rewrite length_insert; exact Hlen|].
  intros px y' Hpx Hy'.
  destruct (decide ((y * WIDTH + c)%nat = (y' * WIDTH + px)%nat)) as [Heq|Hne].
  - apply pixel_index_inj in Heq as [-> ->]; [|assumption..].
    rewrite list_lookup_insert_eq
      by (rewrite Hlen; apply pixel_index_lt; assumption).
    unfold before. rewrite Nat.eqb_refl, Hc.
    replace (px <? S px)%nat with true by (symmetry; apply Nat.ltb_lt; lia).
    rewrite orb_true_r. reflexivity.
  - rewrite list_lookup_insert_ne by exact Hne.
    rewrite Hfb by assumption. f_equal.
    unfold before.
    destruct (Nat.eqb_spec y' y) as [->|Hny];
      [|rewrite !andb_false_l; reflexivity].
    assert (px <> c) by (intros ->; apply Hne; reflexivity).
    replace (px <? S c)%nat with (px <? c)%nat; [reflexivity|].
    destruct (Nat.ltb_spec px c), (Nat.ltb_spec px (S c)); (reflexivity || lia).
Qed.

Lemma pixel_painting d0 fb px y :
  (px < WIDTH)%nat -> (y < HEIGHT)%nat ->
  pixel WIDTH HEIGHT px y (set_pen 0 (painting d0 fb))
  = painting d0 (<[(y * WIDTH + px)%nat := 0]> fb).
Proof.
  intros Hpx Hy. unfold pixel.
  replace (px <? WIDTH)%nat with true by (symmetry; apply Nat.ltb_lt; lia).
  replace (y <? HEIGHT)%nat with true by (symmetry; apply Nat.ltb_lt; lia).
  reflexivity.
Qed.

(** The loop over the bits of one byte paints its eight columns. *)
Lemma paint_byte_shows bs d0 fb byte x y :
  (y < HEIGHT)%nat ->
  shows bs fb y x ->
  (forall bit, (bit < 8)%nat -> (x + bit < WIDTH)%nat ->
     painted bs (x + bit) y = negb (Z.testbit byte (7 - Z.of_nat bit))) ->
  exists fb',
    paint_byte WIDTH HEIGHT byte x y (painting d0 fb) = Ok (painting d0 fb')
    /\ shows bs fb' y (x + 8).
Proof.
  intros Hy Hfb Hbits. unfold paint_byte.
  loop_invariant (fun k d => exists fb',
       d = painting d0 fb' /\ shows bs fb' y (x + k)).
  destruct Hloop as (d' & Hrun & (fb' & -> & Hend)).
  - exists fb. split; [reflexivity|]. rewrite Nat.add_0_r. exact Hfb.
  - intros k bit d Hk (fb1 & -> & H1).
    apply range_lookup in Hk as [-> Hk]. cbv zeta.
    replace (x + S k)%nat with (S (x + k)) by lia.
    destruct (Nat.ltb_spec (x + k) WIDTH) as [Hlt|Hge].
    + rewrite land_bit_zero by lia. rewrite <- (Hbits k Hk Hlt).
      destruct (painted bs (x + k) y) eqn:Hp.
      * eexists. split; [reflexivity|].
        exists (<[(y * WIDTH + (x + k))%nat := 0]> fb1).
        split; [apply pixel_painting; assumption|].
        apply shows_paint; assumption.
      * eexists. split; [reflexivity|].
        exists fb1. split; [reflexivity|].
        apply shows_skip; [assumption|]. intros _ _. exact Hp.
    + eexists. split; [reflexivity|].
      exists fb1. split; [reflexivity|].
      apply shows_skip; [assumption|]. intros Hlt. lia.
  - rewrite range_length in Hend. exists fb'. split; assumption.
Qed.

Lemma row_bytes_eq : row_bytes = ((WIDTH + 7) / 8)%nat.
Proof. apply range3_length. Qed.

Lemma group_column (g bit : nat) :
  (bit < 8)%nat -> ((8 * g + bit) / 8 = g /\ (8 * g + bit) mod 8 = bit)%nat.
Proof.
  intros Hb. split.
  - symmetry. apply (Nat.div_unique _ 8 g bit); lia.
  - symmetry. apply (Nat.mod_unique _ 8 g bit); lia.
Qed.

(** Columns whose byte is missing stay background. *)
Lemma shows_skip_many bs fb y c n :
  shows bs fb y c ->
  (forall k, (k < n)%nat -> painted bs (c + k) y = false) ->
  shows bs fb y (c + n).
Proof.
  intros Hfb. induction n as [|n IH]; intros Hn.
  - rewrite Nat.add_0_r. exact Hfb.
  - replace (c + S n)%nat with (S (c + n)) by lia.
    apply shows_skip.
    + apply IH. intros k Hk. apply Hn. lia.
    + intros _ _. apply Hn. lia.
Qed.

(** The body of the loop over the groups of a row: [byte_idx] counts the
    groups seen so far, capped at the number of bytes. *)
Lemma paint_group_shows bs d0 fb y g :
  (y < HEIGHT)%nat ->
  shows bs fb y (8 * g) ->
  let byte_idx := Nat.min (y * row_bytes + g) (length bs) in
  exists fb',
    (if (byte_idx <? length bs)%nat then
       byte ← getitem bs byte_idx;
       d' ← paint_byte WIDTH HEIGHT byte (8 * g) y (painting d0 fb);
       Ok (d', S byte_idx)
     else Ok (painting d0 fb, byte_idx))
    = Ok (painting d0 fb', Nat.min (y * row_bytes + S g) (length bs))
    /\ shows bs fb' y (8 * S g).
Proof.
  intros Hy Hfb byte_idx. subst byte_idx.
  replace (8 * S g)%nat with (8 * g + 8)%nat by lia.
  destruct (Nat.ltb_spec (Nat.min (y * row_bytes + g) (length bs)) (length bs))
    as [Hlt|Hge].
  - assert (Hidx : Nat.min (y * row_bytes + g) (length bs)
                   = (y * row_bytes + g)%nat) by lia.
    rewrite Hidx.
    destruct (lookup_lt_is_Some_2 bs (y * row_bytes + g)%nat) as [byte Hbyte];
      [lia|].
    unfold getitem. rewrite Hbyte. cbn [mbind result_bind].
    destruct (paint_byte_shows bs d0 fb byte (8 * g) y Hy Hfb)
      as (fb' & Hrun & Hshows).
    + intros bit Hbit _. unfold BadgeMain.painted.
      destruct (group_column g bit Hbit) as [-> ->].
      rewrite Hbyte. reflexivity.
    + exists fb'. rewrite Hrun. cbn [mbind result_bind].
      split; [|exact Hshows]. do 2 f_equal. lia.
  - exists fb. split; [f_equal; f_equal; lia|].
    apply shows_skip_many; [exact Hfb|].
    intros bit Hbit. unfold BadgeMain.painted.
    destruct (group_column g bit Hbit) as [-> _].
    rewrite (lookup_ge_None_2 bs) by lia. reflexivity.
Qed.

Lemma row_bytes_cover : (WIDTH <= 8 * row_bytes)%nat.
Proof.
  rewrite row_bytes_eq.
  pose proof (Nat.div_mod_eq (WIDTH + 7) 8).
  pose proof (Nat.mod_upper_bound (WIDTH + 7) 8). lia.
Qed.

(** The loop over the groups of row [y]. *)
Lemma paint_row_shows bs d0 fb y :
  (y < HEIGHT)%nat ->
  shows bs fb y 0 ->
  exists fb',
    for_ (range3 0 WIDTH 8) (fun x '(d, byte_idx) =>
      if (byte_idx <? length bs)%nat then
        byte ← getitem bs byte_idx;
        d' ← paint_byte WIDTH HEIGHT byte x y d;
        Ok (d', S byte_idx)
      else Ok (d, byte_idx))
      (painting d0 fb, Nat.min (y * row_bytes) (length bs))
    = Ok (painting d0 fb', Nat.min (S y * row_bytes) (length bs))
    /\ shows bs fb' (S y) 0.
Proof.
  intros Hy Hfb.
  loop_invariant (fun g (s : Badger2040 * nat) => exists fb',
       s = (painting d0 fb', Nat.min (y * row_bytes + g) (length bs))
       /\ shows bs fb' y (8 * g)).
  destruct Hloop as (s' & Hrun & (fb' & -> & Hend)).
  - exists fb. rewrite Nat.add_0_r, Nat.mul_0_r. split; [reflexivity|exact Hfb].
  - intros g x s Hx (fb1 & -> & H1).
    apply range3_lookup in Hx as [-> Hg].
    destruct (paint_group_shows bs d0 fb1 y g Hy H1) as (fb2 & Hbody & H2).
    eexists. split; [exact Hbody|].
    exists fb2. split; [reflexivity|exact H2].
  - exists fb'. split.
    + rewrite Hrun. do 2 f_equal. fold row_bytes. lia.
    + fold row_bytes in Hend. apply (shows_ext _ _ _ _ _ _ Hend).
      intros px y' Hpx Hy'. unfold before.
      pose proof row_bytes_cover.
      destruct (Nat.ltb_spec y' y), (Nat.eqb_spec y' y),
        (Nat.ltb_spec px (8 * row_bytes)), (Nat.ltb_spec y' (S y)),
        (Nat.eqb_spec y' (S y)), (Nat.ltb_spec px 0);
        simpl; (reflexivity || lia).
Qed.

(** The three loops together leave the rendering of the bytes. *)
Lemma paint_rows_shows bs d0 :
  exists fb n,
    paint_rows WIDTH HEIGHT bs (painting d0 (replicate (WIDTH * HEIGHT) 15), 0%nat)
    = Ok (painting d0 fb, n)
    /\ shows bs fb HEIGHT 0.
Proof.
  unfold paint_rows.
  loop_invariant (fun y (s : Badger2040 * nat) => exists fb',
       s = (painting d0 fb', Nat.min (y * row_bytes) (length bs))
       /\ shows bs fb' y 0).
  destruct Hloop as (s' & Hrun & (fb' & -> & Hend)).
  - exists (replicate (WIDTH * HEIGHT) 15). split; [reflexivity|].
    split; [apply length_replicate|].
    intros px y' Hpx Hy'. unfold before.
    rewrite lookup_replicate_2 by (apply pixel_index_lt; assumption).
    rewrite andb_false_r. reflexivity.
  - intros y y0 s Hy0 (fb1 & -> & H1).
    apply range_lookup in Hy0 as [-> Hy].
    destruct (paint_row_shows bs d0 fb1 y Hy H1) as (fb2 & Hbody & H2).
    eexists. split; [exact Hbody|].
    exists fb2. split; [reflexivity|exact H2].
  - rewrite range_length in Hend. eauto.
Qed.

(** A frame buffer that shows all rows is the rendering. *)
Lemma shows_all_rendering bs fb :
  shows bs fb HEIGHT 0 -> fb = rendering WIDTH HEIGHT bs.
Proof.
  intros [Hlen Hfb]. apply list_eq. intros i. unfold rendering.
  rewrite list_lookup_fmap.
  destruct (Nat.lt_ge_cases i (WIDTH * HEIGHT)) as [Hi|Hi].
  - assert (HW : (0 < WIDTH)%nat) by (destruct WIDTH; lia).
    rewrite lookup_seq_lt by exact Hi. simpl.
    pose proof (Nat.div_mod_eq i WIDTH) as Hdm.
    pose proof (Nat.mod_upper_bound i WIDTH ltac:(lia)) as Hm.
    assert (Hd : (i / WIDTH < HEIGHT)%nat)
      by (apply Nat.Div0.div_lt_upper_bound; lia).
    replace i with (i / WIDTH * WIDTH + i mod WIDTH)%nat at 1 by lia.
    rewrite Hfb by assumption. unfold before.
    replace (i / WIDTH <? HEIGHT)%nat with true
      by (symmetry; apply Nat.ltb_lt; exact Hd).
    reflexivity.
  - rewrite (lookup_ge_None_2 fb) by lia.
    rewrite (lookup_ge_None_2 (seq _ _)) by (rewrite length_seq; lia).
    reflexivity.
Qed.

End PaintLoops.

Section DisplayImage.

Import BadgeMain.

Variables WIDTH HEIGHT : nat.
Variable FULL_REFRESH_INTERVAL : Z.

(** [display_image] raises nothing and leaves [after_paint]. *)
Lemma display_image_eq (img_bytes : list Z) (m : machine) :
  display_image WIDTH HEIGHT FULL_REFRESH_INTERVAL img_bytes m
  = Ok (after_paint WIDTH HEIGHT FULL_REFRESH_INTERVAL img_bytes m).
Proof.
  unfold display_image, after_paint.
  destruct (paint_rows_shows WIDTH HEIGHT img_bytes (display m))
    as (fb & n & Hrun & Hshows).
  apply shows_all_rendering in Hshows. subst fb.
  change (set_pen 0 (clear WIDTH HEIGHT (set_pen 15 (display m))))
    with (painting (display m) (replicate (WIDTH * HEIGHT) 15)).
  rewrite Hrun. cbn [mbind result_bind].
  destruct (update_count m + 1 >=? FULL_REFRESH_INTERVAL); reflexivity.
Qed.

End DisplayImage.

(** ** The bitmap packer *)

Lemma bits_above_bound (a : Z) (n : Z) :
  0 <= n -> 0 <= a -> (forall k, n <= k -> Z.testbit a k = false) -> a < 2 ^ n.
Proof.
  intros Hn Ha Hbits.
  destruct (Z.eq_dec a 0) as [->|Hne]; [apply Z.pow_pos_nonneg; lia|].
  apply Z.log2_lt_pow2; [lia|].
  destruct (Z.lt_ge_cases (Z.log2 a) n) as [Hlt|Hge]; [exact Hlt|].
  specialize (Hbits (Z.log2 a) Hge).
  rewrite Z.bit_log2 in Hbits by lia. discriminate.
Qed.

Lemma bit_of_shift (k n : Z) :
  0 <= k -> 0 <= n -> Z.testbit (Z.shiftl 1 k) n = (k =? n).
Proof.
  intros Hk Hn. rewrite Z.shiftl_1_l. apply Z.pow2_bits_eqb. exact Hk.
Qed.

Section Packer.

Import BadgeCo2.

Variable DISPLAY_CONFIG : display_config.

Abbreviation w := (width DISPLAY_CONFIG).
Abbreviation h := (height DISPLAY_CONFIG).

(** The loop over the bits of one byte. *)
Lemma pack_byte_packs (pixels : list Z) (y g : nat) :
  (y < h)%nat -> length pixels = (w * h)%nat ->
  exists byte, pack_byte pixels w (8 * g) y = Ok byte /\ packs pixels w y g byte.
Proof.
  intros Hy Hlen. unfold pack_byte.
  loop_invariant (fun k byte =>
    0 <= byte /\
    forall n, 0 <= n ->
      Z.testbit byte n
      = (7 - Z.of_nat k <? n) && (n <=? 7)
        && (8 * g + Z.to_nat (7 - n) <? w)%nat
        && match pixels !! (y * w + (8 * g + Z.to_nat (7 - n)))%nat with
           | Some p => negb (p =? 0)
           | None => false
           end).
  destruct Hloop as (byte & Hrun & Hpos & Hbits).
  - split; [lia|]. intros n Hn. rewrite Z.bits_0.
    destruct (Z.ltb_spec (7 - Z.of_nat 0) n), (Z.leb_spec n 7);
      (reflexivity || lia).
  - intros k bit byte Hk [Hpos Hbits].
    apply range_lookup in Hk as [-> Hk]. cbv zeta.
    assert (Hsame : forall n, n <> 7 - Z.of_nat k ->
              (7 - Z.of_nat (S k) <? n) = (7 - Z.of_nat k <? n)).
    { intros n Hn.
      destruct (Z.ltb_spec (7 - Z.of_nat (S k)) n), (Z.ltb_spec (7 - Z.of_nat k) n);
        (reflexivity || lia). }
    destruct (Nat.ltb_spec (8 * g + k) w) as [Hlt|Hge].
    + destruct (lookup_lt_is_Some_2 pixels (y * w + (8 * g + k))%nat) as [p Hp].
      { rewrite Hlen. apply pixel_index_lt; assumption. }
      unfold getitem. rewrite Hp. cbn [mbind result_bind].
      destruct (Z.eqb_spec p 0) as [Hp0|Hp0].
      * eexists. split; [reflexivity|]. split; [exact Hpos|].
        intros n Hn. rewrite Hbits by exact Hn.
        destruct (Z.eq_dec n (7 - Z.of_nat k)) as [->|Hne];
          [|rewrite Hsame by exact Hne; reflexivity].
        replace (Z.to_nat (7 - (7 - Z.of_nat k))) with k by lia.
        rewrite Hp, Hp0. rewrite !andb_false_r. reflexivity.
      * eexists. split; [reflexivity|].
        split; [apply Z.lor_nonneg; split; [exact Hpos|apply Z.shiftl_nonneg; lia]|].
        intros n Hn. rewrite Z.lor_spec, Hbits, bit_of_shift by lia.
        destruct (Z.eqb_spec (7 - Z.of_nat k) n) as [<-|Hne].
        -- replace (Z.to_nat (7 - (7 - Z.of_nat k))) with k by lia.
           rewrite Hp. rewrite orb_true_r.
           replace (7 - Z.of_nat (S k) <? 7 - Z.of_nat k) with true
             by (symmetry; apply Z.ltb_lt; lia).
           replace (7 - Z.of_nat k <=? 7) with true
             by (symmetry; apply Z.leb_le; lia).
           replace (8 * g + k <? w)%nat with true
             by (symmetry; apply Nat.ltb_lt; lia).
           destruct (Z.eqb_spec p 0); [contradiction|reflexivity].
        -- rewrite orb_false_r, Hsame by congruence. reflexivity.
    + eexists. split; [reflexivity|]. split; [exact Hpos|].
      intros n Hn. rewrite Hbits by exact Hn.
      destruct (Z.eq_dec n (7 - Z.of_nat k)) as [->|Hne];
        [|rewrite Hsame by exact Hne; reflexivity].
      replace (Z.to_nat (7 - (7 - Z.of_nat k))) with k by lia.
      replace (8 * g + k <? w)%nat with false
        by (symmetry; apply Nat.ltb_ge; lia).
      rewrite !andb_false_r, !andb_false_l. reflexivity.
  - rewrite range_length in Hbits. exists byte. split; [exact Hrun|].
    split.
    + split; [exact Hpos|]. change 256 with (2 ^ 8).
      apply bits_above_bound; [lia|exact Hpos|].
      intros k Hk. rewrite Hbits by lia.
      replace (k <=? 7) with false by (symmetry; apply Z.leb_gt; lia).
      rewrite andb_false_r. reflexivity.
    + intros b Hb. rewrite Hbits by lia.
      replace (Z.to_nat (7 - (7 - Z.of_nat b))) with b by lia.
      replace (7 - Z.of_nat 8 <? 7 - Z.of_nat b) with true
        by (symmetry; apply Z.ltb_lt; lia).
      replace (7 - Z.of_nat b <=? 7) with true
        by (symmetry; apply Z.leb_le; lia).
      reflexivity.
Qed.

Abbreviation groups := (row_groups DISPLAY_CONFIG).
Abbreviation packed_upto := (packed_upto DISPLAY_CONFIG).

Lemma packed_upto_snoc pixels byte_data y g byte :
  (g < groups)%nat ->
  packed_upto pixels byte_data (y * groups + g) ->
  packs pixels w y g byte ->
  packed_upto pixels (byte_data ++ [byte]) (y * groups + S g).
Proof.
  intros Hg [Hlen Hall] Hbyte. split; [rewrite length_app, Hlen; simpl; lia|].
  intros y' g' byte' Hg' Hlook.
  apply lookup_app_Some in Hlook as [Hold|[Hge Hnew]].
  - apply Hall; assumption.
  - rewrite Hlen in Hge, Hnew.
    apply list_lookup_singleton_Some in Hnew as [Hidx ->].
    destruct (pixel_index_inj groups g y g' y' Hg Hg') as [-> ->]; [lia|].
    exact Hbyte.
Qed.

(** The loops of [image_to_badge_bytes]. *)
Lemma image_to_badge_bytes_packed (img : PIL.Image) :
  length (PIL.im_data img) = (w * h)%nat ->
  exists byte_data,
    image_to_badge_bytes DISPLAY_CONFIG img = Ok byte_data
    /\ packed_upto (PIL.im_data img) byte_data (h * groups).
Proof.
  intros Hlen. unfold image_to_badge_bytes, PIL.convert_1. cbv zeta.
  loop_invariant (fun y byte_data =>
    packed_upto (PIL.im_data img) byte_data (y * groups)).
  destruct Hloop as (byte_data & Hrun & Hend).
  - split; [reflexivity|]. intros y g byte _ Hlook.
    rewrite lookup_nil in Hlook. discriminate.
  - intros y y0 byte_data Hy0 Hinv.
    apply range_lookup in Hy0 as [-> Hy].
    loop_invariant (fun g byte_data =>
      packed_upto (PIL.im_data img) byte_data (y * groups + g)).
    destruct Hloop as (byte_data' & Hrun & Hend).
    + rewrite Nat.add_0_r. exact Hinv.
    + intros g x bd Hx Hbd.
      apply range3_lookup in Hx as [-> Hg].
      destruct (pack_byte_packs (PIL.im_data img) y g Hy Hlen)
        as (byte & Hpack & Hbyte).
      rewrite Hpack. cbn [mbind result_bind].
      eexists. split; [reflexivity|].
      apply packed_upto_snoc; assumption.
    + rewrite range3_length in Hend. fold groups in Hend. exists byte_data'.
      split; [exact Hrun|].
      replace (S y * groups)%nat with (y * groups + groups)%nat by lia.
      exact Hend.
  - rewrite range_length in Hend. exists byte_data. split; [exact Hrun|].
    exact Hend.
Qed.

End Packer.

(** ** Packer and paint routine together *)

Section RoundTrip.

Import BadgeCo2 BadgeMain.

Variable DISPLAY_CONFIG : display_config.
Variable FULL_REFRESH_INTERVAL : Z.

Abbreviation w := (width DISPLAY_CONFIG).
Abbreviation h := (height DISPLAY_CONFIG).

Lemma row_bytes_groups : row_bytes w = row_groups DISPLAY_CONFIG.
Proof. apply range3_length. Qed.

(** What the receiver renders from packed bytes is the canvas. *)
Lemma rendering_packed (pixels byte_data : list Z) :
  length pixels = (w * h)%nat ->
  packed_upto DISPLAY_CONFIG pixels byte_data (h * row_groups DISPLAY_CONFIG) ->
  rendering w h byte_data = pen_of_pixel <$> pixels.
Proof.
  intros Hlen [Hbytes Hpacks]. apply list_eq. intros i.
  unfold rendering. rewrite !list_lookup_fmap.
  destruct (Nat.lt_ge_cases i (w * h)) as [Hi|Hi].
  - assert (HW : (0 < w)%nat) by (destruct w; lia).
    rewrite lookup_seq_lt, Nat.add_0_l by exact Hi.
    cbn [fmap option_fmap option_map].
    pose proof (Nat.div_mod_eq i w) as Hdm.
    pose proof (Nat.mod_upper_bound i w ltac:(lia)) as Hm.
    assert (Hd : (i / w < h)%nat) by (apply Nat.Div0.div_lt_upper_bound; lia).
    set (px := (i mod w)%nat) in *. set (y := (i / w)%nat) in *.
    pose proof (Nat.div_mod_eq px 8) as Hpx.
    pose proof (Nat.mod_upper_bound px 8 ltac:(lia)) as Hbit.
    assert (Hg : (px / 8 < row_groups DISPLAY_CONFIG)%nat).
    { unfold row_groups. apply Nat.Div0.div_lt_upper_bound.
      pose proof (Nat.div_mod_eq (w + 7) 8).
      pose proof (Nat.mod_upper_bound (w + 7) 8). lia. }
    destruct (lookup_lt_is_Some_2 byte_data
                (y * row_groups DISPLAY_CONFIG + px / 8)%nat) as [byte Hbyte].
    { rewrite Hbytes, (Nat.mul_comm h). apply pixel_index_lt; assumption. }
    destruct (Hpacks y (px / 8)%nat byte Hg Hbyte) as [_ Hbits].
    unfold painted. rewrite row_bytes_groups, Hbyte.
    rewrite (Hbits (px mod 8)%nat Hbit).
    replace (8 * (px / 8) + px mod 8)%nat with px by lia.
    replace (y * w + px)%nat with i by lia.
    replace (px <? w)%nat with true by (symmetry; apply Nat.ltb_lt; exact Hm).
    destruct (lookup_lt_is_Some_2 pixels i) as [p Hp]; [lia|].
    rewrite Hp. cbn [fmap option_fmap option_map andb]. unfold pen_of_pixel.
    destruct (p =? 0); reflexivity.
  - rewrite (lookup_ge_None_2 (seq _ _)) by (rewrite length_seq; lia).
    rewrite (lookup_ge_None_2 pixels) by lia. reflexivity.
Qed.

End RoundTrip.

Section PackAndPaint.

Import BadgeCo2 BadgeMain.

Lemma for_app {A S} (xs ys : list A) (body : A -> S -> result S) (s : S) :
  for_ (xs ++ ys) body s = (s' ← for_ xs body s; for_ ys body s').
Proof.
  revert s. induction xs as [|x xs IH]; intros s; [reflexivity|].
  simpl. destruct (body x s) as [s1|e]; [apply IH|reflexivity].
Qed.

(** C2: for every canvas of the configured width [w] and height [h], the
    packer returns [h * ceil(w / 8)] bytes, row-major; in the byte of group
    [g] of row [y], bit [7 - b] stands for column [8 * g + b] (bit 7 the
    leftmost), and the bits of columns beyond the width are 0. *)
Theorem image_to_badge_bytes_layout (cfg : display_config) (img : PIL.Image) :
  canvas cfg img ->
  exists byte_data,
    image_to_badge_bytes cfg img = Ok byte_data
    /\ length byte_data = (height cfg * ((width cfg + 7) / 8))%nat
    /\ forall y g, (y < height cfg)%nat -> (g < (width cfg + 7) / 8)%nat ->
         exists byte,
           byte_data !! (y * ((width cfg + 7) / 8) + g)%nat = Some byte
           /\ 0 <= byte < 256
           /\ forall b, (b < 8)%nat ->
                Z.testbit byte (7 - Z.of_nat b)
                = (8 * g + b <? width cfg)%nat
                  && match PIL.im_data img !! (y * width cfg + (8 * g + b))%nat with
                     | Some p => negb (p =? 0)
                     | None => false
                     end.
Proof.
  intros (_ & _ & Hlen).
  destruct (image_to_badge_bytes_packed cfg img Hlen)
    as (byte_data & Hrun & Hbytes & Hpacks).
  exists byte_data. split; [exact Hrun|]. split; [exact Hbytes|].
  intros y g Hy Hg.
  destruct (lookup_lt_is_Some_2 byte_data (y * ((width cfg + 7) / 8) + g)%nat)
    as [byte Hbyte].
  { rewrite Hbytes, (Nat.mul_comm (height cfg)).
    apply pixel_index_lt; assumption. }
  exists byte. split; [exact Hbyte|]. exact (Hpacks y g byte Hg Hbyte).
Qed.

Lemma image_to_badge_bytes_layout_witness :
  exists byte_data,
    image_to_badge_bytes badger_config (PIL.new 296 128 1) = Ok byte_data
    /\ length byte_data = (128 * ((296 + 7) / 8))%nat
    /\ forall y g, (y < 128)%nat -> (g < (296 + 7) / 8)%nat ->
         exists byte,
           byte_data !! (y * ((296 + 7) / 8) + g)%nat = Some byte
           /\ 0 <= byte < 256
           /\ forall b, (b < 8)%nat ->
                Z.testbit byte (7 - Z.of_nat b)
                = (8 * g + b <? 296)%nat
                  && match PIL.im_data (PIL.new 296 128 1) !! (y * 296 + (8 * g + b))%nat with
                     | Some p => negb (p =? 0)
                     | None => false
                     end.
Proof.
  apply (image_to_badge_bytes_layout badger_config (PIL.new 296 128 1)).
  repeat split; vm_compute; reflexivity.
Defined.

(** C1: for every canvas of the panel's size, 296 by 128, painting the
    packer's output reproduces the canvas: the panel holds the black pen 0
    exactly where the canvas pixel is 0, and the background elsewhere. *)
Theorem unpack_pack_roundtrip (img : PIL.Image) (m : machine) :
  canvas badger_config img ->
  exists img_bytes m',
    image_to_badge_bytes badger_config img = Ok img_bytes
    /\ display_image WIDTH HEIGHT FULL_REFRESH_INTERVAL img_bytes m = Ok m'
    /\ panel (display m') = pen_of_pixel <$> PIL.im_data img
    /\ forall x y, (x < WIDTH)%nat -> (y < HEIGHT)%nat ->
         exists p,
           PIL.getpixel img (Z.of_nat x) (Z.of_nat y) = Some p
           /\ (panel (display m') !! (y * WIDTH + x)%nat = Some 0 <-> p = 0).
Proof.
  intros (Hw & Hh & Hlen).
  destruct (image_to_badge_bytes_packed badger_config img Hlen)
    as (img_bytes & Hrun & Hpacked).
  pose proof (rendering_packed badger_config _ _ Hlen Hpacked) as Hrender.
  exists img_bytes, (after_paint WIDTH HEIGHT FULL_REFRESH_INTERVAL img_bytes m).
  split; [exact Hrun|]. split; [apply display_image_eq|].
  assert (Hpanel :
    panel (display (after_paint WIDTH HEIGHT FULL_REFRESH_INTERVAL img_bytes m))
    = pen_of_pixel <$> PIL.im_data img).
  { rewrite <- Hrender. unfold after_paint.
    destruct (update_count m + 1 >=? FULL_REFRESH_INTERVAL); reflexivity. }
  split; [exact Hpanel|].
  intros x y Hx Hy. rewrite Hpanel.
  destruct (lookup_lt_is_Some_2 (PIL.im_data img) (y * WIDTH + x)%nat)
    as [p Hp].
  { rewrite Hlen. apply (pixel_index_lt WIDTH HEIGHT); assumption. }
  exists p. split.
  - unfold PIL.getpixel. rewrite Hw, Hh.
    change (width badger_config) with WIDTH.
    change (height badger_config) with HEIGHT.
    replace (0 <=? Z.of_nat x) with true by (symmetry; apply Z.leb_le; lia).
    replace (Z.of_nat x <? Z.of_nat WIDTH) with true
      by (symmetry; apply Z.ltb_lt; lia).
    replace (0 <=? Z.of_nat y) with true by (symmetry; apply Z.leb_le; lia).
    replace (Z.of_nat y <? Z.of_nat HEIGHT) with true
      by (symmetry; apply Z.ltb_lt; lia).
    cbn [andb].
    replace (Z.to_nat (Z.of_nat y * Z.of_nat WIDTH + Z.of_nat x))
      with (y * WIDTH + x)%nat by lia.
    exact Hp.
  - rewrite list_lookup_fmap, Hp. cbn [fmap option_fmap option_map].
    unfold pen_of_pixel. destruct (Z.eqb_spec p 0); split;
      (congruence || discriminate || reflexivity).
Qed.

Lemma unpack_pack_roundtrip_witness :
  exists img_bytes m',
    image_to_badge_bytes badger_config (PIL.new 296 128 1) = Ok img_bytes
    /\ display_image WIDTH HEIGHT FULL_REFRESH_INTERVAL img_bytes
         (mkMachine (mkBadger 0 UPDATE_FAST "bitmap8" [] [] []) 0 EmptyString [])
       = Ok m'
    /\ panel (display m') = pen_of_pixel <$> PIL.im_data (PIL.new 296 128 1)
    /\ forall x y, (x < WIDTH)%nat -> (y < HEIGHT)%nat ->
         exists p,
           PIL.getpixel (PIL.new 296 128 1) (Z.of_nat x) (Z.of_nat y) = Some p
           /\ (panel (display m') !! (y * WIDTH + x)%nat = Some 0 <-> p = 0).
Proof.
  apply (unpack_pack_roundtrip (PIL.new 296 128 1)).
  repeat split; vm_compute; reflexivity.
Defined.

(** The rendering only reads the bytes of the panel's rows. *)
Lemma rendering_take (W H : nat) (img_bytes : list Z) :
  rendering W H (take (H * ((W + 7) / 8)) img_bytes) = rendering W H img_bytes.
Proof.
  unfold rendering. apply list_eq. intros i. rewrite !list_lookup_fmap.
  destruct (Nat.lt_ge_cases i (W * H)) as [Hi|Hi].
  - assert (HW : (0 < W)%nat) by (destruct W; lia).
    rewrite lookup_seq_lt, Nat.add_0_l by exact Hi.
    cbn [fmap option_fmap option_map]. do 2 f_equal.
    pose proof (Nat.mod_upper_bound i W ltac:(lia)) as Hm.
    assert (Hd : (i / W < H)%nat) by (apply Nat.Div0.div_lt_upper_bound; lia).
    unfold painted. rewrite row_bytes_eq.
    rewrite lookup_take_lt; [reflexivity|].
    rewrite (Nat.mul_comm H). apply pixel_index_lt; [|exact Hd].
    apply Nat.Div0.div_lt_upper_bound.
    pose proof (Nat.div_mod_eq (W + 7) 8).
    pose proof (Nat.mod_upper_bound (W + 7) 8). lia.
  - rewrite (lookup_ge_None_2 (seq _ _)) by (rewrite length_seq; lia).
    reflexivity.
Qed.

Lemma rendering_lookup (W H : nat) (img_bytes : list Z) (px y : nat) :
  (px < W)%nat -> (y < H)%nat ->
  rendering W H img_bytes !! (y * W + px)%nat
  = Some (if painted W img_bytes px y then 0 else 15).
Proof.
  intros Hpx Hy. unfold rendering. rewrite list_lookup_fmap.
  rewrite lookup_seq_lt, Nat.add_0_l by (apply pixel_index_lt; assumption).
  cbn [fmap option_fmap option_map].
  replace ((y * W + px) mod W)%nat with px
    by (apply (Nat.mod_unique _ W y px); lia).
  replace ((y * W + px) / W)%nat with y
    by (apply (Nat.div_unique _ W y px); lia).
  reflexivity.
Qed.

Lemma after_paint_panel (W H : nat) (I : Z) (img_bytes : list Z) (m : machine) :
  panel (display (after_paint W H I img_bytes m)) = rendering W H img_bytes.
Proof. unfold after_paint. destruct (_ >=? _); reflexivity. Qed.

(** C9: for a byte sequence of any length the paint routine returns, with
    no index out of range; a pixel is painted only where its byte is
    present (and its bit clear), so the pixels past the end of a short
    sequence stay background, and the bytes beyond [HEIGHT * ceil(WIDTH/8)]
    are ignored. *)
Theorem display_image_any_length (W H : nat) (I : Z) (img_bytes : list Z)
    (m : machine) :
  exists m',
    display_image W H I img_bytes m = Ok m'
    /\ (forall px y, (px < W)%nat -> (y < H)%nat ->
          panel (display m') !! (y * W + px)%nat
          = Some match img_bytes !! (y * ((W + 7) / 8) + px / 8)%nat with
                 | Some byte =>
                     if Z.testbit byte (7 - Z.of_nat (px mod 8)) then 15 else 0
                 | None => 15
                 end)
    /\ display_image W H I (take (H * ((W + 7) / 8)) img_bytes) m = Ok m'.
Proof.
  exists (after_paint W H I img_bytes m).
  split; [apply display_image_eq|]. split.
  - intros px y Hpx Hy.
    rewrite after_paint_panel, rendering_lookup by assumption.
    unfold painted. rewrite row_bytes_eq.
    destruct (img_bytes !! _) as [byte|]; [|reflexivity].
    destruct (Z.testbit byte _); reflexivity.
  - rewrite display_image_eq. unfold after_paint.
    rewrite rendering_take. reflexivity.
Qed.

(** One paint: the counter goes up by one, or back to 0 with a full
    refresh cycle when it reaches the interval. *)
Lemma after_paint_counter (W H : nat) (I : Z) (img_bytes : list Z) (m : machine) :
  speed (display m) = UPDATE_FAST ->
  let m' := after_paint W H I img_bytes m in
  speed (display m') = UPDATE_FAST
  /\ update_count m'
     = (if update_count m + 1 >=? I then 0 else update_count m + 1)
  /\ refreshes (display m')
     = refreshes (display m)
       ++ [if update_count m + 1 >=? I then UPDATE_NORMAL else UPDATE_FAST].
Proof.
  intros Hfast. unfold after_paint.
  destruct (update_count m + 1 >=? I); cbn; rewrite ?Hfast; auto.
Qed.

(** C7: with the interval 60 and the counter at 0, after [n] successive
    paints the counter is [n mod 60]: every paint adds one, the 60th runs a
    full-speed refresh cycle instead of the fast one and resets the counter,
    the 61st is fast again; the counter stays in [0, 60). *)
Theorem full_refresh_every_60 (frames : list (list Z)) (m : machine) :
  update_count m = 0 ->
  speed (display m) = UPDATE_FAST ->
  exists m',
    paint_all WIDTH HEIGHT FULL_REFRESH_INTERVAL frames m = Ok m'
    /\ update_count m' = Z.of_nat (length frames) mod 60
    /\ 0 <= update_count m' < FULL_REFRESH_INTERVAL
    /\ speed (display m') = UPDATE_FAST
    /\ refreshes (display m')
       = refreshes (display m)
         ++ ((fun k => if (Z.of_nat k + 1) mod 60 =? 0
                       then UPDATE_NORMAL else UPDATE_FAST)
             <$> seq 0 (length frames)).
Proof.
  intros Hzero Hfast. unfold paint_all.
  induction frames as [|frame frames IH] using rev_ind.
  - exists m. cbn. rewrite Hzero, app_nil_r. unfold FULL_REFRESH_INTERVAL.
    repeat split; (reflexivity || lia || assumption).
  - destruct IH as (m1 & Hrun & Hcount & Hrange & Hspeed & Hlog).
    exists (after_paint WIDTH HEIGHT FULL_REFRESH_INTERVAL frame m1).
    destruct (after_paint_counter WIDTH HEIGHT FULL_REFRESH_INTERVAL frame m1
                Hspeed) as (Hs' & Hc' & Hl').
    rewrite for_app, Hrun. cbn [mbind result_bind for_].
    rewrite display_image_eq. cbn [mbind result_bind].
    split; [reflexivity|].
    rewrite length_app, Nat.add_1_r. unfold FULL_REFRESH_INTERVAL in *.
    assert (Hstep :
      (if update_count m1 + 1 >=? 60 then 0 else update_count m1 + 1)
      = Z.of_nat (S (length frames)) mod 60
      /\ (update_count m1 + 1 >=? 60)
         = ((Z.of_nat (length frames) + 1) mod 60 =? 0)).
    { rewrite Hcount. rewrite Nat2Z.inj_succ. unfold Z.succ.
      destruct (Z.geb_spec (Z.of_nat (length frames) mod 60 + 1) 60),
               (Z.eqb_spec ((Z.of_nat (length frames) + 1) mod 60) 0);
        split; try reflexivity; Z.div_mod_to_equations; lia. }
    destruct Hstep as [Hstep1 Hstep2].
    split; [rewrite Hc'; exact Hstep1|].
    split; [rewrite Hc', Hstep1; apply Z.mod_pos_bound; lia|].
    split; [exact Hs'|].
    rewrite Hl', Hlog, <- app_assoc. f_equal.
    rewrite seq_S, fmap_app. cbn [fmap list_fmap]. rewrite Hstep2.
    reflexivity.
Qed.

Lemma full_refresh_every_60_witness :
  exists m',
    paint_all WIDTH HEIGHT FULL_REFRESH_INTERVAL [[]; []]
      (mkMachine (mkBadger 0 UPDATE_FAST "bitmap8" [] [] []) 0 EmptyString [])
    = Ok m'
    /\ update_count m' = Z.of_nat 2 mod 60
    /\ 0 <= update_count m' < FULL_REFRESH_INTERVAL
    /\ speed (display m') = UPDATE_FAST
    /\ refreshes (display m')
       = [] ++ ((fun k => if (Z.of_nat k + 1) mod 60 =? 0
                          then UPDATE_NORMAL else UPDATE_FAST)
                <$> seq 0 2).
Proof.
  apply (full_refresh_every_60 [[]; []]
           (mkMachine (mkBadger 0 UPDATE_FAST "bitmap8" [] [] []) 0 EmptyString []));
    reflexivity.
Defined.

End PackAndPaint.

(** ** Base64 *)

Module Base64Facts.

Import Base64.

(** A byte is its own low eight bits. *)
Lemma byte_low_bits (a : Z) : 0 <= a < 256 -> a = Z.land a (Z.ones 8).
Proof.
  intros Ha. rewrite Z.land_ones by lia. symmetry. apply Z.mod_small.
  change (2 ^ 8) with 256. lia.
Qed.

Lemma low_bits_range (x : Z) (n : Z) :
  0 <= n -> x = Z.land x (Z.ones n) -> 0 <= x < 2 ^ n.
Proof.
  intros Hn ->. rewrite Z.land_ones by lia. apply Z.mod_pos_bound.
  apply Z.pow_pos_nonneg; lia.
Qed.

Ltac bits := Z.bitblast; subst; rewrite ?Z.testbit_neg_r by lia; try btauto.

Lemma s0_range a : 0 <= a < 256 -> 0 <= s0 a < 64.
Proof.
  intros Ha. apply (low_bits_range _ 6); [lia|]. unfold s0.
  rewrite (byte_low_bits a Ha). bits.
Qed.

Lemma s1_range a b : 0 <= b < 256 -> 0 <= s1 a b < 64.
Proof.
  intros Hb. apply (low_bits_range _ 6); [lia|]. unfold s1.
  rewrite (byte_low_bits b Hb). change 3 with (Z.ones 2). bits.
Qed.

Lemma s2_range b c : 0 <= c < 256 -> 0 <= s2 b c < 64.
Proof.
  intros Hc. apply (low_bits_range _ 6); [lia|]. unfold s2.
  rewrite (byte_low_bits c Hc). change 15 with (Z.ones 4). bits.
Qed.

Lemma s3_range c : 0 <= s3 c < 64.
Proof.
  apply (low_bits_range _ 6); [lia|]. unfold s3.
  change 63 with (Z.ones 6). bits.
Qed.

Lemma first_byte sh a b :
  0 <= a < 256 -> 0 <= b < 256 ->
  Z.land (Z.shiftr (push (push sh (s0 a)) (s1 a b)) 4) 255 = a.
Proof.
  intros Ha Hb. unfold push, uint, s0, s1.
  rewrite (byte_low_bits a Ha) at 3. rewrite (byte_low_bits b Hb).
  change 3 with (Z.ones 2). change 255 with (Z.ones 8). bits.
Qed.

Lemma second_byte sh a b c :
  0 <= b < 256 -> 0 <= c < 256 ->
  Z.land (Z.shiftr (push (push (push sh (s0 a)) (s1 a b)) (s2 b c)) 2) 255 = b.
Proof.
  intros Hb Hc. unfold push, uint, s0, s1, s2.
  rewrite (byte_low_bits b Hb) at 3. rewrite (byte_low_bits c Hc).
  change 3 with (Z.ones 2). change 15 with (Z.ones 4).
  change 255 with (Z.ones 8). bits.
Qed.

Lemma third_byte sh a b c :
  0 <= c < 256 ->
  Z.land (Z.shiftr (push (push (push (push sh (s0 a)) (s1 a b)) (s2 b c)) (s3 c)) 0)
         255 = c.
Proof.
  intros Hc. unfold push, uint, s0, s1, s2, s3.
  rewrite (byte_low_bits c Hc) at 3.
  change 3 with (Z.ones 2). change 15 with (Z.ones 4).
  change 63 with (Z.ones 6). change 255 with (Z.ones 8). bits.
Qed.

(** The last sextet of a one-byte and of a two-byte tail. *)
Lemma first_byte_tail sh a :
  0 <= a < 256 ->
  Z.land (Z.shiftr (push (push sh (s0 a)) (Z.shiftl (Z.land a 3) 4)) 4) 255 = a.
Proof.
  intros Ha. unfold push, uint, s0.
  rewrite (byte_low_bits a Ha) at 3.
  change 3 with (Z.ones 2). change 255 with (Z.ones 8). bits.
Qed.

Lemma second_byte_tail sh a b :
  0 <= b < 256 ->
  Z.land (Z.shiftr (push (push (push sh (s0 a)) (s1 a b))
                      (Z.shiftl (Z.land b 15) 2)) 2) 255 = b.
Proof.
  intros Hb. unfold push, uint, s0, s1.
  rewrite (byte_low_bits b Hb) at 3.
  change 3 with (Z.ones 2). change 15 with (Z.ones 4).
  change 255 with (Z.ones 8). bits.
Qed.

Lemma tail1_range a : 0 <= Z.shiftl (Z.land a 3) 4 < 64.
Proof.
  apply (low_bits_range _ 6); [lia|]. change 3 with (Z.ones 2). bits.
Qed.

Lemma tail2_range b : 0 <= Z.shiftl (Z.land b 15) 2 < 64.
Proof.
  apply (low_bits_range _ 6); [lia|]. change 15 with (Z.ones 4). bits.
Qed.

(** *** The alphabet *)

Lemma sextet_b64_char (n : Z) : 0 <= n < 64 -> sextet (b64_char n) = Some n.
Proof.
  intros Hn.
  assert (Hall : forallb (fun k => match sextet (b64_char (Z.of_nat k)) with
                                   | Some s => s =? Z.of_nat k
                                   | None => false
                                   end) (seq 0 64) = true) by (vm_compute; reflexivity).
  rewrite forallb_forall in Hall.
  specialize (Hall (Z.to_nat n)). rewrite Z2Nat.id in Hall by lia.
  destruct (sextet (b64_char n)) as [s|].
  - f_equal. apply Z.eqb_eq. apply Hall. apply in_seq. lia.
  - discriminate Hall. apply in_seq. lia.
Qed.

Lemma sextet_pad : sextet pad = None.
Proof. reflexivity. Qed.

Lemma valid_not_pad (ch : ascii) (sx : Z) :
  sextet ch = Some sx -> Ascii.eqb ch pad = false.
Proof.
  intros Hs. destruct (Ascii.eqb_spec ch pad) as [->|]; [|reflexivity].
  rewrite sextet_pad in Hs. discriminate.
Qed.

(** *** The decoder loop *)

(** A character of the alphabet shifts its sextet in. *)
Lemma a2b_loop_sextet (ch : ascii) (rest : string) (st : decoder) (sx : Z) :
  sextet ch = Some sx ->
  a2b_loop (String ch rest) st
  = if nbits st + 6 >=? 8 then
      a2b_loop rest
        (mkDecoder (push (shift st) sx) (nbits st + 6 - 8) false
           (out st ++ [Z.land (Z.shiftr (push (shift st) sx) (nbits st + 6 - 8)) 255]))
    else a2b_loop rest (mkDecoder (push (shift st) sx) (nbits st + 6) false (out st)).
Proof.
  intros Hs. cbn [a2b_loop]. rewrite (valid_not_pad ch sx Hs), Hs.
  reflexivity.
Qed.

Lemma a2b_loop_at_0 ch rest sh hp acc sx :
  sextet ch = Some sx ->
  a2b_loop (String ch rest) (mkDecoder sh 0 hp acc)
  = a2b_loop rest (mkDecoder (push sh sx) 6 false acc).
Proof. intros Hs. rewrite (a2b_loop_sextet _ _ _ _ Hs). reflexivity. Qed.

Lemma a2b_loop_at_6 ch rest sh hp acc sx :
  sextet ch = Some sx ->
  a2b_loop (String ch rest) (mkDecoder sh 6 hp acc)
  = a2b_loop rest
      (mkDecoder (push sh sx) 4 false
         (acc ++ [Z.land (Z.shiftr (push sh sx) 4) 255])).
Proof. intros Hs. rewrite (a2b_loop_sextet _ _ _ _ Hs). reflexivity. Qed.

Lemma a2b_loop_at_4 ch rest sh hp acc sx :
  sextet ch = Some sx ->
  a2b_loop (String ch rest) (mkDecoder sh 4 hp acc)
  = a2b_loop rest
      (mkDecoder (push sh sx) 2 false
         (acc ++ [Z.land (Z.shiftr (push sh sx) 2) 255])).
Proof. intros Hs. rewrite (a2b_loop_sextet _ _ _ _ Hs). reflexivity. Qed.

Lemma a2b_loop_at_2 ch rest sh hp acc sx :
  sextet ch = Some sx ->
  a2b_loop (String ch rest) (mkDecoder sh 2 hp acc)
  = a2b_loop rest
      (mkDecoder (push sh sx) 0 false
         (acc ++ [Z.land (Z.shiftr (push sh sx) 0) 255])).
Proof. intros Hs. rewrite (a2b_loop_sextet _ _ _ _ Hs). reflexivity. Qed.

(** Four characters that encode three bytes give the three bytes back. *)
Lemma a2b_loop_group (a b c : Z) (rest : string) (sh : Z) (hp : bool)
    (acc : list Z) :
  0 <= a < 256 -> 0 <= b < 256 -> 0 <= c < 256 ->
  exists sh',
    a2b_loop
      (String (b64_char (s0 a))
         (String (b64_char (s1 a b))
            (String (b64_char (s2 b c))
               (String (b64_char (s3 c)) rest))))
      (mkDecoder sh 0 hp acc)
    = a2b_loop rest (mkDecoder sh' 0 false (acc ++ [a; b; c])).
Proof.
  intros Ha Hb Hc.
  exists (push (push (push (push sh (s0 a)) (s1 a b)) (s2 b c)) (s3 c)).
  rewrite (a2b_loop_at_0 _ _ _ _ _ _ (sextet_b64_char _ (s0_range a Ha))).
  rewrite (a2b_loop_at_6 _ _ _ _ _ _ (sextet_b64_char _ (s1_range a b Hb))).
  rewrite (first_byte sh a b Ha Hb).
  rewrite (a2b_loop_at_4 _ _ _ _ _ _ (sextet_b64_char _ (s2_range b c Hc))).
  rewrite (second_byte sh a b c Hb Hc).
  rewrite (a2b_loop_at_2 _ _ _ _ _ _ (sextet_b64_char _ (s3_range c))).
  rewrite (third_byte sh a b c Hc).
  rewrite <- !app_assoc. reflexivity.
Qed.

(** The padded tails. *)
Lemma a2b_loop_tail1 (a : Z) (sh : Z) (hp : bool) (acc : list Z) :
  0 <= a < 256 ->
  exists sh' hp',
    a2b_loop
      (String (b64_char (s0 a))
         (String (b64_char (Z.shiftl (Z.land a 3) 4))
            (String pad (String pad EmptyString))))
      (mkDecoder sh 0 hp acc)
    = mkDecoder sh' 0 hp' (acc ++ [a]).
Proof.
  intros Ha.
  rewrite (a2b_loop_at_0 _ _ _ _ _ _ (sextet_b64_char _ (s0_range a Ha))).
  rewrite (a2b_loop_at_6 _ _ _ _ _ _ (sextet_b64_char _ (tail1_range a))).
  rewrite (first_byte_tail sh a Ha).
  eexists _, _. reflexivity.
Qed.

Lemma a2b_loop_tail2 (a b : Z) (sh : Z) (hp : bool) (acc : list Z) :
  0 <= a < 256 -> 0 <= b < 256 ->
  exists sh' hp',
    a2b_loop
      (String (b64_char (s0 a))
         (String (b64_char (s1 a b))
            (String (b64_char (Z.shiftl (Z.land b 15) 2))
               (String pad EmptyString))))
      (mkDecoder sh 0 hp acc)
    = mkDecoder sh' 0 hp' (acc ++ [a; b]).
Proof.
  intros Ha Hb.
  rewrite (a2b_loop_at_0 _ _ _ _ _ _ (sextet_b64_char _ (s0_range a Ha))).
  rewrite (a2b_loop_at_6 _ _ _ _ _ _ (sextet_b64_char _ (s1_range a b Hb))).
  rewrite (first_byte sh a b Ha Hb).
  rewrite (a2b_loop_at_4 _ _ _ _ _ _ (sextet_b64_char _ (tail2_range b))).
  rewrite (second_byte_tail sh a b Hb).
  rewrite <- !app_assoc. eexists _, _. reflexivity.
Qed.

(** Induction over a list three elements at a time. *)
Lemma list_ind3 {A} (P : list A -> Prop) :
  P [] -> (forall a, P [a]) -> (forall a b, P [a; b]) ->
  (forall a b c l, P l -> P (a :: b :: c :: l)) ->
  forall l, P l.
Proof.
  intros H0 H1 H2 H3.
  assert (Hall : forall l, P l /\ (forall a, P (a :: l)) /\ (forall a b, P (a :: b :: l))).
  { induction l as [|x l (IH0 & IH1 & IH2)]; [auto|].
    split; [apply IH1|]. split; [intros a; apply IH2|].
    intros a b. apply H3, IH0. }
  intros l. apply Hall.
Qed.

(** The decoder undoes the encoder, from any state between groups. *)
Lemma a2b_loop_b64encode (bs : list Z) :
  Forall (fun b => 0 <= b < 256) bs ->
  forall sh hp acc,
  exists sh' hp',
    a2b_loop (b64encode bs) (mkDecoder sh 0 hp acc)
    = mkDecoder sh' 0 hp' (acc ++ bs).
Proof.
  induction bs as [|a|a b|a b c bs IH] using list_ind3; intros Hbs sh hp acc.
  - exists sh, hp. rewrite app_nil_r. reflexivity.
  - inversion_clear Hbs as [|? ? Ha _].
    exact (a2b_loop_tail1 a sh hp acc Ha).
  - inversion_clear Hbs as [|? ? Ha Hbs']. inversion_clear Hbs' as [|? ? Hb _].
    exact (a2b_loop_tail2 a b sh hp acc Ha Hb).
  - inversion_clear Hbs as [|? ? Ha Hbs']. inversion_clear Hbs' as [|? ? Hb Hbs].
    inversion_clear Hbs as [|? ? Hc Hrest].
    cbn [b64encode].
    destruct (a2b_loop_group a b c (b64encode bs) sh hp acc Ha Hb Hc)
      as (sh1 & Hgroup).
    rewrite Hgroup.
    destruct (IH Hrest sh1 false (acc ++ [a; b; c])) as (sh' & hp' & Hdec).
    exists sh', hp'. rewrite Hdec, <- app_assoc. reflexivity.
Qed.

(** Decoding an encoding returns the bytes. *)
Lemma a2b_base64_b64encode (bs : list Z) :
  Forall (fun b => 0 <= b < 256) bs ->
  a2b_base64 (b64encode bs) = Ok bs.
Proof.
  intros Hbs. unfold a2b_base64.
  destruct (a2b_loop_b64encode bs Hbs 0 false []) as (sh & hp & ->).
  reflexivity.
Qed.

End Base64Facts.

(** ** Strings *)

Lemma append_cons (ch : ascii) (a b : string) :
  String ch a +:+ b = String ch (a +:+ b).
Proof. reflexivity. Qed.

Lemma append_assoc (a b c : string) : (a +:+ b) +:+ c = a +:+ (b +:+ c).
Proof.
  induction a as [|ch a IH]; [reflexivity|].
  rewrite !append_cons, IH. reflexivity.
Qed.

Lemma append_nil_r (a : string) : a +:+ EmptyString = a.
Proof.
  induction a as [|ch a IH]; [reflexivity|].
  rewrite append_cons, IH. reflexivity.
Qed.

Lemma list_ascii_of_string_app (a b : string) :
  list_ascii_of_string (a +:+ b) = list_ascii_of_string a ++ list_ascii_of_string b.
Proof.
  induction a as [|ch a IH]; [reflexivity|].
  rewrite append_cons. cbn [list_ascii_of_string]. rewrite IH. reflexivity.
Qed.

Lemma str_forall_app (p : ascii -> bool) (a b : string) :
  str_forall p (a +:+ b) = str_forall p a && str_forall p b.
Proof.
  induction a as [|ch a IH]; [reflexivity|].
  rewrite append_cons. cbn [str_forall]. rewrite IH. apply andb_assoc.
Qed.

Lemma str_forall_get (p : ascii -> bool) (s : string) (k : nat) (c : ascii) :
  str_forall p s = true -> String.get k s = Some c -> p c = true.
Proof.
  revert k. induction s as [|ch s IH]; intros k Hall Hget; [discriminate|].
  cbn in Hall. apply andb_prop in Hall as [Hch Hs].
  destruct k as [|k]; cbn in Hget.
  - injection Hget as <-. exact Hch.
  - exact (IH k Hs Hget).
Qed.

Lemma prefix_nil (s : string) : String.prefix EmptyString s = true.
Proof. destruct s; reflexivity. Qed.

(** A string without whitespace is left alone by [strip]. *)
Lemma str_rstrip_id (s : string) :
  str_forall (fun c => negb (isspace c)) s = true -> str_rstrip s = s.
Proof.
  induction s as [|ch s IH]; [reflexivity|]. cbn. intros Hall.
  apply andb_prop in Hall as [Hch Hs]. rewrite (IH Hs).
  apply negb_true_iff in Hch. rewrite Hch. destruct s; reflexivity.
Qed.

Lemma str_strip_id (s : string) :
  str_forall (fun c => negb (isspace c)) s = true -> str_strip s = s.
Proof.
  intros Hall. unfold str_strip.
  assert (Hl : str_lstrip s = s).
  { destruct s as [|ch s]; [reflexivity|]. cbn in *.
    apply andb_prop in Hall as [Hch _]. apply negb_true_iff in Hch.
    rewrite Hch. reflexivity. }
  rewrite Hl. apply str_rstrip_id, Hall.
Qed.

(** The text of an encoding has no whitespace. *)
Lemma b64_char_not_space (n : Z) : isspace (Base64.b64_char n) = false.
Proof.
  unfold Base64.b64_char.
  destruct (String.get (Z.to_nat n) Base64.alphabet) as [c|] eqn:Hget;
    [|reflexivity].
  apply negb_true_iff.
  apply (str_forall_get (fun c => negb (isspace c)) Base64.alphabet _ _ eq_refl Hget).
Qed.

Lemma b64encode_no_space (bs : list Z) :
  str_forall (fun c => negb (isspace c)) (Base64.b64encode bs) = true.
Proof.
  induction bs as [|a|a b|a b c bs IH] using Base64Facts.list_ind3;
    cbn [Base64.b64encode str_forall]; rewrite ?b64_char_not_space, ?IH;
    reflexivity.
Qed.

(** ** The read loop *)

Section ReadLoop.

Import BadgeMain.

Variables WIDTH HEIGHT : nat.
Variable FULL_REFRESH_INTERVAL : Z.
Variable glyphs : string -> string -> nat -> nat -> nat -> list (nat * nat).

Abbreviation receive := (receive WIDTH HEIGHT FULL_REFRESH_INTERVAL glyphs).
Abbreviation on_char := (on_char WIDTH HEIGHT FULL_REFRESH_INTERVAL glyphs).
Abbreviation display_image := (display_image WIDTH HEIGHT FULL_REFRESH_INTERVAL).
Abbreviation after_paint := (after_paint WIDTH HEIGHT FULL_REFRESH_INTERVAL).

Lemma receive_app (a b : string) (m : machine) :
  receive (a +:+ b) m = (m' ← receive a m; receive b m').
Proof. unfold BadgeMain.receive. rewrite list_ascii_of_string_app. apply for_app. Qed.

Lemma on_char_text (ch : ascii) (m : machine) :
  Ascii.eqb ch newline = false ->
  on_char ch m = Ok (set_buffer (buffer m +:+ String ch EmptyString) m).
Proof. intros Hch. unfold BadgeMain.on_char. rewrite Hch. reflexivity. Qed.

(** Characters other than the newline pile up in the buffer. *)
Lemma receive_text (s : string) (m : machine) :
  str_forall (fun c => negb (Ascii.eqb c newline)) s = true ->
  receive s m = Ok (set_buffer (buffer m +:+ s) m).
Proof.
  revert m. induction s as [|ch s IH]; intros m Hall.
  - cbn. rewrite append_nil_r. destruct m; reflexivity.
  - cbn in Hall. apply andb_prop in Hall as [Hch Hs].
    apply negb_true_iff in Hch.
    unfold BadgeMain.receive. cbn [list_ascii_of_string for_].
    rewrite (on_char_text ch m Hch). cbn [mbind result_bind].
    fold (receive s (set_buffer (buffer m +:+ String ch EmptyString) m)).
    rewrite (IH _ Hs). cbn [buffer set_buffer].
    rewrite append_assoc. reflexivity.
Qed.

Lemma no_space_no_newline (s : string) :
  str_forall (fun c => negb (isspace c)) s = true ->
  str_forall (fun c => negb (Ascii.eqb c newline)) s = true.
Proof.
  induction s as [|ch s IH]; [reflexivity|]. cbn. intros Hall.
  apply andb_prop in Hall as [Hch Hs]. rewrite (IH Hs), andb_true_r.
  destruct (Ascii.eqb_spec ch newline) as [->|]; [discriminate Hch|reflexivity].
Qed.

(** A newline hands the stripped buffer to the dispatch on the tag. *)
Lemma receive_newline (m : machine) :
  receive (String newline EmptyString) m = on_char newline m.
Proof.
  unfold BadgeMain.receive. cbn [list_ascii_of_string for_].
  destruct (on_char newline m); reflexivity.
Qed.

Lemma tag_append (payload : string) :
  "IMG:" +:+ payload
  = String "I" (String "M" (String "G" (String ":" payload))).
Proof. reflexivity. Qed.

Lemma startswith_tag (payload : string) :
  startswith ("IMG:" +:+ payload) "IMG:" = true.
Proof.
  rewrite tag_append. unfold startswith. simpl. apply prefix_nil.
Qed.

(** An image line whose payload decodes is painted. *)
Lemma on_char_image (payload : string) (img_bytes : list Z) (m : machine) :
  str_strip (buffer m) = "IMG:" +:+ payload ->
  Base64.a2b_base64 payload = Ok img_bytes ->
  on_char newline m
  = Ok (print "Image displayed" (after_paint img_bytes (set_buffer EmptyString m))).
Proof.
  intros Hline Hdec. unfold BadgeMain.on_char.
  rewrite Ascii.eqb_refl, Hline. cbv zeta.
  rewrite startswith_tag, tag_append. cbn [str_from].
  rewrite Hdec. cbn [mbind result_bind].
  rewrite display_image_eq. reflexivity.
Qed.

(** An image line whose payload does not decode is dropped. *)
Lemma on_char_bad_image (payload : string) (e : exn) (m : machine) :
  str_strip (buffer m) = "IMG:" +:+ payload ->
  Base64.a2b_base64 payload = Raise e ->
  on_char newline m
  = Ok (print ("Error: " +:+ exn_str e) (set_buffer EmptyString m)).
Proof.
  intros Hline Hdec. unfold BadgeMain.on_char.
  rewrite Ascii.eqb_refl, Hline. cbv zeta.
  rewrite startswith_tag, tag_append. cbn [str_from].
  rewrite Hdec. reflexivity.
Qed.

End ReadLoop.

(** ** Frames on the link *)

Section Frames.

Import BadgeCo2 BadgeMain.

(** C3: for every sequence of bytes (each in 0..255) the transmitter writes
    exactly the tag [IMG:], the base64 text of the bytes and one newline;
    decoding that text returns the bytes, and a receiver that reads the
    frame on an empty line buffer paints exactly these bytes. *)
Theorem image_frame_roundtrip (cfg : display_config) (W H : nat) (I : Z)
    (glyphs : string -> string -> nat -> nat -> nat -> list (nat * nat))
    (img_bytes : list Z) (m : machine) :
  Forall (fun b => 0 <= b < 256) img_bytes ->
  buffer m = EmptyString ->
  (forall ser img,
      image_to_badge_bytes cfg img = Ok img_bytes ->
      send_image_to_badge cfg ser img
      = Ok (mkSerial
              (written ser +:+ "IMG:" +:+ Base64.b64encode img_bytes
               +:+ String newline EmptyString)))
  /\ Base64.a2b_base64 (Base64.b64encode img_bytes) = Ok img_bytes
  /\ receive W H I glyphs
       ("IMG:" +:+ Base64.b64encode img_bytes +:+ String newline EmptyString) m
     = (m' ← display_image W H I img_bytes m; Ok (print "Image displayed" m')).
Proof.
  intros Hbytes Hbuf.
  pose proof (Base64Facts.a2b_base64_b64encode img_bytes Hbytes) as Hdec.
  split; [|split; [exact Hdec|]].
  - intros ser img Hpack. unfold send_image_to_badge, write, flush.
    rewrite Hpack. cbn [mbind result_bind written].
    rewrite !append_assoc. reflexivity.
  - rewrite <- append_assoc, receive_app.
    rewrite receive_text.
    2:{ apply no_space_no_newline. rewrite str_forall_app, b64encode_no_space.
        reflexivity. }
    cbn [mbind result_bind]. rewrite receive_newline.
    rewrite Hbuf. change (EmptyString +:+ ?s) with s.
    rewrite (on_char_image W H I glyphs (Base64.b64encode img_bytes) img_bytes).
    + rewrite display_image_eq. cbn [mbind result_bind].
      do 3 f_equal. destruct m as [d c b o]. cbn in *. subst b. reflexivity.
    + cbn [buffer set_buffer]. apply str_strip_id.
      rewrite str_forall_app, b64encode_no_space. reflexivity.
    + exact Hdec.
Qed.

Lemma image_frame_roundtrip_witness :
  (forall ser img,
      image_to_badge_bytes badger_config img = Ok [0; 255; 16] ->
      send_image_to_badge badger_config ser img
      = Ok (mkSerial
              (written ser +:+ "IMG:" +:+ Base64.b64encode [0; 255; 16]
               +:+ String newline EmptyString)))
  /\ Base64.a2b_base64 (Base64.b64encode [0; 255; 16]) = Ok [0; 255; 16]
  /\ receive WIDTH HEIGHT FULL_REFRESH_INTERVAL (fun _ _ _ _ _ => [])
       ("IMG:" +:+ Base64.b64encode [0; 255; 16] +:+ String newline EmptyString)
       showing_white
     = (m' ← display_image WIDTH HEIGHT FULL_REFRESH_INTERVAL [0; 255; 16]
               showing_white;
        Ok (print "Image displayed" m')).
Proof.
  apply (image_frame_roundtrip badger_config WIDTH HEIGHT FULL_REFRESH_INTERVAL
           (fun _ _ _ _ _ => []) [0; 255; 16] showing_white).
  - repeat constructor; lia.
  - reflexivity.
Defined.

(** C6, as stated, fails: the first four payload characters of the frame of
    an image that starts with black pixels are themselves valid base64, so a
    frame cut there is decoded and painted: the counter moves and the panel
    changes. *)
Lemma truncated_frame_is_painted :
  exists m',
    String.prefix "IMG:AAAA" (image_frame [0; 0; 0; 0; 0; 0]) = true
    /\ (forall glyphs,
          receive WIDTH HEIGHT FULL_REFRESH_INTERVAL glyphs
            ("IMG:AAAA" +:+ String newline EmptyString) showing_white
          = Ok m')
    /\ panel (display showing_white) !! 0%nat = Some 15
    /\ panel (display m') !! 0%nat = Some 0
    /\ update_count showing_white = 1
    /\ update_count m' = 2.
Proof.
  exists (print "Image displayed"
            (after_paint WIDTH HEIGHT FULL_REFRESH_INTERVAL [0; 0; 0]
               showing_white)).
  split; [vm_compute; reflexivity|]. split; [|split; [|split; [|split]]].
  - intros glyphs. rewrite receive_app, receive_text by reflexivity.
    cbn [mbind result_bind]. rewrite receive_newline.
    rewrite (on_char_image _ _ _ _ "AAAA" [0; 0; 0]); reflexivity.
  - unfold showing_white. cbn [display panel].
    apply lookup_replicate_2. unfold WIDTH, HEIGHT. lia.
  - cbn [print display]. rewrite after_paint_panel.
    apply (rendering_lookup WIDTH HEIGHT [0; 0; 0] 0 0);
      unfold WIDTH, HEIGHT; lia.
  - reflexivity.
  - reflexivity.
Qed.

(** C6, amended: a line that begins with the tag and whose payload does not
    decode is dropped: the display (frame buffer, panel, refresh log) and the
    refresh counter are as before, the line buffer is empty, one error line
    is logged, and the read loop goes on. *)
Theorem undecodable_frame_dropped (W H : nat) (I : Z)
    (glyphs : string -> string -> nat -> nat -> nat -> list (nat * nat))
    (text : string) (e : exn) (m : machine) :
  str_forall (fun c => negb (Ascii.eqb c newline)) text = true ->
  startswith (str_strip (buffer m +:+ text)) "IMG:" = true ->
  Base64.a2b_base64 (str_from 4 (str_strip (buffer m +:+ text))) = Raise e ->
  exists m',
    receive W H I glyphs (text +:+ String newline EmptyString) m = Ok m'
    /\ display m' = display m
    /\ update_count m' = update_count m
    /\ buffer m' = EmptyString
    /\ stdout m' = stdout m ++ ["Error: " +:+ exn_str e].
Proof.
  intros Htext Htag Hdec.
  exists (print ("Error: " +:+ exn_str e) (set_buffer EmptyString m)).
  split; [|repeat split].
  rewrite receive_app, (receive_text _ _ _ _ _ _ Htext).
  cbn [mbind result_bind]. rewrite receive_newline.
  unfold on_char. rewrite Ascii.eqb_refl. cbn [buffer set_buffer].
  rewrite Htag, Hdec. reflexivity.
Qed.

Lemma undecodable_frame_dropped_witness :
  exists m',
    receive WIDTH HEIGHT FULL_REFRESH_INTERVAL (fun _ _ _ _ _ => [])
      ("IMG:AAA" +:+ String newline EmptyString) showing_white = Ok m'
    /\ display m' = display showing_white
    /\ update_count m' = update_count showing_white
    /\ buffer m' = EmptyString
    /\ stdout m' = stdout showing_white
                   ++ ["Error: " +:+ exn_str (ValueError "incorrect padding")].
Proof.
  apply (undecodable_frame_dropped WIDTH HEIGHT FULL_REFRESH_INTERVAL
           (fun _ _ _ _ _ => []) "IMG:AAA" (ValueError "incorrect padding")
           showing_white); reflexivity.
Defined.

End Frames.

(** ** Threshold evaluator *)

Section Thresholds.

Import PyFloat BadgeCo2.

Lemma float_ge_mono (f : spec_float) (w d : Q) :
  (w <= d)%Q -> float_ge f d = true -> float_ge f w = true.
Proof.
  intros Hwd. destruct f as [s|s| |s m e]; cbn; try (intros H; exact H).
  - rewrite !Qle_bool_iff. intros H. apply (Qle_trans _ d); assumption.
  - rewrite !Qle_bool_iff. intros H. apply (Qle_trans _ d); assumption.
Qed.

Lemma float_ge_false (f : spec_float) (t : Q) :
  float_ge f t = false <-> float_lt f t = true \/ f = S754_nan.
Proof.
  destruct f as [s|s| |s m e]; cbn.
  - rewrite negb_true_iff. split; [auto|]. intros [H|H]; [exact H|discriminate].
  - rewrite negb_false_iff. split; [auto|]. intros [H|H]; [exact H|discriminate].
  - split; auto.
  - rewrite negb_true_iff. split; [auto|]. intros [H|H]; [exact H|discriminate].
Qed.

(** [float] of a string raises nothing but [ValueError]. *)
Lemma float_of_str_raises (value : string) (e : exn) :
  float_of_str value = Raise e -> e = bad_literal.
Proof.
  unfold float_of_str.
  repeat match goal with
         | |- context [match ?x with _ => _ end] => destruct x
         | |- context [if ?x then _ else _] => destruct x
         end; intros [= <-] || discriminate; reflexivity.
Qed.

(** The evaluator on a pair, by the outcome of [float]. *)
Lemma get_warning_level_pair (value : string) (w d : Q) :
  get_warning_level value (Some [w; d])
  = match float_of_str value with
    | Ok f => if float_ge f d then Ok 2 else if float_ge f w then Ok 1 else Ok 0
    | Raise _ => Ok 0
    end.
Proof.
  unfold get_warning_level.
  destruct (float_of_str value) as [f|e] eqn:Hparse.
  - cbn. destruct (float_ge f d); [reflexivity|].
    destruct (float_ge f w); reflexivity.
  - apply float_of_str_raises in Hparse as ->. reflexivity.
Qed.

(** C4, as stated, fails: ["nan"] parses as a float, the thresholds are
    there, and the value is not below the warning threshold (no comparison
    with a NaN holds), yet the tier is NONE. *)
Lemma nan_is_none_without_being_below :
  get_warning_level "nan" (Some [1000 # 1; 2000 # 1])%Q = Ok 0
  /\ float_of_str "nan" = Ok S754_nan
  /\ float_lt S754_nan (1000 # 1) = false.
Proof. repeat split. Qed.

(** C4, amended: for a pair [[w, d]] with [w <= d] the tier is DANGER iff
    the value parses and is [>= d]; WARNING iff it parses and
    [w <= v < d]; NONE iff it does not parse, or parses to a float below
    [w] or to a NaN; without thresholds the tier is NONE; a value on a
    threshold takes the higher tier, and no exception escapes. *)
Theorem get_warning_level_tiers (value : string) (w d : Q) :
  (w <= d)%Q ->
  (get_warning_level value (Some [w; d]) = Ok 2
   <-> exists f, float_of_str value = Ok f /\ float_ge f d = true)
  /\ (get_warning_level value (Some [w; d]) = Ok 1
      <-> exists f, float_of_str value = Ok f
                    /\ float_ge f w = true /\ float_lt f d = true)
  /\ (get_warning_level value (Some [w; d]) = Ok 0
      <-> (exists e, float_of_str value = Raise e)
          \/ exists f, float_of_str value = Ok f
                       /\ (float_lt f w = true \/ f = S754_nan))
  /\ get_warning_level value None = Ok 0
  /\ (exists level, get_warning_level value (Some [w; d]) = Ok level)
  /\ get_warning_level "1000" (Some [1000 # 1; 2000 # 1])%Q = Ok 1
  /\ get_warning_level "2000" (Some [1000 # 1; 2000 # 1])%Q = Ok 2
  /\ get_warning_level "ERR" (Some [1000 # 1; 2000 # 1])%Q = Ok 0.
Proof.
  intros Hwd. rewrite get_warning_level_pair.
  assert (Hcases :
    match float_of_str value with
    | Ok f => float_ge f d = true /\ float_ge f w = true
              \/ float_ge f d = false /\ float_ge f w = true
              \/ float_ge f d = false /\ float_ge f w = false
                 /\ (float_lt f w = true \/ f = S754_nan)
    | Raise _ => True
    end).
  { destruct (float_of_str value) as [f|e]; [|exact I].
    pose proof (float_ge_mono f w d Hwd) as Hmono.
    pose proof (proj1 (float_ge_false f w)) as Hlt.
    destruct (float_ge f d) eqn:Hd, (float_ge f w) eqn:Hw.
    - left. split; reflexivity.
    - discriminate (Hmono eq_refl).
    - right. left. split; reflexivity.
    - right. right. repeat split. exact (Hlt eq_refl). }
  split; [|split; [|split; [|split; [reflexivity|split; [|repeat split]]]]].
  - destruct (float_of_str value) as [f|e].
    + destruct Hcases as [[Hd Hw]|[[Hd Hw]|(Hd & Hw & Hbelow)]]; rewrite Hd, ?Hw;
        (split; [intros [=]; eauto | intros (f' & [= <-] & Hd'); congruence]).
    + split; [intros [=] | intros (f' & [=] & _)].
  - destruct (float_of_str value) as [f|e].
    + destruct Hcases as [[Hd Hw]|[[Hd Hw]|(Hd & Hw & Hbelow)]]; rewrite Hd, ?Hw.
      * split; [intros [=]|]. intros (f' & [= <-] & Hw' & Hd').
        assert (float_ge f d = false) by (apply float_ge_false; auto).
        congruence.
      * split; [|reflexivity]. intros _. exists f.
        split; [reflexivity|]. split; [exact Hw|].
        apply float_ge_false in Hd as [Hd| ->]; [exact Hd|discriminate Hw].
      * split; [intros [=]|]. intros (f' & [= <-] & Hw' & Hd'). congruence.
    + split; [intros [=] | intros (f' & [=] & _)].
  - destruct (float_of_str value) as [f|e].
    + destruct Hcases as [[Hd Hw]|[[Hd Hw]|(Hd & Hw & Hbelow)]]; rewrite Hd, ?Hw.
      * split; [intros [=]|].
        intros [(e & [=])|(f' & [= <-] & Hbelow)].
        apply float_ge_false in Hbelow. congruence.
      * split; [intros [=]|].
        intros [(e & [=])|(f' & [= <-] & Hbelow)].
        apply float_ge_false in Hbelow. congruence.
      * split; [|reflexivity]. intros _. right. eauto.
    + split; [|reflexivity]. intros _. left. eauto.
  - destruct (float_of_str value) as [f|e]; [|eauto].
    destruct (float_ge f d); [eauto|]. destruct (float_ge f w); eauto.
Qed.

Lemma get_warning_level_tiers_witness :
  (get_warning_level "1500" (Some [1000 # 1; 2000 # 1])%Q = Ok 2
   <-> exists f, float_of_str "1500" = Ok f /\ float_ge f (2000 # 1) = true)
  /\ (get_warning_level "1500" (Some [1000 # 1; 2000 # 1])%Q = Ok 1
      <-> exists f, float_of_str "1500" = Ok f
                    /\ float_ge f (1000 # 1) = true
                    /\ float_lt f (2000 # 1) = true)
  /\ (get_warning_level "1500" (Some [1000 # 1; 2000 # 1])%Q = Ok 0
      <-> (exists e, float_of_str "1500" = Raise e)
          \/ exists f, float_of_str "1500" = Ok f
                       /\ (float_lt f (1000 # 1) = true \/ f = S754_nan))
  /\ get_warning_level "1500" None = Ok 0
  /\ (exists level, get_warning_level "1500" (Some [1000 # 1; 2000 # 1])%Q = Ok level)
  /\ get_warning_level "1000" (Some [1000 # 1; 2000 # 1])%Q = Ok 1
  /\ get_warning_level "2000" (Some [1000 # 1; 2000 # 1])%Q = Ok 2
  /\ get_warning_level "ERR" (Some [1000 # 1; 2000 # 1])%Q = Ok 0.
Proof.
  apply (get_warning_level_tiers "1500" (1000 # 1) (2000 # 1)).
  unfold Qle. simpl. lia.
Defined.

End Thresholds.

(** ** Value formatter *)

Section Formatter.

Import PyFloat BadgeCo2.

Variable float_repr : spec_float -> string.

Abbreviation format_value := (format_value float_repr).

Lemma format_value_raw (value suffix : string) :
  format_value value "raw" suffix = Ok (value +:+ suffix).
Proof. reflexivity. Qed.

(** A numeric kind on a value that does not parse: the value as it is. *)
Lemma format_value_unparsable (value fmt suffix : string) (e : exn) :
  float_of_str value = Raise e ->
  format_value value fmt suffix = Ok (value +:+ suffix).
Proof.
  intros Hparse. unfold BadgeCo2.format_value.
  destruct (String.eqb fmt "raw"); [reflexivity|].
  rewrite Hparse. apply float_of_str_raises in Hparse as ->. reflexivity.
Qed.

Lemma format_value_int (value suffix : string) (f : spec_float) :
  float_of_str value = Ok f ->
  format_value value "int" suffix
  = match int_of_float f with
    | Ok i => Ok (str_of_int i +:+ suffix)
    | Raise (OverflowError msg) => Raise (OverflowError msg)
    | Raise _ => Ok (value +:+ suffix)
    end.
Proof.
  intros Hparse. unfold BadgeCo2.format_value. cbn [String.eqb Ascii.eqb Bool.eqb].
  rewrite Hparse. cbn [mbind result_bind].
  destruct f as [s|s| |s m e]; reflexivity.
Qed.

Lemma format_value_0f (value suffix : string) (f : spec_float) :
  float_of_str value = Ok f ->
  format_value value "0f" suffix = Ok (format_fixed 0 f +:+ suffix).
Proof.
  intros Hparse. unfold BadgeCo2.format_value. cbn [String.eqb Ascii.eqb Bool.eqb].
  rewrite Hparse. reflexivity.
Qed.

Lemma format_value_1f (value suffix : string) (f : spec_float) :
  float_of_str value = Ok f ->
  format_value value "1f" suffix = Ok (format_fixed 1 f +:+ suffix).
Proof.
  intros Hparse. unfold BadgeCo2.format_value. cbn [String.eqb Ascii.eqb Bool.eqb].
  rewrite Hparse. reflexivity.
Qed.

(** C5: the formatter does raise to its caller.  For a value that [float]
    reads as an infinity (["inf"], ["-Infinity"], ["1e999"]) and the kind
    [int], [int] raises [OverflowError], which
    [except (ValueError, TypeError)] lets through. *)
Theorem format_value_infinity_int_raises (value suffix : string) (sign : bool) :
  float_of_str value = Ok (S754_infinity sign) ->
  format_value value "int" suffix
  = Raise (OverflowError "cannot convert float infinity to integer").
Proof.
  intros Hparse. rewrite (format_value_int value suffix _ Hparse).
  reflexivity.
Qed.

(** What does hold of the formatter: the kind [raw] and a value that does
    not parse give the value and the suffix, ["ERR"] among them, and the
    only exception that escapes is the one of an infinite value under
    [int]. *)
Lemma format_value_outcomes (value fmt suffix : string) :
  format_value "ERR" "int" suffix = Ok ("ERR" +:+ suffix)
  /\ format_value "ERR" "0f" suffix = Ok ("ERR" +:+ suffix)
  /\ format_value "ERR" "1f" suffix = Ok ("ERR" +:+ suffix)
  /\ ((exists s, format_value value fmt suffix = Ok s)
      \/ (fmt = "int" /\ exists sign, float_of_str value = Ok (S754_infinity sign))).
Proof.
  split; [reflexivity|]. split; [reflexivity|]. split; [reflexivity|].
  destruct (float_of_str value) as [f|e] eqn:Hparse.
  2:{ left. eexists. apply (format_value_unparsable _ _ _ _ Hparse). }
  unfold BadgeCo2.format_value.
  destruct (String.eqb fmt "raw"); [left; eauto|].
  rewrite Hparse. cbn [mbind result_bind].
  destruct (String.eqb_spec fmt "int") as [->|_].
  - destruct f as [s|s| |s m e]; cbn; eauto.
  - destruct (String.eqb fmt "0f"); [cbn; eauto|].
    destruct (String.eqb fmt "1f"); cbn; eauto.
Qed.

(** *** Truncation and rounding *)

Lemma int_of_float_truncates (f : spec_float) :
  is_finite f = true ->
  exists t, int_of_float f = Ok t /\ truncates (value_of f) t.
Proof.
  destruct f as [s|s| |s m e]; try discriminate; intros _.
  - exists 0. split; [reflexivity|].
    unfold truncates, Qle, Qlt. cbn. lia.
  - eexists. split; [reflexivity|].
    unfold truncates, value_of, finite_value.
    destruct e as [|k|k].
    + rewrite Z.shiftl_0_r, Z.mul_1_r.
      unfold Qle, Qlt, Qplus, Qminus, Qopp, inject_Z. cbn [Qnum Qden].
      destruct s; cbn [cond_Zopp]; lia.
    + rewrite Z.shiftl_mul_pow2 by lia.
      unfold Qle, Qlt, Qplus, Qminus, Qopp, inject_Z. cbn [Qnum Qden].
      destruct s; cbn [cond_Zopp]; lia.
    + change (Z.neg k) with (- Z.pos k).
      rewrite Z.shiftl_div_pow2 by lia. rewrite Z.opp_involutive.
      unfold Qle, Qlt, Qplus, Qminus, Qopp, inject_Z. cbn [Qnum Qden].
      rewrite Pos2Z.inj_pow.
      pose proof (Z.pow_pos_nonneg 2 (Z.pos k) ltac:(lia) ltac:(lia)) as HD.
      pose proof (Z.div_mod (Z.pos m) (2 ^ Z.pos k) ltac:(lia)) as Hdm.
      pose proof (Z.mod_pos_bound (Z.pos m) (2 ^ Z.pos k) HD) as Hmod.
      pose proof (Z.div_pos (Z.pos m) (2 ^ Z.pos k) ltac:(lia) HD) as Hq.
      set (D := 2 ^ Z.pos k) in *. set (q := Z.pos m / D) in *.
      set (r := Z.pos m mod D) in *.
      destruct s; cbn [cond_Zopp]; nia.
Qed.

Lemma round_half_even_nearest (m D : Z) :
  0 < D -> 0 <= m ->
  let r := round_half_even m D in
  0 <= r /\ Z.abs (m - r * D) * 2 <= D
  /\ (Z.abs (m - r * D) * 2 = D -> Z.even r = true).
Proof.
  intros HD Hm. unfold round_half_even.
  pose proof (Z.div_mod m D ltac:(lia)) as Hdm.
  pose proof (Z.mod_pos_bound m D HD) as Hmod.
  pose proof (Z.div_pos m D Hm HD) as Hq.
  set (q := m / D) in *. set (rem := m mod D) in *.
  destruct (Z.compare_spec (2 * rem) D) as [Heq|Hlt|Hgt].
  - destruct (Z.even q) eqn:Hev; cbv zeta.
    + repeat split; [lia|nia|auto].
    + repeat split; [lia|nia|].
      intros _. rewrite Z.even_add, Hev. reflexivity.
  - cbv zeta. repeat split; [lia|nia|]. intros Habs. nia.
  - cbv zeta. repeat split; [lia|nia|]. intros Habs. nia.
Qed.

Lemma format_fixed_0_nearest (f : spec_float) :
  is_finite f = true ->
  exists r,
    format_fixed 0 f = (if sign_of f then "-" else EmptyString) +:+ str_of_int r
    /\ 0 <= r
    /\ nearest_even (Qabs (value_of f)) r.
Proof.
  destruct f as [s|s| |s m e]; try discriminate; intros _.
  - exists 0. split; [reflexivity|]. split; [lia|].
    unfold nearest_even, Qle, Qeq. cbn. split; [lia|]. intros; lia.
  - exists (scaled_magnitude 0 m e). split; [reflexivity|].
    unfold scaled_magnitude, nearest_even, value_of, finite_value.
    destruct e as [|k|k].
    + rewrite Z.mul_1_r. cbn [Z.of_nat Z.pow]. rewrite !Z.mul_1_r.
      split; [lia|].
      unfold Qabs, Qle, Qeq, Qminus, Qplus, Qopp, inject_Z. cbn [Qnum Qden].
      destruct s; cbn [cond_Zopp]; split; intros; lia.
    + cbn [Z.of_nat]. rewrite Z.pow_0_r, !Z.mul_1_r.
      pose proof (Z.pow_pos_nonneg 2 (Z.pos k) ltac:(lia) ltac:(lia)) as HD.
      split; [nia|].
      unfold Qabs, Qle, Qeq, Qminus, Qplus, Qopp, inject_Z. cbn [Qnum Qden].
      set (D := 2 ^ Z.pos k) in *.
      destruct s; cbn [cond_Zopp]; split; intros; nia.
    + cbn [Z.of_nat]. rewrite Z.pow_0_r, !Z.mul_1_r.
      destruct (round_half_even_nearest (Z.pos m) (Z.pos (2 ^ k))
                  ltac:(lia) ltac:(lia)) as (Hr & Hnear & Heven).
      split; [exact Hr|].
      set (r := round_half_even (Z.pos m) (Z.pos (2 ^ k))) in *.
      assert (Habs : (Qabs (Qabs (cond_Zopp s (Z.pos m) # 2 ^ k) - inject_Z r)
                      = Z.abs (Z.pos m - r * Z.pos (2 ^ k)) # (2 ^ k))%Q).
      { unfold Qabs, Qminus, Qplus, Qopp, inject_Z. cbn [Qnum Qden].
        rewrite Pos.mul_1_r. do 2 f_equal.
        destruct s; cbn [cond_Zopp]; lia. }
      rewrite Habs. unfold Qle, Qeq. cbn [Qnum Qden].
      split; [lia|]. intros H. apply Heven. lia.
Qed.

(** The text of an integer reads back as an integer. *)
Lemma str_of_int_reads_back (i : Z) :
  NilZero.int_of_string (str_of_int i) = Some (Z.to_int i).
Proof.
  unfold str_of_int. apply NilZero.isi; destruct i; cbn; try discriminate;
    intros [= H]; exact (Unsigned.to_uint_nonnil _ H).
Qed.

(** C10, amended: for every value that parses as a finite float, the kind
    [int] gives the float rounded toward zero and the kind [0f] gives it
    rounded to the nearest integer (ties to even); ["2.9"] is ["2"] under
    [int] and ["3"] under [0f], and ["55.7"] is ["56"] under [0f]. *)
Theorem int_truncates_0f_rounds (value suffix : string) (f : spec_float) :
  float_of_str value = Ok f ->
  is_finite f = true ->
  (exists t,
     format_value value "int" suffix = Ok (str_of_int t +:+ suffix)
     /\ truncates (value_of f) t)
  /\ (exists r,
        format_value value "0f" suffix
        = Ok (((if sign_of f then "-" else EmptyString) +:+ str_of_int r) +:+ suffix)
        /\ 0 <= r
        /\ nearest_even (Qabs (value_of f)) r)
  /\ format_value "2.9" "int" EmptyString = Ok "2"
  /\ format_value "2.9" "0f" EmptyString = Ok "3"
  /\ format_value "55.7" "0f" EmptyString = Ok "56".
Proof.
  intros Hparse Hfin.
  split; [|split; [|repeat split; vm_compute; reflexivity]].
  - destruct (int_of_float_truncates f Hfin) as (t & Hint & Htrunc).
    exists t. split; [|exact Htrunc].
    rewrite (format_value_int _ _ _ Hparse), Hint. reflexivity.
  - destruct (format_fixed_0_nearest f Hfin) as (r & Hfmt & Hr & Hnear).
    exists r. split; [|split; assumption].
    rewrite (format_value_0f _ _ _ Hparse), Hfmt. reflexivity.
Qed.

End Formatter.

(** C10, as stated, fails: ["nan"] parses as a float, and the kind [int]
    gives the text back instead of an integer. *)
Lemma nan_int_is_not_truncated :
  PyFloat.float_of_str "nan" = Ok S754_nan
  /\ (forall float_repr,
        BadgeCo2.format_value float_repr "nan" "int" EmptyString = Ok "nan")
  /\ forall i, PyFloat.str_of_int i <> "nan".
Proof.
  split; [reflexivity|]. split; [reflexivity|].
  intros i Hi. pose proof (str_of_int_reads_back i) as Hback.
  rewrite Hi in Hback. discriminate.
Qed.

Lemma format_value_inf_int_raises :
  BadgeCo2.format_value (fun _ => EmptyString) "inf" "int" "%"
  = Raise (OverflowError "cannot convert float infinity to integer").
Proof.
  apply (format_value_infinity_int_raises (fun _ => EmptyString) "inf" "%" false).
  reflexivity.
Defined.

Lemma int_truncates_0f_rounds_witness :
  (exists t,
     BadgeCo2.format_value (fun _ => EmptyString) "-2.5" "int" "%"
     = Ok (PyFloat.str_of_int t +:+ "%")
     /\ PyFloat.truncates (PyFloat.value_of (S754_finite true 5629499534213120 (-51))) t)
  /\ (exists r,
        BadgeCo2.format_value (fun _ => EmptyString) "-2.5" "0f" "%"
        = Ok (((if PyFloat.sign_of (S754_finite true 5629499534213120 (-51))
                then "-" else EmptyString) +:+ PyFloat.str_of_int r) +:+ "%")
        /\ 0 <= r
        /\ PyFloat.nearest_even
             (Qabs (PyFloat.value_of (S754_finite true 5629499534213120 (-51)))) r)
  /\ BadgeCo2.format_value (fun _ => EmptyString) "2.9" "int" EmptyString = Ok "2"
  /\ BadgeCo2.format_value (fun _ => EmptyString) "2.9" "0f" EmptyString = Ok "3"
  /\ BadgeCo2.format_value (fun _ => EmptyString) "55.7" "0f" EmptyString = Ok "56".
Proof.
  apply (int_truncates_0f_rounds (fun _ => EmptyString) "-2.5" "%"
           (S754_finite true 5629499534213120 (-51))).
  - vm_compute. reflexivity.
  - reflexivity.
Defined.

(** ** Cell drawing *)

Section Cells.

Import BadgeCo2.

(** The fill of a rectangle reaches both of its corners. *)
Lemma rectangle_fill_corner (x0 y0 x1 y1 color : Z) (im : PIL.Image) (x y : Z) :
  0 < PIL.im_width im ->
  0 <= x < PIL.im_width im -> 0 <= y ->
  (Z.to_nat (y * PIL.im_width im + x) < length (PIL.im_data im))%nat ->
  PIL.in_box x0 y0 x1 y1 x y = true ->
  PIL.getpixel (PIL.rectangle_fill x0 y0 x1 y1 color im) x y
  = if y <? PIL.im_height im then Some (PIL.ink color) else None.
Proof.
  intros HW Hx Hy Hlen Hbox. unfold PIL.getpixel, PIL.rectangle_fill, PIL.map_pixels.
  cbn [PIL.im_width PIL.im_height PIL.im_data].
  replace (0 <=? x) with true by (symmetry; apply Z.leb_le; lia).
  replace (x <? PIL.im_width im) with true by (symmetry; apply Z.ltb_lt; lia).
  replace (0 <=? y) with true by (symmetry; apply Z.leb_le; lia).
  cbn [andb]. destruct (y <? PIL.im_height im); [|reflexivity].
  rewrite list_lookup_imap.
  destruct (lookup_lt_is_Some_2 (PIL.im_data im)
              (Z.to_nat (y * PIL.im_width im + x))) as [old Hold]; [lia|].
  rewrite Hold. cbn [fmap option_fmap option_map].
  rewrite Z2Nat.id by nia.
  replace ((y * PIL.im_width im + x) mod PIL.im_width im) with x
    by (apply (Z.mod_unique_pos _ _ y x); lia).
  replace ((y * PIL.im_width im + x) / PIL.im_width im) with y
    by (apply (Z.div_unique_pos _ _ y x); lia).
  rewrite Hbox. reflexivity.
Qed.

(** In the DANGER tier the pixel right of the cell's top row is filled,
    whatever the image held there. *)
Lemma danger_fill_past_cell (im : PIL.Image) (x y w h : Z) :
  0 <= x -> 0 <= y -> 0 <= w -> 0 <= h ->
  x + w < PIL.im_width im -> y < PIL.im_height im ->
  length (PIL.im_data im) = Z.to_nat (PIL.im_width im * PIL.im_height im) ->
  PIL.getpixel (PIL.rectangle_fill x y (x + w) (y + h) 0 im) (x + w) y = Some 0.
Proof.
  intros Hx Hy Hw Hh Hxw Hyh Hlen.
  rewrite rectangle_fill_corner; try lia.
  - replace (y <? PIL.im_height im) with true
      by (symmetry; apply Z.ltb_lt; lia).
    reflexivity.
  - rewrite Hlen. apply Z2Nat.inj_lt; nia.
  - unfold PIL.in_box.
    repeat (apply andb_true_intro; split); apply Z.leb_le; lia.
Qed.

(** C8: the DANGER fill runs one pixel past the cell on the right and at
    the bottom.  Cell (0, 0) of the 2 by 4 grid is columns 0..147 of rows
    0..31; drawn in the DANGER tier on a white canvas, with blank glyphs and
    no icon, it leaves column 148 and row 32 black, which belong to the
    cells to the right and below. *)
Theorem danger_fill_spills (float_repr : spec_float -> string) :
  get_warning_level "2500" (Some [1000 # 1; 2000 # 1])%Q = Ok 2
  /\ PIL.getpixel (PIL.new 296 128 1) 148 0 = Some 1
  /\ drawn_pixel (danger_cell_run float_repr) 147 31 = Some 0
  /\ drawn_pixel (danger_cell_run float_repr) 148 0 = Some 0
  /\ drawn_pixel (danger_cell_run float_repr) 148 32 = Some 0
  /\ drawn_pixel (danger_cell_run float_repr) 0 32 = Some 0
  /\ drawn_pixel (danger_cell_run float_repr) 149 0 = Some 1
  /\ drawn_pixel (danger_cell_run float_repr) 0 33 = Some 1.
Proof. repeat split; vm_compute; reflexivity. Qed.

End Cells.

(** ** More on the read loop *)

Lemma str_split_not_nil (sep : ascii) (s : string) : str_split sep s <> [].
Proof.
  induction s as [|c s IH]; cbn; [discriminate|].
  destruct (Ascii.eqb c sep); [discriminate|].
  destruct (str_split sep s); discriminate.
Qed.

(** The field before the first separator. *)
Lemma str_split_field (sep : ascii) (v rest : string) :
  str_forall (fun c => negb (Ascii.eqb c sep)) v = true ->
  str_split sep (v +:+ String sep rest) = v :: str_split sep rest.
Proof.
  induction v as [|c v IH]; intros Hv.
  - change (EmptyString +:+ String sep rest) with (String sep rest).
    cbn [str_split]. rewrite Ascii.eqb_refl. reflexivity.
  - cbn in Hv. apply andb_prop in Hv as [Hc Hv]. apply negb_true_iff in Hc.
    rewrite append_cons. cbn [str_split]. rewrite Hc, (IH Hv). reflexivity.
Qed.

Lemma str_split_last_field (sep : ascii) (v : string) :
  str_forall (fun c => negb (Ascii.eqb c sep)) v = true ->
  str_split sep v = [v].
Proof.
  induction v as [|c v IH]; intros Hv; [reflexivity|].
  cbn in Hv. apply andb_prop in Hv as [Hc Hv]. apply negb_true_iff in Hc.
  cbn [str_split]. rewrite Hc, (IH Hv). reflexivity.
Qed.

(** A string that starts with a four-character tag is the tag and a rest. *)
Lemma startswith_tag_inv (line : string) (a b c d : ascii) :
  startswith line (String a (String b (String c (String d EmptyString)))) = true ->
  exists rest, line = String a (String b (String c (String d rest))).
Proof.
  unfold startswith. intros H.
  destruct line as [|a' [|b' [|c' [|d' rest]]]]; cbn in H; try discriminate;
    repeat match type of H with
           | context [ascii_dec ?x ?y] => destruct (ascii_dec x y); [subst|discriminate]
           end; try discriminate.
  exists rest. reflexivity.
Qed.

(** After the tag [CO2:] there is always a second field. *)
Lemma co2_level_exists (line : string) :
  startswith line "CO2:" = true ->
  exists co2_level, getitem (str_split ":"%char line) 1 = Ok co2_level.
Proof.
  intros H. apply startswith_tag_inv in H as [rest ->].
  change (String "C" (String "O" (String "2" (String ":" rest))))
    with ("CO2" +:+ String ":"%char rest).
  rewrite str_split_field by reflexivity.
  destruct (str_split ":"%char rest) as [|level fields] eqn:Hsplit.
  - destruct (str_split_not_nil _ _ Hsplit).
  - exists level. reflexivity.
Qed.

Section ReadLoopMore.

Import BadgeMain BadgeCo2 Link.

Variables WIDTH HEIGHT : nat.
Variable FULL_REFRESH_INTERVAL : Z.
Variable glyphs : string -> string -> nat -> nat -> nat -> list (nat * nat).

Abbreviation receive := (receive WIDTH HEIGHT FULL_REFRESH_INTERVAL glyphs).
Abbreviation on_char := (on_char WIDTH HEIGHT FULL_REFRESH_INTERVAL glyphs).
Abbreviation display_image := (display_image WIDTH HEIGHT FULL_REFRESH_INTERVAL).
Abbreviation after_paint := (after_paint WIDTH HEIGHT FULL_REFRESH_INTERVAL).
Abbreviation paint_logged := (paint_logged WIDTH HEIGHT FULL_REFRESH_INTERVAL).
Abbreviation co2_screen := (co2_screen WIDTH HEIGHT glyphs).

Lemma on_char_returns (ch : ascii) (m : machine) :
  exists m', on_char ch m = Ok m'.
Proof.
  unfold BadgeMain.on_char.
  destruct (Ascii.eqb ch newline); [|eauto]. cbv zeta.
  destruct (startswith (str_strip (buffer m)) "IMG:").
  - destruct (Base64.a2b_base64 _) as [img_bytes|e]; cbn [try_except mbind result_bind].
    + rewrite display_image_eq. cbn. eauto.
    + eauto.
  - destruct (startswith (str_strip (buffer m)) "CO2:") eqn:Htag; [|eauto].
    destruct (co2_level_exists _ Htag) as [level ->]. cbn. eauto.
Qed.

(** X1: whatever characters arrive, the read loop raises nothing: an
    undecodable image is caught, and the legacy branch always finds its
    field. *)
Theorem receive_never_raises (input : string) (m : machine) :
  exists m', receive input m = Ok m'.
Proof.
  unfold BadgeMain.receive.
  loop_invariant (fun (_ : nat) (_ : machine) => True).
  destruct Hloop as (m' & Hrun & _); [exact I| |eauto].
  intros i ch s _ _. destruct (on_char_returns ch s) as [s' Hs']. eauto.
Qed.

(** X2: a line that carries neither tag is discarded: only the line buffer
    changes, to empty. *)
Theorem other_line_discarded (chars : string) (m : machine) :
  str_forall (fun c => negb (Ascii.eqb c newline)) chars = true ->
  startswith (str_strip (buffer m +:+ chars)) "IMG:" = false ->
  startswith (str_strip (buffer m +:+ chars)) "CO2:" = false ->
  receive (chars +:+ String newline EmptyString) m = Ok (set_buffer EmptyString m).
Proof.
  intros Htext Himg Hco2.
  rewrite receive_app, (receive_text _ _ _ _ _ _ Htext).
  cbn [mbind result_bind]. rewrite receive_newline.
  unfold BadgeMain.on_char. rewrite Ascii.eqb_refl. cbn [buffer set_buffer].
  rewrite Himg, Hco2. reflexivity.
Qed.


(** Drawing text only touches the frame buffer, and keeps its size. *)
Lemma text_keeps (msg : string) (x y scale : nat) (d : Badger2040) :
  let d' := text WIDTH HEIGHT glyphs msg x y scale d in
  pen d' = pen d /\ speed d' = speed d /\ font d' = font d
  /\ panel d' = panel d /\ refreshes d' = refreshes d
  /\ length (framebuffer d') = length (framebuffer d).
Proof.
  unfold text. generalize (glyphs (font d) msg x y scale). intros pixels.
  revert d. induction pixels as [|[px py] pixels IH]; intros d; [cbn; auto 10|].
  cbn [foldl]. specialize (IH (pixel WIDTH HEIGHT px py d)).
  cbv zeta in IH. destruct IH as (-> & -> & -> & -> & -> & ->).
  unfold pixel. destruct (_ && _); cbn; rewrite ?length_insert; auto 10.
Qed.

(** X3: a legacy line [CO2:<level>], alone or followed by a colon and
    more, shows the text up to that colon on the legacy screen with one
    refresh cycle at the current speed; it does not count as a painted
    image: the refresh counter stays, and so does the speed. *)
Theorem legacy_line_shown (chars level tail : string) (m : machine) :
  str_forall (fun c => negb (Ascii.eqb c newline)) chars = true ->
  str_strip (buffer m +:+ chars) = "CO2:" +:+ level +:+ tail ->
  str_forall (fun c => negb (Ascii.eqb c ":")) level = true ->
  tail = EmptyString \/ (exists more, tail = String ":" more) ->
  exists m',
    receive (chars +:+ String newline EmptyString) m = Ok m'
    /\ display m' = co2_screen level (display m)
    /\ update_count m' = update_count m
    /\ buffer m' = EmptyString
    /\ stdout m' = stdout m
    /\ speed (display m') = speed (display m)
    /\ refreshes (display m') = refreshes (display m) ++ [speed (display m)]
    /\ panel (display m') = framebuffer (display m').
Proof.
  intros Htext Hline Hlevel Htail.
  exists (with_display (co2_screen level) (set_buffer EmptyString m)).
  assert (Hsplit : getitem (str_split ":"%char ("CO2:" +:+ level +:+ tail)) 1
                   = Ok level).
  { change ("CO2:" +:+ level +:+ tail)
      with ("CO2" +:+ String ":"%char (level +:+ tail)).
    rewrite str_split_field by reflexivity.
    destruct Htail as [->|[more ->]].
    - rewrite append_nil_r, (str_split_last_field _ _ Hlevel). reflexivity.
    - rewrite (str_split_field _ _ _ Hlevel). reflexivity. }
  split.
  { rewrite receive_app, (receive_text _ _ _ _ _ _ Htext).
    cbn [mbind result_bind]. rewrite receive_newline.
    unfold BadgeMain.on_char. rewrite Ascii.eqb_refl. cbn [buffer set_buffer].
    rewrite Hline. cbv zeta.
    replace (startswith ("CO2:" +:+ level +:+ tail) "IMG:") with false
      by reflexivity.
    replace (startswith ("CO2:" +:+ level +:+ tail) "CO2:") with true
      by (unfold startswith; simpl; symmetry; apply prefix_nil).
    rewrite Hsplit. reflexivity. }
  cbn [with_display set_buffer display update_count buffer stdout].
  repeat split; try reflexivity.
  - unfold Link.co2_screen, update. cbn [speed].
    repeat match goal with
           | |- context [speed (text _ _ _ ?msg ?x ?y ?sc ?d)] =>
               rewrite (proj1 (proj2 (text_keeps msg x y sc d)))
           end.
    reflexivity.
  - unfold Link.co2_screen, update. cbn [refreshes speed].
    repeat match goal with
           | |- context [text _ _ _ ?msg ?x ?y ?sc ?d] =>
               destruct (text_keeps msg x y sc d) as (_ & -> & _ & _ & -> & _)
           end.
    reflexivity.
Qed.

End ReadLoopMore.

Lemma legacy_line_shown_witness :
  exists m',
    BadgeMain.receive BadgeMain.WIDTH BadgeMain.HEIGHT
      BadgeMain.FULL_REFRESH_INTERVAL (fun _ _ _ _ _ => [])
      ("CO2:612:ppm" +:+ String BadgeMain.newline EmptyString)
      BadgeMain.showing_white = Ok m'
    /\ BadgeMain.display m'
       = Link.co2_screen BadgeMain.WIDTH BadgeMain.HEIGHT (fun _ _ _ _ _ => [])
           "612" (BadgeMain.display BadgeMain.showing_white)
    /\ BadgeMain.update_count m' = BadgeMain.update_count BadgeMain.showing_white
    /\ BadgeMain.buffer m' = EmptyString
    /\ BadgeMain.stdout m' = BadgeMain.stdout BadgeMain.showing_white
    /\ BadgeMain.speed (BadgeMain.display m')
       = BadgeMain.speed (BadgeMain.display BadgeMain.showing_white)
    /\ BadgeMain.refreshes (BadgeMain.display m')
       = BadgeMain.refreshes (BadgeMain.display BadgeMain.showing_white)
         ++ [BadgeMain.speed (BadgeMain.display BadgeMain.showing_white)]
    /\ BadgeMain.panel (BadgeMain.display m')
       = BadgeMain.framebuffer (BadgeMain.display m').
Proof.
  apply (legacy_line_shown BadgeMain.WIDTH BadgeMain.HEIGHT
           BadgeMain.FULL_REFRESH_INTERVAL (fun _ _ _ _ _ => [])
           "CO2:612:ppm" "612" ":ppm" BadgeMain.showing_white).
  - reflexivity.
  - reflexivity.
  - reflexivity.
  - right. exists "ppm". reflexivity.
Defined.

Lemma other_line_discarded_witness :
  BadgeMain.receive BadgeMain.WIDTH BadgeMain.HEIGHT
    BadgeMain.FULL_REFRESH_INTERVAL (fun _ _ _ _ _ => [])
    ("hello badge" +:+ String BadgeMain.newline EmptyString)
    BadgeMain.showing_white
  = Ok (BadgeMain.set_buffer EmptyString BadgeMain.showing_white).
Proof.
  apply (other_line_discarded BadgeMain.WIDTH BadgeMain.HEIGHT
           BadgeMain.FULL_REFRESH_INTERVAL (fun _ _ _ _ _ => [])
           "hello badge" BadgeMain.showing_white); reflexivity.
Defined.

(** *** Frames with padding, and frames in a row *)

Lemma str_lstrip_spaces (lead s : string) :
  str_forall isspace lead = true -> str_lstrip (lead +:+ s) = str_lstrip s.
Proof.
  induction lead as [|c lead IH]; intros Hlead; [reflexivity|].
  cbn in Hlead. apply andb_prop in Hlead as [Hc Hlead].
  rewrite append_cons. cbn [str_lstrip]. rewrite Hc. exact (IH Hlead).
Qed.

Lemma str_rstrip_all_spaces (trail : string) :
  str_forall isspace trail = true -> str_rstrip trail = EmptyString.
Proof.
  induction trail as [|c trail IH]; intros Htrail; [reflexivity|].
  cbn in Htrail. apply andb_prop in Htrail as [Hc Htrail].
  cbn [str_rstrip]. rewrite (IH Htrail), Hc. reflexivity.
Qed.

Lemma str_rstrip_spaces (s trail : string) :
  str_forall isspace trail = true -> str_rstrip (s +:+ trail) = str_rstrip s.
Proof.
  intros Htrail. induction s as [|c s IH].
  - change (EmptyString +:+ trail) with trail.
    apply str_rstrip_all_spaces, Htrail.
  - rewrite append_cons. cbn [str_rstrip]. rewrite IH. reflexivity.
Qed.

(** Whitespace around a tagged line without whitespace is stripped. *)
Lemma str_strip_padded (lead payload trail : string) :
  str_forall isspace lead = true ->
  str_forall isspace trail = true ->
  str_forall (fun c => negb (isspace c)) payload = true ->
  str_strip (lead +:+ ("IMG:" +:+ payload) +:+ trail) = "IMG:" +:+ payload.
Proof.
  intros Hlead Htrail Hpayload. unfold str_strip.
  rewrite str_lstrip_spaces by exact Hlead.
  rewrite tag_append, !append_cons. cbn [str_lstrip isspace].
  change (str_rstrip (("IMG:" +:+ payload) +:+ trail) = "IMG:" +:+ payload).
  rewrite str_rstrip_spaces by exact Htrail.
  apply str_rstrip_id. rewrite str_forall_app, Hpayload. reflexivity.
Qed.

Lemma spaces_no_newline_app (a b : string) :
  str_forall (fun c => negb (Ascii.eqb c BadgeMain.newline)) a = true ->
  str_forall (fun c => negb (Ascii.eqb c BadgeMain.newline)) b = true ->
  str_forall (fun c => negb (Ascii.eqb c BadgeMain.newline)) (a +:+ b) = true.
Proof. intros Ha Hb. rewrite str_forall_app, Ha, Hb. reflexivity. Qed.

Section FramesInARow.

Import BadgeMain BadgeCo2 Link.

Variables WIDTH HEIGHT : nat.
Variable FULL_REFRESH_INTERVAL : Z.
Variable glyphs : string -> string -> nat -> nat -> nat -> list (nat * nat).

Abbreviation receive := (receive WIDTH HEIGHT FULL_REFRESH_INTERVAL glyphs).
Abbreviation display_image := (display_image WIDTH HEIGHT FULL_REFRESH_INTERVAL).
Abbreviation after_paint := (after_paint WIDTH HEIGHT FULL_REFRESH_INTERVAL).
Abbreviation paint_logged := (paint_logged WIDTH HEIGHT FULL_REFRESH_INTERVAL).

(** X4: blanks, tabs and carriage returns before the tag or between the
    payload and the newline do no harm: the frame is painted as if they
    were not there (so a line that ends in CR LF is read). *)
Theorem padded_frame_painted (lead trail : string) (img_bytes : list Z)
    (m : machine) :
  str_forall (fun c => isspace c && negb (Ascii.eqb c newline)) lead = true ->
  str_forall (fun c => isspace c && negb (Ascii.eqb c newline)) trail = true ->
  Forall (fun b => 0 <= b < 256) img_bytes ->
  buffer m = EmptyString ->
  receive (lead +:+ ("IMG:" +:+ Base64.b64encode img_bytes) +:+ trail
           +:+ String newline EmptyString) m
  = Ok (print "Image displayed" (after_paint img_bytes m)).
Proof.
  intros Hlead Htrail Hbytes Hbuf.
  assert (Hsplit : forall s,
            str_forall (fun c => isspace c && negb (Ascii.eqb c newline)) s = true ->
            str_forall isspace s = true
            /\ str_forall (fun c => negb (Ascii.eqb c newline)) s = true).
  { induction s as [|c s IH]; [auto|]. cbn. intros H.
    apply andb_prop in H as [Hc Hs]. apply andb_prop in Hc as [-> ->].
    destruct (IH Hs) as [-> ->]. auto. }
  destruct (Hsplit _ Hlead) as [Hlead1 Hlead2].
  destruct (Hsplit _ Htrail) as [Htrail1 Htrail2].
  replace (lead +:+ ("IMG:" +:+ Base64.b64encode img_bytes) +:+ trail
           +:+ String newline EmptyString)
    with ((lead +:+ ("IMG:" +:+ Base64.b64encode img_bytes) +:+ trail)
          +:+ String newline EmptyString)
    by (rewrite !append_assoc; reflexivity).
  rewrite receive_app, receive_text.
  2:{ apply spaces_no_newline_app; [exact Hlead2|].
      apply spaces_no_newline_app; [|exact Htrail2].
      apply no_space_no_newline.
      rewrite str_forall_app, b64encode_no_space. reflexivity. }
  cbn [mbind result_bind]. rewrite receive_newline, Hbuf.
  change (EmptyString +:+ ?s) with s.
  rewrite (on_char_image WIDTH HEIGHT FULL_REFRESH_INTERVAL glyphs
             (Base64.b64encode img_bytes) img_bytes).
  - do 3 f_equal. destruct m as [d c b o]. cbn in *. subst b. reflexivity.
  - cbn [buffer set_buffer].
    apply str_strip_padded; [assumption..|apply b64encode_no_space].
  - apply Base64Facts.a2b_base64_b64encode, Hbytes.
Qed.

(** One frame on an empty line buffer. *)
Lemma receive_image_frame (img_bytes : list Z) (m : machine) :
  Forall (fun b => 0 <= b < 256) img_bytes ->
  buffer m = EmptyString ->
  receive (image_frame img_bytes) m
  = Ok (print "Image displayed" (after_paint img_bytes m)).
Proof.
  intros Hbytes Hbuf.
  unfold image_frame. rewrite <- append_assoc, receive_app, receive_text.
  2:{ apply no_space_no_newline.
      rewrite str_forall_app, b64encode_no_space. reflexivity. }
  cbn [mbind result_bind]. rewrite receive_newline, Hbuf.
  change (EmptyString +:+ ?s) with s.
  rewrite (on_char_image WIDTH HEIGHT FULL_REFRESH_INTERVAL glyphs
             (Base64.b64encode img_bytes) img_bytes).
  - do 3 f_equal. destruct m as [d c b o]. cbn in *. subst b. reflexivity.
  - cbn [buffer set_buffer]. apply str_strip_id.
    rewrite str_forall_app, b64encode_no_space. reflexivity.
  - apply Base64Facts.a2b_base64_b64encode, Hbytes.
Qed.

Lemma after_paint_buffer (img_bytes : list Z) (m : machine) :
  buffer (after_paint img_bytes m) = buffer m.
Proof. unfold BadgeMain.after_paint. destruct (_ >=? _); reflexivity. Qed.

Lemma after_paint_stdout (img_bytes : list Z) (m : machine) :
  stdout (after_paint img_bytes m) = stdout m.
Proof. unfold BadgeMain.after_paint. destruct (_ >=? _); reflexivity. Qed.

Lemma receive_frames_text (frames : list (list Z)) (m : machine) :
  Forall (Forall (fun b => 0 <= b < 256)) frames ->
  buffer m = EmptyString ->
  receive (frames_text frames) m = paint_logged frames m.
Proof.
  intros Hframes. revert m.
  induction Hframes as [|img_bytes frames Hbytes _ IH]; intros m Hbuf.
  - reflexivity.
  - cbn [frames_text]. unfold Link.paint_logged. cbn [for_].
    rewrite receive_app, (receive_image_frame _ _ Hbytes Hbuf).
    rewrite display_image_eq. cbn [mbind result_bind].
    apply IH. cbn [print buffer]. rewrite after_paint_buffer. exact Hbuf.
Qed.

Lemma paint_logged_snoc (frames : list (list Z)) (img_bytes : list Z)
    (m : machine) :
  paint_logged (frames ++ [img_bytes]) m
  = (m1 ← paint_logged frames m;
     Ok (print "Image displayed" (after_paint img_bytes m1))).
Proof.
  unfold Link.paint_logged. rewrite for_app.
  destruct (for_ frames _ m) as [m1|e]; [|reflexivity].
  cbn [mbind result_bind for_]. rewrite display_image_eq. reflexivity.
Qed.

(** Painting a list of frames returns; it leaves the line buffer alone,
    logs one line per frame and shows the last frame. *)
Lemma paint_logged_returns (frames : list (list Z)) (m : machine) :
  exists m',
    paint_logged frames m = Ok m'
    /\ buffer m' = buffer m
    /\ stdout m' = stdout m ++ replicate (length frames) "Image displayed"
    /\ forall img_bytes, last frames = Some img_bytes ->
         panel (display m') = rendering WIDTH HEIGHT img_bytes.
Proof.
  induction frames as [|img_bytes frames IH] using rev_ind.
  - exists m. cbn. rewrite app_nil_r. repeat split. discriminate.
  - destruct IH as (m1 & Hrun & Hbuf & Hout & _).
    exists (print "Image displayed" (after_paint img_bytes m1)).
    rewrite paint_logged_snoc, Hrun. cbn [mbind result_bind].
    split; [reflexivity|]. cbn [print buffer stdout display].
    rewrite after_paint_buffer, after_paint_stdout, Hout, length_app.
    split; [exact Hbuf|]. split.
    + rewrite <- app_assoc. f_equal. cbn [length].
      rewrite Nat.add_1_r. cbn [replicate]. symmetry. apply replicate_cons_app.
    + intros bs. rewrite last_snoc. intros [= <-].
      apply after_paint_panel.
Qed.

(** X5: frames that arrive back to back are painted one by one, in order:
    reading their text is painting the list of their byte sequences; every
    frame is logged, the line buffer is empty again, and the panel shows
    the last frame. *)
Theorem frames_painted_in_order (frames : list (list Z)) (m : machine) :
  Forall (Forall (fun b => 0 <= b < 256)) frames ->
  buffer m = EmptyString ->
  exists m',
    receive (frames_text frames) m = Ok m'
    /\ paint_logged frames m = Ok m'
    /\ buffer m' = EmptyString
    /\ stdout m' = stdout m ++ replicate (length frames) "Image displayed"
    /\ forall img_bytes, last frames = Some img_bytes ->
         panel (display m') = rendering WIDTH HEIGHT img_bytes.
Proof.
  intros Hframes Hbuf.
  destruct (paint_logged_returns frames m) as (m' & Hrun & Hb & Hout & Hlast).
  exists m'. rewrite (receive_frames_text frames m Hframes Hbuf).
  rewrite Hb. auto.
Qed.

End FramesInARow.

Lemma padded_frame_painted_witness :
  BadgeMain.receive BadgeMain.WIDTH BadgeMain.HEIGHT
    BadgeMain.FULL_REFRESH_INTERVAL (fun _ _ _ _ _ => [])
    (" " +:+ ("IMG:" +:+ Base64.b64encode [0; 255; 16])
     +:+ String "013" EmptyString +:+ String BadgeMain.newline EmptyString)
    BadgeMain.showing_white
  = Ok (BadgeMain.print "Image displayed"
          (BadgeMain.after_paint BadgeMain.WIDTH BadgeMain.HEIGHT
             BadgeMain.FULL_REFRESH_INTERVAL [0; 255; 16] BadgeMain.showing_white)).
Proof.
  apply (padded_frame_painted BadgeMain.WIDTH BadgeMain.HEIGHT
           BadgeMain.FULL_REFRESH_INTERVAL (fun _ _ _ _ _ => [])
           " " (String "013" EmptyString) [0; 255; 16] BadgeMain.showing_white).
  - reflexivity.
  - reflexivity.
  - repeat constructor; lia.
  - reflexivity.
Defined.

Lemma frames_painted_in_order_witness :
  exists m',
    BadgeMain.receive BadgeMain.WIDTH BadgeMain.HEIGHT
      BadgeMain.FULL_REFRESH_INTERVAL (fun _ _ _ _ _ => [])
      (Link.frames_text [[0; 255]; [16]]) BadgeMain.showing_white = Ok m'
    /\ Link.paint_logged BadgeMain.WIDTH BadgeMain.HEIGHT
         BadgeMain.FULL_REFRESH_INTERVAL [[0; 255]; [16]] BadgeMain.showing_white
       = Ok m'
    /\ BadgeMain.buffer m' = EmptyString
    /\ BadgeMain.stdout m'
       = BadgeMain.stdout BadgeMain.showing_white
         ++ replicate (length [[0; 255]; [16]]) "Image displayed"
    /\ forall img_bytes, last [[0; 255]; [16]] = Some img_bytes ->
         BadgeMain.panel (BadgeMain.display m')
         = BadgeMain.rendering BadgeMain.WIDTH BadgeMain.HEIGHT img_bytes.
Proof.
  apply (frames_painted_in_order BadgeMain.WIDTH BadgeMain.HEIGHT
           BadgeMain.FULL_REFRESH_INTERVAL (fun _ _ _ _ _ => [])
           [[0; 255]; [16]] BadgeMain.showing_white).
  - repeat constructor; lia.
  - reflexivity.
Defined.

(** *** The waiting screen and the blank frame *)

Section Screens.

Import BadgeMain Link.

Variables WIDTH HEIGHT : nat.
Variable FULL_REFRESH_INTERVAL : Z.
Variable glyphs : string -> string -> nat -> nat -> nat -> list (nat * nat).

(** Drawing a list of pixels with the current pen. *)
Lemma pixels_drawn (pixels : list (nat * nat)) (d : Badger2040) (px py : nat) :
  (px < WIDTH)%nat -> (py < HEIGHT)%nat ->
  let d' := foldl (fun d '(qx, qy) => pixel WIDTH HEIGHT qx qy d) d pixels in
  pen d' = pen d /\ speed d' = speed d /\ font d' = font d
  /\ panel d' = panel d /\ refreshes d' = refreshes d
  /\ length (framebuffer d') = length (framebuffer d)
  /\ framebuffer d' !! (py * WIDTH + px)%nat
     = if bool_decide ((px, py) ∈ pixels)
       then (fun _ => pen d) <$> framebuffer d !! (py * WIDTH + px)%nat
       else framebuffer d !! (py * WIDTH + px)%nat.
Proof.
  intros Hpx Hpy. revert d.
  induction pixels as [|[qx qy] pixels IH]; intros d.
  - cbn. repeat split.
  - cbn [foldl]. specialize (IH (pixel WIDTH HEIGHT qx qy d)).
    cbv zeta in IH. destruct IH as (-> & -> & -> & -> & -> & -> & ->).
    unfold pixel.
    destruct ((qx <? WIDTH)%nat && (qy <? HEIGHT)%nat) eqn:Hin.
    + apply andb_prop in Hin as [Hqx Hqy].
      apply Nat.ltb_lt in Hqx, Hqy.
      cbn [pen speed font panel refreshes framebuffer].
      rewrite length_insert. repeat split.
      destruct (decide ((px, py) = (qx, qy))) as [[= -> ->]|Hne].
      * rewrite list_lookup_insert.
        rewrite (bool_decide_eq_true_2 (_ ∈ (qx, qy) :: pixels))
          by apply list_elem_of_here.
        destruct (decide _) as [[_ Hlt]|Hge].
        -- destruct (lookup_lt_is_Some_2 _ _ Hlt) as [old Hold]. rewrite Hold.
           destruct (bool_decide _); reflexivity.
        -- rewrite (lookup_ge_None_2 (framebuffer d)) by lia.
           destruct (bool_decide _); reflexivity.
      * rewrite list_lookup_insert_ne.
        2:{ intros Heq. apply Hne.
            destruct (pixel_index_inj WIDTH qx qy px py Hqx Hpx Heq) as [-> ->].
            reflexivity. }
        destruct (bool_decide ((px, py) ∈ pixels)) eqn:Hmem.
        -- apply bool_decide_eq_true in Hmem.
           rewrite (bool_decide_eq_true_2 (_ ∈ (qx, qy) :: pixels))
             by (apply list_elem_of_further, Hmem).
           reflexivity.
        -- apply bool_decide_eq_false in Hmem.
           rewrite (bool_decide_eq_false_2 (_ ∈ (qx, qy) :: pixels)).
           ++ reflexivity.
           ++ intros Hin. apply elem_of_cons in Hin as [Heq|Hin]; auto.
    + repeat split.
      assert (Hne : (px, py) <> (qx, qy)).
      { intros [= -> ->]. apply andb_false_iff in Hin as [H|H];
          apply Nat.ltb_ge in H; lia. }
      destruct (bool_decide ((px, py) ∈ pixels)) eqn:Hmem.
      * apply bool_decide_eq_true in Hmem.
        rewrite (bool_decide_eq_true_2 (_ ∈ (qx, qy) :: pixels))
          by (apply list_elem_of_further, Hmem).
        reflexivity.
      * apply bool_decide_eq_false in Hmem.
        rewrite (bool_decide_eq_false_2 (_ ∈ (qx, qy) :: pixels)).
        -- reflexivity.
        -- intros Hin'. apply elem_of_cons in Hin' as [Heq|Hin']; auto.
Qed.

(** X6: the waiting screen.  The module state is left alone; the display
    gets one refresh cycle at the speed it is set to, after which the panel
    is the frame buffer: white, with the glyph pixels of the message that
    fall inside the panel in black (those outside are clipped). *)
Theorem waiting_screen_shown (m : machine) :
  update_count (show_waiting_screen WIDTH HEIGHT glyphs m) = update_count m
  /\ buffer (show_waiting_screen WIDTH HEIGHT glyphs m) = buffer m
  /\ stdout (show_waiting_screen WIDTH HEIGHT glyphs m) = stdout m
  /\ speed (display (show_waiting_screen WIDTH HEIGHT glyphs m))
     = speed (display m)
  /\ refreshes (display (show_waiting_screen WIDTH HEIGHT glyphs m))
     = refreshes (display m) ++ [speed (display m)]
  /\ panel (display (show_waiting_screen WIDTH HEIGHT glyphs m))
     = framebuffer (display (show_waiting_screen WIDTH HEIGHT glyphs m))
  /\ length (framebuffer (display (show_waiting_screen WIDTH HEIGHT glyphs m)))
     = (WIDTH * HEIGHT)%nat
  /\ forall px py, (px < WIDTH)%nat -> (py < HEIGHT)%nat ->
       framebuffer (display (show_waiting_screen WIDTH HEIGHT glyphs m))
         !! (py * WIDTH + px)%nat
       = Some (if bool_decide
                    ((px, py) ∈ glyphs "bitmap8" "Waiting for data..."
                                  10%nat 55%nat 2%nat)
               then 0 else 15).
Proof.
  unfold show_waiting_screen, with_display.
  cbn [update_count buffer stdout display].
  split; [reflexivity|]. split; [reflexivity|]. split; [reflexivity|].
  set (d0 := set_font "bitmap8"
               (set_pen 0 (clear WIDTH HEIGHT (set_pen 15 (display m))))).
  unfold text, update. cbn [speed refreshes panel framebuffer].
  change (font d0) with "bitmap8".
  set (pixels := glyphs "bitmap8" "Waiting for data..." 10%nat 55%nat 2%nat).
  assert (Hlen0 : length (framebuffer d0) = (WIDTH * HEIGHT)%nat)
    by (cbn; apply length_replicate).
  destruct (Nat.eq_dec (WIDTH * HEIGHT)%nat 0%nat) as [Hempty|Hpos].
  - assert (Hkeep : forall l d,
              speed (foldl (fun d '(qx, qy) => pixel WIDTH HEIGHT qx qy d) d l)
              = speed d
              /\ refreshes (foldl (fun d '(qx, qy) => pixel WIDTH HEIGHT qx qy d) d l)
                 = refreshes d
              /\ length (framebuffer
                           (foldl (fun d '(qx, qy) => pixel WIDTH HEIGHT qx qy d) d l))
                 = length (framebuffer d)).
    { induction l as [|[qx qy] l IH]; intros d; [auto|].
      cbn [foldl]. destruct (IH (pixel WIDTH HEIGHT qx qy d)) as (-> & -> & ->).
      unfold pixel. destruct (_ && _); cbn; rewrite ?length_insert; auto. }
    destruct (Hkeep pixels d0) as (-> & -> & ->).
    repeat split; try assumption. intros px py Hpx Hpy. nia.
  - assert (HW : (0 < WIDTH)%nat) by (destruct WIDTH; lia).
    assert (HH : (0 < HEIGHT)%nat) by (destruct HEIGHT; lia).
    destruct (pixels_drawn pixels d0 0 0 HW HH)
      as (_ & -> & _ & _ & -> & -> & _).
    repeat split; try assumption.
    intros px py Hpx Hpy.
    destruct (pixels_drawn pixels d0 px py Hpx Hpy)
      as (_ & _ & _ & _ & _ & _ & ->).
    assert (Hold : framebuffer d0 !! (py * WIDTH + px)%nat = Some 15).
    { cbn. apply lookup_replicate_2. apply pixel_index_lt; assumption. }
    rewrite Hold. destruct (bool_decide _); reflexivity.
Qed.

Lemma rendering_nil : rendering WIDTH HEIGHT [] = replicate (WIDTH * HEIGHT) 15.
Proof.
  assert (Hall : forall l : list nat,
            (fun i => if painted WIDTH [] (i mod WIDTH) (i / WIDTH)
                      then 0 else 15) <$> l
            = replicate (length l) 15).
  { induction l as [|i l IH]; [reflexivity|].
    cbn [fmap list_fmap length replicate]. rewrite <- IH.
    unfold painted at 1. rewrite lookup_nil. reflexivity. }
  unfold rendering. rewrite Hall, length_seq. reflexivity.
Qed.

(** X7: a frame with an empty payload is a frame: it blanks the panel,
    counts as a paint and is logged. *)
Theorem empty_frame_blanks_panel (m : machine) :
  buffer m = EmptyString ->
  exists m',
    receive WIDTH HEIGHT FULL_REFRESH_INTERVAL glyphs
      ("IMG:" +:+ String newline EmptyString) m = Ok m'
    /\ panel (display m') = replicate (WIDTH * HEIGHT) 15
    /\ update_count m'
       = (if update_count m + 1 >=? FULL_REFRESH_INTERVAL
          then 0 else update_count m + 1)
    /\ stdout m' = stdout m ++ ["Image displayed"].
Proof.
  intros Hbuf.
  pose proof (receive_image_frame WIDTH HEIGHT FULL_REFRESH_INTERVAL glyphs
                [] m (Forall_nil_2 _) Hbuf) as Hrun.
  eexists. split; [exact Hrun|].
  cbn [print display update_count stdout].
  rewrite after_paint_panel, rendering_nil, after_paint_stdout.
  split; [reflexivity|]. split; [|reflexivity].
  unfold after_paint. destruct (_ >=? _); reflexivity.
Qed.

End Screens.

Lemma empty_frame_blanks_panel_witness :
  exists m',
    BadgeMain.receive BadgeMain.WIDTH BadgeMain.HEIGHT
      BadgeMain.FULL_REFRESH_INTERVAL (fun _ _ _ _ _ => [])
      ("IMG:" +:+ String BadgeMain.newline EmptyString) BadgeMain.showing_white
    = Ok m'
    /\ BadgeMain.panel (BadgeMain.display m')
       = replicate (BadgeMain.WIDTH * BadgeMain.HEIGHT) 15
    /\ BadgeMain.update_count m'
       = (if BadgeMain.update_count BadgeMain.showing_white + 1
             >=? BadgeMain.FULL_REFRESH_INTERVAL
          then 0 else BadgeMain.update_count BadgeMain.showing_white + 1)
    /\ BadgeMain.stdout m'
       = BadgeMain.stdout BadgeMain.showing_white ++ ["Image displayed"].
Proof.
  apply (empty_frame_blanks_panel BadgeMain.WIDTH BadgeMain.HEIGHT
           BadgeMain.FULL_REFRESH_INTERVAL (fun _ _ _ _ _ => [])
           BadgeMain.showing_white).
  reflexivity.
Defined.

(** ** More of the transmitter *)

Section ThresholdLists.

Import PyFloat BadgeCo2.



(** X8: a threshold list with one entry is not handled: [thresholds[1]]
    raises [IndexError], which [except (ValueError, TypeError)] lets
    through, exactly when the value parses as a float; a value that does
    not parse never reaches the indexing and gives NONE. *)
Theorem get_warning_level_one_threshold (value : string) (w : Q) :
  ((exists msg, get_warning_level value (Some [w]) = Raise (IndexError msg))
   <-> exists f, float_of_str value = Ok f)
  /\ (get_warning_level value (Some [w]) = Ok 0
      <-> exists e, float_of_str value = Raise e).
Proof.
  unfold get_warning_level.
  destruct (float_of_str value) as [f|e] eqn:Hparse.
  - cbn. split; split.
    + eauto.
    + intros _. eexists. reflexivity.
    + discriminate.
    + intros [e [=]].
  - apply float_of_str_raises in Hparse as ->. cbn. split; split.
    + intros [msg [=]].
    + intros [f [=]].
    + eauto.
    + reflexivity.
Qed.

End ThresholdLists.

Section FormatterMore.

Import PyFloat BadgeCo2.

Variable float_repr : spec_float -> string.



End FormatterMore.

Section IconCache.

Import BadgeCo2.

(** X10: an icon that has been loaded once is served from the cache from
    then on, whatever has become of the files, and loading only adds to
    the cache. *)
Theorem load_icon_memoised
    (icon_file icon_file' : string -> string -> Z -> bool -> option PIL.Image)
    (icon_name : string) (size : Z) (invert : bool)
    (cache cache' : gmap (string * Z * bool) PIL.Image) (icon : PIL.Image) :
  load_icon icon_file icon_name size invert cache = (Some icon, cache') ->
  load_icon icon_file' icon_name size invert cache' = (Some icon, cache')
  /\ cache' !! (icon_name, size, invert) = Some icon
  /\ cache ⊆ cache'.
Proof.
  unfold load_icon.
  destruct (cache !! (icon_name, size, invert)) as [hit|] eqn:Hcache.
  - intros [= -> ->]. rewrite Hcache. auto.
  - destruct (icon_file _ _ _ _) as [loaded|]; [|discriminate].
    intros [= -> <-]. rewrite lookup_insert_eq.
    split; [reflexivity|]. split; [reflexivity|].
    apply insert_subseteq, Hcache.
Qed.

(** X11: a failed load is not remembered: the cache is left as it was, and
    the files are tried again by the next call. *)
Theorem load_icon_failure_not_cached
    (icon_file icon_file' : string -> string -> Z -> bool -> option PIL.Image)
    (icon_name : string) (size : Z) (invert : bool)
    (cache cache' : gmap (string * Z * bool) PIL.Image) :
  load_icon icon_file icon_name size invert cache = (None, cache') ->
  cache' = cache
  /\ load_icon icon_file' icon_name size invert cache'
     = match icon_file' (if invert then ICONS_DIR_DARK else ICONS_DIR)
               icon_name size invert with
       | Some icon => (Some icon, <[(icon_name, size, invert) := icon]> cache)
       | None => (None, cache)
       end.
Proof.
  unfold load_icon.
  destruct (cache !! (icon_name, size, invert)) as [hit|] eqn:Hcache;
    [discriminate|].
  destruct (icon_file _ _ _ _) as [loaded|]; [discriminate|].
  intros [= <-]. rewrite Hcache. auto.
Qed.

End IconCache.

Lemma load_icon_memoised_witness :
  BadgeCo2.load_icon BadgeCo2.no_icons "fire.png" 24 false
    {[ ("fire.png", 24, false) := PIL.new 1 1 0 ]}
  = (Some (PIL.new 1 1 0), {[ ("fire.png", 24, false) := PIL.new 1 1 0 ]})
  /\ ({[ ("fire.png", 24, false) := PIL.new 1 1 0 ]}
        : gmap (string * Z * bool) PIL.Image)
       !! ("fire.png", 24, false) = Some (PIL.new 1 1 0)
  /\ (∅ : gmap (string * Z * bool) PIL.Image)
     ⊆ {[ ("fire.png", 24, false) := PIL.new 1 1 0 ]}.
Proof.
  apply (load_icon_memoised (fun _ _ _ _ => Some (PIL.new 1 1 0))
           BadgeCo2.no_icons "fire.png" 24 false ∅).
  reflexivity.
Defined.

Lemma load_icon_failure_not_cached_witness :
  (∅ : gmap (string * Z * bool) PIL.Image) = ∅
  /\ BadgeCo2.load_icon (fun _ _ _ _ => Some (PIL.new 1 1 0)) "fire.png" 24 true ∅
     = (Some (PIL.new 1 1 0), {[ ("fire.png", 24, true) := PIL.new 1 1 0 ]}).
Proof.
  apply (load_icon_failure_not_cached BadgeCo2.no_icons
           (fun _ _ _ _ => Some (PIL.new 1 1 0)) "fire.png" 24 true ∅ ∅).
  reflexivity.
Defined.

(** *** The canvas through the renderer *)

Section CanvasSize.

Import PyFloat BadgeCo2 Link.

Lemma same_size_refl (a : PIL.Image) : same_size a a.
Proof. repeat split. Qed.

Lemma same_size_trans (a b c : PIL.Image) :
  same_size a b -> same_size b c -> same_size a c.
Proof.
  intros (H1 & H2 & H3) (H4 & H5 & H6).
  repeat split; etransitivity; eassumption.
Qed.

Lemma map_pixels_size (f : Z -> Z -> Z -> Z) (im : PIL.Image) :
  same_size im (PIL.map_pixels f im).
Proof.
  unfold same_size, PIL.map_pixels. cbn. rewrite length_imap. auto.
Qed.

Lemma map_pixels_if_size (b : bool) (f : Z -> Z -> Z -> Z) (im : PIL.Image) :
  same_size im (if b then PIL.map_pixels f im else im).
Proof. destruct b; [apply map_pixels_size | apply same_size_refl]. Qed.

Variable DISPLAY_CONFIG : display_config.
Variable float_repr : spec_float -> string.
Variable icon_file : string -> string -> Z -> bool -> option PIL.Image.

Abbreviation draw_cell := (draw_cell DISPLAY_CONFIG float_repr icon_file).
Abbreviation format_value := (format_value float_repr).

(** [draw_cell] by the outcomes of the evaluator and of the formatter: it
    raises what they raise, and otherwise returns an image of the size it
    was given. *)
Lemma draw_cell_outcome (cell : cell_config) (sensor_data : gmap string string)
    (cw ch : Z) (text_font : PIL.Font) (dbg : bool)
    (img : PIL.Image) (cache : gmap (string * Z * bool) PIL.Image) :
  match sensor cell with
  | None | Some EmptyString =>
      exists img', draw_cell cell sensor_data cw ch text_font dbg (img, cache)
                   = Ok (img', cache) /\ same_size img img'
  | Some sensor_key =>
      let value := or_default (sensor_data !! sensor_key) "---" in
      match get_warning_level value (thresholds cell) with
      | Raise e =>
          draw_cell cell sensor_data cw ch text_font dbg (img, cache) = Raise e
      | Ok _ =>
          match format_value value (or_default (format cell) "1f")
                  (or_default (suffix cell) EmptyString) with
          | Raise e =>
              draw_cell cell sensor_data cw ch text_font dbg (img, cache)
              = Raise e
          | Ok _ =>
              exists img' cache',
                draw_cell cell sensor_data cw ch text_font dbg (img, cache)
                = Ok (img', cache')
                /\ same_size img img' /\ cache ⊆ cache'
          end
      end
  end.
Proof.
  unfold BadgeCo2.draw_cell.
  destruct (sensor cell) as [[|c key]|].
  - eexists. split; [reflexivity|]. apply map_pixels_if_size.
  - cbv zeta.
    destruct (get_warning_level _ _) as [level|e]; [|reflexivity].
    cbn [mbind result_bind].
    destruct (BadgeCo2.format_value _ _ _ _) as [formatted|e]; [|reflexivity].
    cbn [mbind result_bind].
    match goal with
    | |- context [let '(i, c) := ?p in _] => destruct p as [img1 cache1] eqn:Hicon
    end.
    do 2 eexists. split; [reflexivity|].
    assert (Hsize : same_size img img1 /\ cache ⊆ cache1).
    { revert Hicon.
      destruct (String.eqb _ _).
      - intros [= <- <-]. split; [|reflexivity].
        eapply same_size_trans; [apply map_pixels_if_size|].
        eapply same_size_trans; apply map_pixels_if_size.
      - unfold load_icon.
        destruct (cache !! _) as [hit|] eqn:Hcache.
        + intros [= <- <-]. split; [|reflexivity].
          eapply same_size_trans; [apply map_pixels_if_size|].
          eapply same_size_trans; [apply map_pixels_if_size|].
          eapply same_size_trans; [apply map_pixels_if_size|].
          apply map_pixels_size.
        + destruct (icon_file _ _ _ _) as [loaded|].
          * intros [= <- <-]. split; [|apply insert_subseteq, Hcache].
            eapply same_size_trans; [apply map_pixels_if_size|].
            eapply same_size_trans; [apply map_pixels_if_size|].
            eapply same_size_trans; [apply map_pixels_if_size|].
            apply map_pixels_size.
          * intros [= <- <-]. split; [|reflexivity].
            eapply same_size_trans; [apply map_pixels_if_size|].
            eapply same_size_trans; apply map_pixels_if_size. }
    destruct Hsize as [Hsize Hsub]. split; [|exact Hsub].
    eapply same_size_trans; [exact Hsize|apply map_pixels_size].
  - eexists. split; [reflexivity|]. apply map_pixels_if_size.
Qed.

Lemma draw_cell_size (cell : cell_config) (sensor_data : gmap string string)
    (cw ch : Z) (text_font : PIL.Font) (dbg : bool)
    (img img' : PIL.Image) (cache cache' : gmap (string * Z * bool) PIL.Image) :
  draw_cell cell sensor_data cw ch text_font dbg (img, cache) = Ok (img', cache') ->
  same_size img img' /\ cache ⊆ cache'.
Proof.
  intros Hdraw.
  pose proof (draw_cell_outcome cell sensor_data cw ch text_font dbg img cache)
    as Hout.
  destruct (sensor cell) as [[|c key]|].
  - destruct Hout as (i & Hi & Hs). rewrite Hi in Hdraw.
    injection Hdraw as <- <-. auto.
  - cbv zeta in Hout.
    destruct (get_warning_level _ _); [|congruence].
    destruct (BadgeCo2.format_value _ _ _ _); [|congruence].
    destruct Hout as (i & c' & Hi & Hs & Hc). rewrite Hi in Hdraw.
    injection Hdraw as <- <-. auto.
  - destruct Hout as (i & Hi & Hs). rewrite Hi in Hdraw.
    injection Hdraw as <- <-. auto.
Qed.

Lemma new_canvas :
  canvas DISPLAY_CONFIG
    (PIL.new (Z.of_nat (width DISPLAY_CONFIG)) (Z.of_nat (height DISPLAY_CONFIG)) 1).
Proof.
  unfold canvas, PIL.new. cbn. rewrite length_replicate.
  repeat split. lia.
Qed.

Lemma same_size_canvas (a b : PIL.Image) :
  same_size a b -> canvas DISPLAY_CONFIG a -> canvas DISPLAY_CONFIG b.
Proof.
  intros (H1 & H2 & H3) (H4 & H5 & H6). unfold canvas.
  rewrite <- H1, <- H2, <- H3. auto.
Qed.

Lemma draw_cells_canvas (grid : list cell_config)
    (sensor_data : gmap string string) (cw ch : Z) (text_font : PIL.Font)
    (dbg : bool) (img img' : PIL.Image)
    (cache cache' : gmap (string * Z * bool) PIL.Image) :
  for_ grid (fun cell => draw_cell cell sensor_data cw ch text_font dbg)
    (img, cache) = Ok (img', cache') ->
  same_size img img' /\ cache ⊆ cache'.
Proof.
  revert img cache. induction grid as [|cell grid IH]; intros img cache.
  - intros [= <- <-]. split; [apply same_size_refl|reflexivity].
  - cbn [for_].
    destruct (draw_cell cell _ _ _ _ _ _) as [[img1 cache1]|e] eqn:Hcell;
      [|discriminate].
    cbn [mbind result_bind]. intros Hrest.
    destruct (draw_cell_size _ _ _ _ _ _ _ _ _ _ Hcell) as [Hs1 Hc1].
    destruct (IH _ _ Hrest) as [Hs2 Hc2].
    split; [eapply same_size_trans; eassumption|].
    etransitivity; eassumption.
Qed.

Lemma generate_display_image_canvas (grid : list cell_config) (dbg : bool)
    (text_font : PIL.Font) (sensor_data : gmap string string)
    (cache cache' : gmap (string * Z * bool) PIL.Image) (img : PIL.Image) :
  generate_display_image DISPLAY_CONFIG float_repr icon_file grid dbg text_font
    sensor_data cache = Ok (img, cache') ->
  canvas DISPLAY_CONFIG img /\ cache ⊆ cache'.
Proof.
  unfold generate_display_image. cbv zeta. intros Hgen.
  apply draw_cells_canvas in Hgen as [Hsize Hsub].
  split; [|exact Hsub]. exact (same_size_canvas _ _ Hsize new_canvas).
Qed.

(** Sending a canvas writes one frame of bytes. *)
Lemma send_canvas (img : PIL.Image) (ser : Serial) :
  canvas DISPLAY_CONFIG img ->
  exists img_bytes,
    image_to_badge_bytes DISPLAY_CONFIG img = Ok img_bytes
    /\ packed_upto DISPLAY_CONFIG (PIL.im_data img) img_bytes
         (height DISPLAY_CONFIG * row_groups DISPLAY_CONFIG)
    /\ Forall (fun b => 0 <= b < 256) img_bytes
    /\ send_image_to_badge DISPLAY_CONFIG ser img
       = Ok (mkSerial (written ser +:+ image_frame img_bytes)).
Proof.
  intros (_ & _ & Hlen).
  destruct (image_to_badge_bytes_packed DISPLAY_CONFIG img Hlen)
    as (img_bytes & Hpack & Hlength & Hpacks).
  exists img_bytes. split; [exact Hpack|]. split; [split; assumption|].
  split.
  - apply Forall_lookup_2. intros i byte Hi.
    assert (Hlt : (i < height DISPLAY_CONFIG * row_groups DISPLAY_CONFIG)%nat)
      by (rewrite <- Hlength; eapply lookup_lt_Some, Hi).
    assert (Hg : (0 < row_groups DISPLAY_CONFIG)%nat) by (destruct (row_groups _); lia).
    destruct (Hpacks (i / row_groups DISPLAY_CONFIG)%nat
                (i mod row_groups DISPLAY_CONFIG)%nat byte) as [Hrange _].
    + apply Nat.mod_upper_bound. lia.
    + rewrite Nat.mul_comm, <- Nat.div_mod_eq. exact Hi.
    + exact Hrange.
  - unfold send_image_to_badge, write, flush, image_frame.
    rewrite Hpack. cbn [mbind result_bind written].
    rewrite !append_assoc. reflexivity.
Qed.

(** X12: whatever the grid, the readings, the font and the icons, an image
    that the renderer returns has the configured size, so the packer reads
    no pixel out of range: sending it writes one image frame of
    [height * ceil(width / 8)] bytes; and the icon cache has only grown.
    (The configuration has at least one column and one row, and no more
    than it has pixels: the cell size is a division by their numbers, and
    a cell has a box to draw.) *)
Theorem rendered_image_is_sent (grid : list cell_config) (dbg : bool)
    (text_font : PIL.Font) (sensor_data : gmap string string)
    (cache cache' : gmap (string * Z * bool) PIL.Image) (img : PIL.Image)
    (ser : Serial) :
  (0 < cols DISPLAY_CONFIG <= width DISPLAY_CONFIG)%nat ->
  (0 < rows DISPLAY_CONFIG <= height DISPLAY_CONFIG)%nat ->
  generate_display_image DISPLAY_CONFIG float_repr icon_file grid dbg text_font
    sensor_data cache = Ok (img, cache') ->
  canvas DISPLAY_CONFIG img
  /\ cache ⊆ cache'
  /\ exists img_bytes,
       image_to_badge_bytes DISPLAY_CONFIG img = Ok img_bytes
       /\ length img_bytes
          = (height DISPLAY_CONFIG * row_groups DISPLAY_CONFIG)%nat
       /\ Forall (fun b => 0 <= b < 256) img_bytes
       /\ send_image_to_badge DISPLAY_CONFIG ser img
          = Ok (mkSerial (written ser +:+ image_frame img_bytes)).
Proof.
  intros _ _ Hgen.
  destruct (generate_display_image_canvas _ _ _ _ _ _ _ Hgen) as [Hcanvas Hsub].
  split; [exact Hcanvas|]. split; [exact Hsub|].
  destruct (send_canvas img ser Hcanvas)
    as (img_bytes & Hpack & [Hlength _] & Hrange & Hsend).
  exists img_bytes. auto.
Qed.

(** *** When the renderer raises *)




End CanvasSize.

Section RepoGrid.

Import PyFloat BadgeCo2 Link.

Variable float_repr : spec_float -> string.
Variable icon_file : string -> string -> Z -> bool -> option PIL.Image.





End RepoGrid.

(** *** The packer on images that are not canvases, and after the receiver *)

Lemma for_raises_at {A S : Type} (Q : exn -> Prop) (xs : list A)
    (body : A -> S -> result S) (x : A) :
  x ∈ xs ->
  (forall s, exists e, body x s = Raise e) ->
  (forall y s e, body y s = Raise e -> Q e) ->
  forall s, exists e, for_ xs body s = Raise e /\ Q e.
Proof.
  intros Hin Hx HQ. induction xs as [|a xs IH]; intros s.
  - inversion Hin.
  - cbn [for_]. destruct (body a s) as [s'|e] eqn:Ha; cbn [mbind result_bind].
    + apply IH. apply elem_of_cons in Hin as [->|Hin]; [|exact Hin].
      destruct (Hx s) as [e He]. congruence.
    + exists e. split; [reflexivity|]. apply (HQ a s e Ha).
Qed.

Lemma for_raises_only {A S : Type} (Q : exn -> Prop) (xs : list A)
    (body : A -> S -> result S) :
  (forall y s e, body y s = Raise e -> Q e) ->
  forall s e, for_ xs body s = Raise e -> Q e.
Proof.
  intros HQ. induction xs as [|a xs IH]; intros s e; [discriminate|].
  cbn [for_]. destruct (body a s) as [s'|e'] eqn:Ha; cbn [mbind result_bind].
  - apply IH.
  - intros [= <-]. apply (HQ a s e' Ha).
Qed.

Lemma byte_bits_eq (a b : Z) :
  0 <= a < 256 -> 0 <= b < 256 ->
  (forall k, (k < 8)%nat ->
     Z.testbit a (7 - Z.of_nat k) = Z.testbit b (7 - Z.of_nat k)) ->
  a = b.
Proof.
  intros Ha Hb Hbits.
  rewrite (Base64Facts.byte_low_bits a Ha), (Base64Facts.byte_low_bits b Hb).
  apply Z.bits_inj'. intros n Hn. rewrite !Z.land_spec.
  destruct (Z.lt_ge_cases n 8) as [Hlt|Hge].
  - specialize (Hbits (Z.to_nat (7 - n)) ltac:(lia)).
    replace (7 - Z.of_nat (Z.to_nat (7 - n))) with n in Hbits by lia.
    rewrite Hbits. reflexivity.
  - rewrite Z.ones_spec_high by lia. rewrite !andb_false_r. reflexivity.
Qed.

Section PackerMore.

Import BadgeCo2 BadgeMain Link.

Variable DISPLAY_CONFIG : display_config.

Abbreviation w := (width DISPLAY_CONFIG).
Abbreviation h := (height DISPLAY_CONFIG).

Lemma pack_byte_raises_only (pixels : list Z) (x y : nat) (e : exn) :
  pack_byte pixels w x y = Raise e -> is_index_error e.
Proof.
  unfold pack_byte. apply for_raises_only. intros bit byte e'.
  destruct (_ <? _)%nat; [|discriminate].
  unfold getitem. destruct (pixels !! _) as [p|].
  - cbn. destruct (p =? 0); discriminate.
  - intros [= <-]. eexists. reflexivity.
Qed.

(** X15: the packer does not check the size of the image: on an image with
    fewer pixels than the configured canvas it raises [IndexError]. *)
Theorem image_to_badge_bytes_short_image (img : PIL.Image) :
  (length (PIL.im_data img) < w * h)%nat ->
  exists msg, image_to_badge_bytes DISPLAY_CONFIG img = Raise (IndexError msg).
Proof.
  intros Hshort. set (n := length (PIL.im_data img)) in *.
  assert (HW : (0 < w)%nat) by (destruct w; lia).
  pose proof (Nat.div_mod_eq n w) as Hdm.
  pose proof (Nat.mod_upper_bound n w ltac:(lia)) as Hm.
  assert (Hy : (n / w < h)%nat) by (apply Nat.Div0.div_lt_upper_bound; lia).
  set (y0 := (n / w)%nat) in *. set (x0 := (n mod w)%nat) in *.
  pose proof (Nat.div_mod_eq x0 8) as Hdm8.
  pose proof (Nat.mod_upper_bound x0 8 ltac:(lia)) as Hm8.
  assert (Hg : (x0 / 8 < (w + 7) / 8)%nat).
  { apply Nat.Div0.div_lt_upper_bound.
    pose proof (Nat.div_mod_eq (w + 7) 8).
    pose proof (Nat.mod_upper_bound (w + 7) 8). lia. }
  unfold image_to_badge_bytes, PIL.convert_1. cbv zeta.
  destruct (for_raises_at is_index_error (range h)
              (fun y => for_ (range3 0 w 8) (fun x byte_data =>
                 byte ← pack_byte (PIL.im_data img) w x y;
                 Ok (byte_data ++ [byte]))) y0) with (s := @nil Z)
    as (e & Hrun & [msg ->]).
  - apply list_elem_of_lookup. exists y0. apply range_lookup. auto.
  - intros byte_data0.
    destruct (for_raises_at is_index_error (range3 0 w 8)
                (fun x byte_data =>
                   byte ← pack_byte (PIL.im_data img) w x y0;
                   Ok (byte_data ++ [byte])) (8 * (x0 / 8))%nat)
      with (s := byte_data0) as (e & Hrun & _).
    + apply list_elem_of_lookup. exists (x0 / 8)%nat. apply range3_lookup. auto.
    + intros byte_data.
      destruct (for_raises_at is_index_error (range 8)
                  (fun bit byte =>
                     let px := (8 * (x0 / 8) + bit)%nat in
                     if (px <? w)%nat then
                       p ← getitem (PIL.im_data img) (y0 * w + px)%nat;
                       if p =? 0 then Ok byte
                       else Ok (Z.lor byte (Z.shiftl 1 (7 - Z.of_nat bit)))
                     else Ok byte) (x0 mod 8)%nat) with (s := 0)
        as (e & Hrun & _).
      * apply list_elem_of_lookup. exists (x0 mod 8)%nat. apply range_lookup. auto.
      * intros byte. cbv zeta.
        replace (8 * (x0 / 8) + x0 mod 8)%nat with x0 by lia.
        replace (x0 <? w)%nat with true by (symmetry; apply Nat.ltb_lt; exact Hm).
        unfold getitem.
        rewrite (lookup_ge_None_2 (PIL.im_data img)) by (fold n; lia).
        eexists. reflexivity.
      * intros bit byte e'. cbv zeta.
        destruct (_ <? _)%nat; [|discriminate].
        unfold getitem. destruct (PIL.im_data img !! _) as [p|].
        -- cbn. destruct (p =? 0); discriminate.
        -- intros [= <-]. eexists. reflexivity.
      * exists e. cbv beta.
        replace (pack_byte (PIL.im_data img) w (8 * (x0 / 8)) y0)
          with (@Raise Z e) by (symmetry; exact Hrun).
        reflexivity.
    + intros x byte_data e'.
      destruct (pack_byte _ _ _ _) as [byte|e''] eqn:Hpack; [discriminate|].
      intros [= <-]. apply (pack_byte_raises_only _ _ _ _ Hpack).
    + exists e. exact Hrun.
  - intros y byte_data e'. apply for_raises_only. intros x bd e''.
    destruct (pack_byte _ _ _ _) as [byte|e3] eqn:Hpack; [discriminate|].
    intros [= <-]. apply (pack_byte_raises_only _ _ _ _ Hpack).
  - exists msg. exact Hrun.
Qed.

(** X16: on a panel whose width is a multiple of 8 nothing of a full frame
    is lost: the picture that the receiver renders from the bytes, taken as
    a 1-bit image, is packed to these bytes again (so different frames show
    different pictures). *)
Theorem pack_rendering_roundtrip (img_bytes : list Z) :
  (w mod 8 = 0)%nat ->
  length img_bytes = (h * row_groups DISPLAY_CONFIG)%nat ->
  Forall (fun b => 0 <= b < 256) img_bytes ->
  image_to_badge_bytes DISPLAY_CONFIG
    (PIL.mkImage (Z.of_nat w) (Z.of_nat h)
       (pixel_of_pen <$> rendering w h img_bytes))
  = Ok img_bytes.
Proof.
  intros Hw8 Hlen Hrange.
  set (img := PIL.mkImage (Z.of_nat w) (Z.of_nat h)
                (pixel_of_pen <$> rendering w h img_bytes)).
  assert (Hpixels : length (PIL.im_data img) = (w * h)%nat).
  { cbn. unfold rendering. rewrite !length_fmap, length_seq. reflexivity. }
  destruct (image_to_badge_bytes_packed DISPLAY_CONFIG img Hpixels)
    as (byte_data & Hpack & Hlength & Hpacks).
  rewrite Hpack. f_equal.
  assert (HG : (w = 8 * row_groups DISPLAY_CONFIG)%nat).
  { unfold row_groups. pose proof (Nat.div_mod_eq w 8).
    pose proof (Nat.div_mod_eq (w + 7) 8).
    pose proof (Nat.mod_upper_bound (w + 7) 8).
    assert ((w + 7) / 8 = w / 8)%nat; [|lia].
    symmetry. apply (Nat.div_unique (w + 7) 8 (w / 8) 7); lia. }
  apply (list_eq_same_length _ _ (h * row_groups DISPLAY_CONFIG)%nat);
    [exact Hlen|exact Hlength|].
  intros i x b Hi Hx Hb.
  assert (Hgpos : (0 < row_groups DISPLAY_CONFIG)%nat)
    by (destruct (row_groups DISPLAY_CONFIG); lia).
  pose proof (Nat.div_mod_eq i (row_groups DISPLAY_CONFIG)) as Hdm.
  pose proof (Nat.mod_upper_bound i (row_groups DISPLAY_CONFIG) ltac:(lia)) as Hm.
  assert (Hy : (i / row_groups DISPLAY_CONFIG < h)%nat)
    by (apply Nat.Div0.div_lt_upper_bound; lia).
  set (y := (i / row_groups DISPLAY_CONFIG)%nat) in *.
  set (g := (i mod row_groups DISPLAY_CONFIG)%nat) in *.
  assert (Hidx : (y * row_groups DISPLAY_CONFIG + g)%nat = i) by lia.
  destruct (Hpacks y g x Hm) as [Hxr Hbits]; [rewrite Hidx; exact Hx|].
  apply byte_bits_eq; [exact Hxr| |].
  { eapply Forall_lookup_1 in Hrange; [exact Hrange|exact Hb]. }
  intros k Hk. rewrite (Hbits k Hk).
  assert (Hpx : (8 * g + k < w)%nat) by lia.
  replace (8 * g + k <? w)%nat with true by (symmetry; apply Nat.ltb_lt; exact Hpx).
  cbn [PIL.im_data img andb]. subst img. cbn [PIL.im_data].
  rewrite list_lookup_fmap.
  rewrite (rendering_lookup w h img_bytes (8 * g + k) y Hpx Hy).
  cbn [fmap option_fmap option_map]. unfold painted. rewrite row_bytes_eq.
  change ((w + 7) / 8)%nat with (row_groups DISPLAY_CONFIG).
  replace ((8 * g + k) / 8)%nat with g
    by (apply (Nat.div_unique _ 8 g k); lia).
  replace ((8 * g + k) mod 8)%nat with k
    by (apply (Nat.mod_unique _ 8 g k); lia).
  rewrite Hidx, Hb.
  destruct (Z.testbit b (7 - Z.of_nat k)); reflexivity.
Qed.

End PackerMore.

Lemma image_to_badge_bytes_short_image_witness :
  exists msg,
    BadgeCo2.image_to_badge_bytes (BadgeCo2.mkDisplayConfig 8 2 1 1 0)
      (PIL.mkImage 8 2 (replicate 15 255))
    = Raise (IndexError msg).
Proof.
  apply (image_to_badge_bytes_short_image (BadgeCo2.mkDisplayConfig 8 2 1 1 0)
           (PIL.mkImage 8 2 (replicate 15 255))).
  cbn. lia.
Defined.

Lemma pack_rendering_roundtrip_witness :
  BadgeCo2.image_to_badge_bytes (BadgeCo2.mkDisplayConfig 16 2 1 1 0)
    (PIL.mkImage (Z.of_nat 16) (Z.of_nat 2)
       (Link.pixel_of_pen <$> BadgeMain.rendering 16 2 [0; 255; 129; 66]))
  = Ok [0; 255; 129; 66].
Proof.
  apply (pack_rendering_roundtrip (BadgeCo2.mkDisplayConfig 16 2 1 1 0)
           [0; 255; 129; 66]).
  - reflexivity.
  - reflexivity.
  - repeat constructor; lia.
Defined.

Lemma rendered_image_is_sent_witness :
  BadgeCo2.canvas (BadgeCo2.mkDisplayConfig 8 2 1 1 0)
    (PIL.mkImage 8 2 (replicate 16 1))
  /\ (∅ : gmap (string * Z * bool) PIL.Image) ⊆ ∅
  /\ exists img_bytes,
       BadgeCo2.image_to_badge_bytes (BadgeCo2.mkDisplayConfig 8 2 1 1 0)
         (PIL.mkImage 8 2 (replicate 16 1)) = Ok img_bytes
       /\ length img_bytes
          = (BadgeCo2.height (BadgeCo2.mkDisplayConfig 8 2 1 1 0)
             * BadgeCo2.row_groups (BadgeCo2.mkDisplayConfig 8 2 1 1 0))%nat
       /\ Forall (fun b => 0 <= b < 256) img_bytes
       /\ BadgeCo2.send_image_to_badge (BadgeCo2.mkDisplayConfig 8 2 1 1 0)
            (BadgeCo2.mkSerial EmptyString) (PIL.mkImage 8 2 (replicate 16 1))
          = Ok (BadgeCo2.mkSerial
                  (BadgeCo2.written (BadgeCo2.mkSerial EmptyString)
                   +:+ BadgeCo2.image_frame img_bytes)).
Proof.
  apply (rendered_image_is_sent (BadgeCo2.mkDisplayConfig 8 2 1 1 0)
           (fun _ => EmptyString) BadgeCo2.no_icons
           [BadgeCo2.mkCell 0 0 (Some "time") None (Some "raw") None None None]
           false BadgeCo2.blank_font {[ "time" := "12:30" ]} ∅ ∅
           (PIL.mkImage 8 2 (replicate 16 1)) (BadgeCo2.mkSerial EmptyString)).
  - cbn. lia.
  - cbn. lia.
  - vm_compute. reflexivity.
Defined.


(** ** What drawing a cell leaves alone *)

Section CellPixels.

Import PyFloat BadgeCo2.







Variable DISPLAY_CONFIG : display_config.
Variable float_repr : spec_float -> string.
Variable icon_file : string -> string -> Z -> bool -> option PIL.Image.





End CellPixels.



(** ** From the canvas to the panel *)

Section EndToEnd.

Import BadgeCo2 BadgeMain Link.

Variable glyphs : string -> string -> nat -> nat -> nat -> list (nat * nat).

(** The state the receiver starts reading in. *)
Lemma boot_state (d : Badger2040) :
  let m := boot WIDTH HEIGHT glyphs d in
  update_count m = 0
  /\ buffer m = EmptyString
  /\ stdout m = ["Badge ready - listening for images..."]
  /\ speed (display m) = UPDATE_FAST.
Proof.
  cbv zeta. unfold boot, show_waiting_screen, with_display, print.
  cbn [update_count buffer stdout display app update speed].
  repeat split.
  destruct (text_keeps WIDTH HEIGHT glyphs "Waiting for data..." 10 55 2
              (set_font "bitmap8"
                 (set_pen 0 (clear WIDTH HEIGHT
                               (set_pen 15 (set_update_speed UPDATE_FAST d))))))
    as (_ & -> & _).
  reflexivity.
Qed.

Lemma send_all_frames (imgs : list PIL.Image) (ser : Serial) :
  Forall (canvas badger_config) imgs ->
  exists frames,
    send_all badger_config imgs ser
    = Ok (mkSerial (written ser +:+ frames_text frames))
    /\ Forall2 (frame_of badger_config) imgs frames.
Proof.
  intros Himgs. revert ser.
  induction Himgs as [|img imgs Himg _ IH]; intros ser.
  - exists []. cbn. rewrite append_nil_r. destruct ser. split; [reflexivity|].
    constructor.
  - destruct (send_canvas badger_config img ser Himg)
      as (img_bytes & _ & Hpacked & Hrange & Hsend).
    destruct (IH (mkSerial (written ser +:+ image_frame img_bytes)))
      as (frames & Hrest & Hframes).
    exists (img_bytes :: frames). unfold send_all in *. cbn [for_].
    rewrite Hsend. cbn [mbind result_bind]. rewrite Hrest.
    cbn [written frames_text]. rewrite append_assoc.
    split; [reflexivity|]. constructor; [split; assumption|exact Hframes].
Qed.

Lemma paint_logged_counter (frames : list (list Z)) (m : machine) :
  update_count m = 0 ->
  speed (display m) = UPDATE_FAST ->
  exists m',
    paint_logged WIDTH HEIGHT FULL_REFRESH_INTERVAL frames m = Ok m'
    /\ update_count m' = Z.of_nat (length frames) mod 60
    /\ speed (display m') = UPDATE_FAST.
Proof.
  intros Hzero Hfast.
  induction frames as [|frame frames IH] using rev_ind.
  - exists m. cbn. rewrite Hzero. auto.
  - destruct IH as (m1 & Hrun & Hcount & Hspeed).
    exists (print "Image displayed"
              (after_paint WIDTH HEIGHT FULL_REFRESH_INTERVAL frame m1)).
    destruct (after_paint_counter WIDTH HEIGHT FULL_REFRESH_INTERVAL frame m1
                Hspeed) as (Hs' & Hc' & _).
    rewrite paint_logged_snoc, Hrun. cbn [mbind result_bind].
    split; [reflexivity|]. cbn [print update_count display].
    split; [|exact Hs'].
    rewrite Hc', Hcount, length_app, Nat.add_1_r, Nat2Z.inj_succ.
    unfold FULL_REFRESH_INTERVAL, Z.succ.
    destruct (Z.geb_spec (Z.of_nat (length frames) mod 60 + 1) 60);
      Z.div_mod_to_equations; lia.
Qed.

(** X19: the two programs together.  The transmitter sends canvases one
    after the other on a fresh port; a receiver that has just started reads
    what was written.  Nothing raises on either side, the panel ends up
    showing the last canvas pixel for pixel (black for 0, white otherwise),
    every frame was logged, the line buffer is empty again, and the refresh
    counter is the number of canvases modulo 60. *)
Theorem sent_canvases_reach_the_panel (imgs : list PIL.Image)
    (img : PIL.Image) (d : Badger2040) :
  Forall (canvas badger_config) (imgs ++ [img]) ->
  exists ser m,
    send_all badger_config (imgs ++ [img]) (mkSerial EmptyString) = Ok ser
    /\ receive WIDTH HEIGHT FULL_REFRESH_INTERVAL glyphs (written ser)
         (boot WIDTH HEIGHT glyphs d) = Ok m
    /\ panel (display m) = pen_of_pixel <$> PIL.im_data img
    /\ update_count m = Z.of_nat (length imgs + 1) mod 60
    /\ buffer m = EmptyString
    /\ stdout m
       = "Badge ready - listening for images..."
         :: replicate (length imgs + 1) "Image displayed".
Proof.
  intros Hcanvases.
  destruct (send_all_frames (imgs ++ [img]) (mkSerial EmptyString) Hcanvases)
    as (frames & Hsend & Hframes).
  pose proof (Forall2_length _ _ _ Hframes) as Hlen.
  rewrite length_app, Nat.add_1_r in Hlen.
  assert (Hrange : Forall (Forall (fun b => 0 <= b < 256)) frames).
  { clear -Hframes. induction Hframes as [|i f imgs' fs [_ Hf] _ IH];
      constructor; assumption. }
  assert (Hlast : exists img_bytes,
            last frames = Some img_bytes /\ frame_of badger_config img img_bytes).
  { apply Forall2_app_inv_l in Hframes as (frames1 & frames2 & _ & Hone & ->).
    apply Forall2_cons_inv_l in Hone as (img_bytes & rest & Hof & Hnil & ->).
    apply Forall2_nil_inv_l in Hnil as ->.
    exists img_bytes. rewrite last_snoc. auto. }
  destruct Hlast as (img_bytes & Hlast & [Hpacked _]).
  destruct (boot_state d) as (Hzero & Hbuf & Hout & Hfast).
  destruct (paint_logged_counter frames _ Hzero Hfast)
    as (m & Hrun & Hcount & _).
  destruct (paint_logged_returns WIDTH HEIGHT FULL_REFRESH_INTERVAL frames
              (boot WIDTH HEIGHT glyphs d))
    as (m' & Hrun' & Hbuf' & Hout' & Hpanel).
  rewrite Hrun in Hrun'. injection Hrun' as <-.
  eexists. exists m. split; [exact Hsend|]. cbn [written].
  change (EmptyString +:+ frames_text frames) with (frames_text frames).
  rewrite (receive_frames_text WIDTH HEIGHT FULL_REFRESH_INTERVAL glyphs
             frames _ Hrange Hbuf).
  split; [exact Hrun|]. split.
  - rewrite (Hpanel img_bytes Hlast).
    apply (rendering_packed badger_config).
    + apply Forall_app in Hcanvases as [_ Himg].
      apply Forall_cons in Himg as [(_ & _ & Himg) _]. exact Himg.
    + exact Hpacked.
  - rewrite Hcount, Hbuf', Hbuf, Hout', Hout, <- Hlen, Nat.add_1_r.
    auto.
Qed.

End EndToEnd.

Lemma sent_canvases_reach_the_panel_witness :
  exists ser m,
    Link.send_all BadgeCo2.badger_config ([] ++ [PIL.new 296 128 1])
      (BadgeCo2.mkSerial EmptyString) = Ok ser
    /\ BadgeMain.receive BadgeMain.WIDTH BadgeMain.HEIGHT
         BadgeMain.FULL_REFRESH_INTERVAL (fun _ _ _ _ _ => [])
         (BadgeCo2.written ser)
         (BadgeMain.boot BadgeMain.WIDTH BadgeMain.HEIGHT (fun _ _ _ _ _ => [])
            (BadgeMain.mkBadger 0 BadgeMain.UPDATE_NORMAL EmptyString [] [] []))
       = Ok m
    /\ BadgeMain.panel (BadgeMain.display m)
       = BadgeMain.pen_of_pixel <$> PIL.im_data (PIL.new 296 128 1)
    /\ BadgeMain.update_count m = Z.of_nat (length (@nil PIL.Image) + 1) mod 60
    /\ BadgeMain.buffer m = EmptyString
    /\ BadgeMain.stdout m
       = "Badge ready - listening for images..."
         :: replicate (length (@nil PIL.Image) + 1) "Image displayed".
Proof.
  apply (sent_canvases_reach_the_panel (fun _ _ _ _ _ => []) []
           (PIL.new 296 128 1)
           (BadgeMain.mkBadger 0 BadgeMain.UPDATE_NORMAL EmptyString [] [] [])).
  repeat constructor.
Defined.
